(** * Appointment management server: slot generation and availability

    A shallow embedding of the server side of the scheduling application:
    [server/routes/organizations.ts] (slot generator, settings, slot cache,
    locked days, status aggregation) and [server/routes/appointments.ts]
    (booking, status change, cancellation, booked-slots index).

    Module-level stores of the two route files are gathered in one record
    [Store]; every route handler is a function from a request and a store to
    a response and a new store.  Dates and clock values that the server
    obtains from the JavaScript runtime and from date-fns and uuid are
    reached through the [Platform] interface.  Numbers of the settings are
    rationals, times are whole milliseconds, a [Date] may be Invalid
    Date. *)

From Stdlib Require Import ZArith QArith Qcanon String Ascii List Bool Lia.
From stdpp Require Import gmap strings list fin_maps.

Local Open Scope string_scope.
Local Open Scope list_scope.
Local Open Scope Z_scope.

(** ** Results of JavaScript code *)

(** A computation either returns a value or raises an exception. *)
Inductive outcome (A : Type) : Type :=
| Ok (a : A)
| Throw (e : string).
Arguments Ok {A} a.
Arguments Throw {A} e.

(** ** Numbers *)

(** A finite JavaScript number, as [z.number()] lets it through: a
    rational, whole or not.  The whole number [n] is [Qc_of_Z n]. *)
Definition number : Type := Qc.

(** [a <= b] on numbers. *)
Definition number_leb (a b : number) : bool := Qle_bool a b.

(** ** Property names *)

(** The names every plain object inherits from [Object.prototype]: read
    from an object that has no such property of its own, [obj[name]] is
    the inherited value, not [undefined]. *)
Definition inherited (name : string) : bool :=
  bool_decide (name ∈ [ "constructor"; "__proto__"; "hasOwnProperty"; "isPrototypeOf";
                        "propertyIsEnumerable"; "toLocaleString"; "toString"; "valueOf";
                        "__defineGetter__"; "__defineSetter__"; "__lookupGetter__";
                        "__lookupSetter__" ]).

(** ** Times of day: the ["HH:mm"] pattern of date-fns *)

Module Clock.

(** A time is a number of milliseconds counted from the local midnight
    of the day the server reads its clock ([new Date()]); seconds and
    milliseconds are zero after [parse].  The day has no change of time
    zone. *)

Definition digit_of (c : ascii) : option Z :=
  let n := Z.of_nat (nat_of_ascii c) in
  if (48 <=? n) && (n <=? 57) then Some (n - 48) else None.

(** A numeric token of width two reads one or two digits, greedily. *)
Definition take_number (s : string) : option (Z * string) :=
  match s with
  | String c1 r1 =>
      match digit_of c1 with
      | None => None
      | Some d1 =>
          match r1 with
          | String c2 r2 =>
              match digit_of c2 with
              | Some d2 => Some (10 * d1 + d2, r2)
              | None => Some (d1, r1)
              end
          | EmptyString => Some (d1, r1)
          end
      end
  | EmptyString => None
  end.

Definition is_space (c : ascii) : bool :=
  let n := nat_of_ascii c in
  (Nat.eqb n 32 || Nat.eqb n 9 || Nat.eqb n 10 || Nat.eqb n 11
   || Nat.eqb n 12 || Nat.eqb n 13)%bool.

Fixpoint all_space (s : string) : bool :=
  match s with
  | EmptyString => true
  | String c r => is_space c && all_space r
  end.

(** [parse(s, "HH:mm", new Date())]: [None] stands for Invalid Date. *)
Definition parse (s : string) : option Z :=
  match take_number s with
  | Some (h, String ":" r) =>
      match take_number r with
      | Some (m, rest) =>
          if all_space rest && (h <=? 23) && (m <=? 59)
          then Some (60000 * (60 * h + m)) else None
      | None => None
      end
  | _ => None
  end.

Definition digit_char (d : Z) : ascii := ascii_of_nat (Z.to_nat (48 + d)).

Definition two_digits (n : Z) : string :=
  String (digit_char (n / 10)) (String (digit_char (n mod 10)) EmptyString).

(** [format(t, "HH:mm")] at the time [t]: the time of day, whatever the
    day, seconds and milliseconds left out. *)
Definition format (t : Z) : string :=
  let minutes := t / 60000 in
  (two_digits ((minutes / 60) mod 24) ++ ":" ++ two_digits (minutes mod 60))%string.

(** A [Date] object: a time, or Invalid Date ([None]). *)
Definition date : Type := option Z.

(** The largest time value of a [Date], in milliseconds either side of
    the epoch. *)
Definition maxTime : Z := 8640000000000000.

(** [new Date(ms)] for the time [t], the midnight that times are counted
    from being [today] milliseconds after the epoch. *)
Definition construct (today t : Z) : date :=
  if Z.abs (today + t) <=? maxTime then Some t else None.

(** [addMilliseconds(d, amount)]: an Invalid Date stays one. *)
Definition addMilliseconds (today : Z) (d : date) (amount : Z) : date :=
  match d with
  | Some t => construct today (t + amount)
  | None => None
  end.

(** [format(d, "HH:mm")]: date-fns raises on an Invalid Date. *)
Definition formatDate (d : date) : outcome string :=
  match d with
  | Some t => Ok (format t)
  | None => Throw "RangeError: Invalid time value"
  end.

(** [isWithinInterval(d, {start, end})] between two valid bounds.
    date-fns before version 3 raises a RangeError when [start] is after
    [end]; later versions order the two bounds first.  [strict] selects
    the former.  An Invalid Date is within no interval. *)
Definition isWithinInterval (strict : bool) (d : date) (start end_ : Z) : outcome bool :=
  let within lo hi :=
    match d with
    | Some t => (lo <=? t) && (t <=? hi)
    | None => false
    end in
  if strict then
    if start <=? end_ then Ok (within start end_)
    else Throw "RangeError: Invalid interval"
  else Ok (within (Z.min start end_) (Z.max start end_)).

End Clock.

(** ** The runtime the server stands on *)

Class Platform := {
  (** [format(new Date(d), "EEEE")], [None] when [d] is not a date *)
  dayOfWeek : string -> option string;
  (** [format(new Date(d), "yyyy-MM-dd")], [None] when [d] is not a date *)
  dateKey : string -> option string;
  (** [eachDayOfInterval] over [new Date(start)], [new Date(end)], each day
      formatted as ["yyyy-MM-dd"]; [None] when date-fns rejects the range *)
  eachDay : string -> string -> option (list string);
  (** the n-th identifier handed out by [uuidv4()] *)
  uuidv4 : nat -> string;
  (** the n-th appointment number drawn from [Math.random()] *)
  randomNumber : nat -> string;
  (** whether [isWithinInterval] raises on an inverted interval *)
  strictIntervals : bool;
  (** the local midnight that the times of [Clock] are counted from, in
      milliseconds after the epoch *)
  today : Z;
  (** the milliseconds by which [addMinutes(d, amount)] moves a date,
      taken to be the same at every date: [60000 * trunc(amount)] in
      date-fns 2, the whole milliseconds of [amount * 60000] in later
      versions (where the sum leaves the range of dates the result is
      Invalid Date, see [Clock.construct]) *)
  minutes_ms : number -> Z;
  (** every time of the day is a valid date *)
  today_valid : 0 <= today /\ today + 86400000 <= Clock.maxTime;
  (** a whole number of minutes is added as it is *)
  minutes_ms_whole : forall n : Z, minutes_ms (Qc_of_Z n) = 60000 * n;
  (** a larger amount moves the date no less *)
  minutes_ms_mono : forall a b : number, (a <= b)%Qc -> minutes_ms a <= minutes_ms b
}.

(** ** Data model ([types/index.ts]) *)

Module BusinessHours.
Record t := mk { day : string; start : string; end_ : string; isOpen : bool }.
End BusinessHours.

Module TimeSlot.
Record t := mk { id : string; start : string; end_ : string; isAvailable : bool }.
End TimeSlot.

Record OrganizationSettings := {
  businessHours : list BusinessHours.t;
  slotDuration : number;
  breakBetweenSlots : number
}.

(** ** The slot generator *)

Section Generator.
Context `{Platform}.

(** [addMinutes(d, amount)] *)
Definition addMinutes (d : Clock.date) (amount : number) : Clock.date :=
  Clock.addMilliseconds today d (minutes_ms amount).

(** The body of the [while] loop of [generateTimeSlots], [fuel] bounding
    the number of iterations; [None] when the bound is reached.  The
    state is the slots pushed so far and the number of identifiers drawn. *)
Fixpoint gen_loop (fuel : nat) (startTime endTime : Z) (duration break_ : number)
    (currentTime : Clock.date) (slots : list TimeSlot.t) (drawn : nat)
  : option (outcome (list TimeSlot.t * nat)) :=
  match fuel with
  | O => None
  | S fuel' =>
      match Clock.isWithinInterval strictIntervals currentTime startTime endTime with
      | Throw e => Some (Throw e)
      | Ok false => Some (Ok (slots, drawn))
      | Ok true =>
          let slotEnd := addMinutes currentTime duration in
          match Clock.isWithinInterval strictIntervals slotEnd startTime endTime with
          | Throw e => Some (Throw e)
          | Ok true =>
              match Clock.formatDate currentTime, Clock.formatDate slotEnd with
              | Ok start, Ok end_ =>
                  gen_loop fuel' startTime endTime duration break_
                    (addMinutes slotEnd break_)
                    (slots ++ [TimeSlot.mk (uuidv4 drawn) start end_ true])
                    (S drawn)
              | Throw e, _ => Some (Throw e)
              | _, Throw e => Some (Throw e)
              end
          | Ok false =>
              gen_loop fuel' startTime endTime duration break_
                (addMinutes slotEnd break_) slots drawn
          end
      end
  end.

Definition find_day (w : string) (hours : list BusinessHours.t) : option BusinessHours.t :=
  List.find (fun h => String.eqb (BusinessHours.day h) w) hours.

(** [generateTimeSlots(date, orgSettings)] from the identifier position
    [drawn], its loop run for at most [fuel_of startTime endTime duration
    break] iterations.  [None]: the loop has not finished within them. *)
Definition generateTimeSlots_with (fuel_of : Z -> Z -> number -> number -> nat)
    (date : string) (orgSettings : OrganizationSettings) (drawn : nat)
  : option (outcome (list TimeSlot.t * nat)) :=
  match dayOfWeek date with
  | None => Some (Throw "RangeError: Invalid time value")
  | Some w =>
      match find_day w (businessHours orgSettings) with
      | None => Some (Ok ([], drawn))
      | Some daySettings =>
          if negb (BusinessHours.isOpen daySettings) then Some (Ok ([], drawn))
          else
            match Clock.parse (BusinessHours.start daySettings),
                  Clock.parse (BusinessHours.end_ daySettings) with
            | Some startTime, Some endTime =>
                gen_loop
                  (fuel_of startTime endTime (slotDuration orgSettings)
                     (breakBetweenSlots orgSettings))
                  startTime endTime (slotDuration orgSettings)
                  (breakBetweenSlots orgSettings) (Some startTime) [] drawn
            | _, _ =>
                (* an Invalid Date bound: the first interval test raises
                   in the strict library and is false otherwise *)
                if strictIntervals then Some (Throw "RangeError: Invalid interval")
                else Some (Ok ([], drawn))
            end
      end
  end.

Definition generateTimeSlots_fuel (fuel : nat) :=
  generateTimeSlots_with (fun _ _ _ _ => fuel).

(** Iterations after which the loop has left the interval, when the
    time advances at all; when an iteration moves the time by nothing,
    two iterations tell whether the loop is entered and stays. *)
Definition loop_bound (startTime endTime : Z) (duration break_ : number) : nat :=
  let step := minutes_ms duration + minutes_ms break_ in
  if step =? 0 then 2%nat
  else (Z.to_nat (Z.abs (endTime - startTime) / Z.abs step) + 2)%nat.

(** [generateTimeSlots]: [None] exactly when the loop never ends
    (see [generateTimeSlots_fuel_agrees] and [generateTimeSlots_diverges]). *)
Definition generateTimeSlots := generateTimeSlots_with loop_bound.

End Generator.

Arguments addMinutes {H} d amount : simpl never.

(** ** A reference platform

    UTC, dates written ["yyyy-MM-dd"], date-fns 3 (no interval is
    rejected: an inverted range of days is walked backwards, a range with
    a bound that is no date is empty; minutes are added as whole
    milliseconds), the clock read on 2024-01-15, identifiers numbered in
    the order they are drawn. *)

Module Reference.

Fixpoint digits (fuel : nat) (n : Z) (acc : string) : string :=
  match fuel with
  | O => acc
  | S fuel' =>
      let acc' := String (Clock.digit_char (n mod 10)) acc in
      if n / 10 =? 0 then acc' else digits fuel' (n / 10) acc'
  end.

Definition decimal (n : Z) : string := digits 20 n "".

Fixpoint zeros (n : nat) : string :=
  match n with O => "" | S n' => String "0" (zeros n') end.

Definition pad (width : nat) (s : string) : string :=
  (zeros (width - String.length s) ++ s)%string.

Fixpoint number (s : string) (acc : Z) : option Z :=
  match s with
  | EmptyString => Some acc
  | String c r =>
      match Clock.digit_of c with
      | Some d => number r (10 * acc + d)
      | None => None
      end
  end.

(** Days since 1970-01-01 of a civil date, and back. *)
Definition days_from_civil (y m d : Z) : Z :=
  let y' := if m <=? 2 then y - 1 else y in
  let era := y' / 400 in
  let yoe := y' - era * 400 in
  let mp := (m + 9) mod 12 in
  let doy := (153 * mp + 2) / 5 + d - 1 in
  let doe := yoe * 365 + yoe / 4 - yoe / 100 + doy in
  era * 146097 + doe - 719468.

Definition civil_from_days (z : Z) : Z * Z * Z :=
  let z' := z + 719468 in
  let era := z' / 146097 in
  let doe := z' - era * 146097 in
  let yoe := (doe - doe / 1460 + doe / 36524 - doe / 146096) / 365 in
  let doy := doe - (365 * yoe + yoe / 4 - yoe / 100) in
  let mp := (5 * doy + 2) / 153 in
  let d := doy - (153 * mp + 2) / 5 + 1 in
  let m := if mp <? 10 then mp + 3 else mp - 9 in
  let y := yoe + era * 400 in
  (if m <=? 2 then y + 1 else y, m, d).

(** ["yyyy-MM-dd"] to a day number; other spellings are not dates here. *)
Definition parse_day (s : string) : option Z :=
  if negb (String.length s =? 10)%nat then None
  else
    match number (substring 0 4 s) 0, number (substring 5 2 s) 0,
          number (substring 8 2 s) 0 with
    | Some y, Some m, Some d =>
        if String.eqb (substring 4 1 s) "-" && String.eqb (substring 7 1 s) "-"
           && (1 <=? m) && (m <=? 12) && (1 <=? d)
           && bool_decide (civil_from_days (days_from_civil y m d) = (y, m, d))
        then Some (days_from_civil y m d) else None
    | _, _, _ => None
    end.

Definition format_day (z : Z) : string :=
  let '(y, m, d) := civil_from_days z in
  (pad 4 (decimal y) ++ "-" ++ pad 2 (decimal m) ++ "-" ++ pad 2 (decimal d))%string.

Definition weekday_name (z : Z) : string :=
  match (z + 4) mod 7 with
  | 0 => "Sunday" | 1 => "Monday" | 2 => "Tuesday" | 3 => "Wednesday"
  | 4 => "Thursday" | 5 => "Friday" | _ => "Saturday"
  end.

Definition days_between (a b : Z) : list Z :=
  map (fun k => a + Z.of_nat k) (seq 0 (Z.to_nat (b - a + 1))).

Definition uuid (n : nat) : string :=
  ("00000000-0000-4000-8000-" ++ pad 12 (decimal (Z.of_nat n)))%string.

(** Midnight of 2024-01-15, in milliseconds after the epoch. *)
Definition midnight : Z := 1705276800000.

(** [new Date(+d + amount * 60000)] keeps the whole milliseconds. *)
Definition whole_ms (amount : Qc) : Z := (Qnum amount * 60000) / Zpos (Qden amount).

Definition midnight_valid : 0 <= midnight /\ midnight + 86400000 <= Clock.maxTime.
Proof. unfold midnight, Clock.maxTime. lia. Qed.

Definition whole_ms_whole (n : Z) : whole_ms (Qc_of_Z n) = 60000 * n.
Proof. unfold whole_ms. simpl. rewrite Z.div_1_r. lia. Qed.

Definition whole_ms_mono (a b : Qc) : (a <= b)%Qc -> whole_ms a <= whole_ms b.
Proof.
  unfold Qcle, Qle, whole_ms. intros Hle.
  rewrite <- (Z.div_mul_cancel_r (Qnum a * 60000) (Zpos (Qden a)) (Zpos (Qden b))) by lia.
  rewrite <- (Z.div_mul_cancel_r (Qnum b * 60000) (Zpos (Qden b)) (Zpos (Qden a))) by lia.
  rewrite (Z.mul_comm (Zpos (Qden b)) (Zpos (Qden a))).
  apply Z.div_le_mono; nia.
Qed.

#[export] Instance platform : Platform := {
  dayOfWeek d := weekday_name <$> parse_day d;
  dateKey d := format_day <$> parse_day d;
  eachDay a b :=
    match parse_day a, parse_day b with
    | Some x, Some y =>
        if x <=? y then Some (map format_day (days_between x y))
        else Some (rev (map format_day (days_between y x)))
    | _, _ => Some []
    end;
  uuidv4 := uuid;
  randomNumber n := decimal (100000 + Z.of_nat n);
  strictIntervals := false;
  today := midnight;
  minutes_ms := whole_ms;
  today_valid := midnight_valid;
  minutes_ms_whole := whole_ms_whole;
  minutes_ms_mono := whole_ms_mono
}.

End Reference.

(** ** Appointments and the server's stores *)

Module Interval.
Record t := mk { start : string; end_ : string }.
End Interval.

Inductive AppointmentStatus := pending | confirmed | cancelled.

#[export] Instance AppointmentStatus_eq_dec : EqDecision AppointmentStatus.
Proof. solve_decision. Defined.

(** An appointment; [individualName] and [createdAt] are left out, no
    handler reads them. *)
Module Appointment.
Record t := mk {
  id : string;
  organizationId : string;
  organizationName : string;
  individualId : string;
  date : string;               (* the text the [Date] is built from *)
  timeSlot : Interval.t;
  status : AppointmentStatus;
  notes : option string;
  number : string
}.
Definition with_status (s : AppointmentStatus) (a : t) : t :=
  mk (id a) (organizationId a) (organizationName a) (individualId a)
     (date a) (timeSlot a) s (notes a) (number a).
End Appointment.

Module BookedEntry.
Record t := mk {
  organizationId : string;
  appointmentId : string;
  timeSlots : list Interval.t
}.
Definition with_timeSlots (l : list Interval.t) (e : t) : t :=
  mk (organizationId e) (appointmentId e) l.
End BookedEntry.

(** The in-memory storage of [organizations.ts] and [appointments.ts],
    with the positions reached in the identifier and random sources.
    Each map holds the own properties of one of the plain objects the
    modules keep; a lookup finds own properties only.  The objects
    themselves also answer to the names of [Object.prototype]
    ([inherited]): the properties that read a key taken from a request
    (a user id, the date of a path) say so where their truth rests on the
    key being no such name. *)
Record Store := mkStore {
  settings : gmap string OrganizationSettings;
  timeSlots : gmap string (gmap string (list TimeSlot.t));
  lockedDays : gmap string (list string);
  appointments : list Appointment.t;
  bookedSlots : gmap string BookedEntry.t;
  drawn : nat;
  rolled : nat
}.

Definition empty_store : Store := mkStore ∅ ∅ ∅ [] ∅ 0 0.

Definition set_settings (f : gmap string OrganizationSettings -> gmap string OrganizationSettings)
    (st : Store) : Store :=
  mkStore (f (settings st)) (timeSlots st) (lockedDays st) (appointments st)
          (bookedSlots st) (drawn st) (rolled st).
Definition set_timeSlots
    (f : gmap string (gmap string (list TimeSlot.t)) -> gmap string (gmap string (list TimeSlot.t)))
    (st : Store) : Store :=
  mkStore (settings st) (f (timeSlots st)) (lockedDays st) (appointments st)
          (bookedSlots st) (drawn st) (rolled st).
Definition set_lockedDays (f : gmap string (list string) -> gmap string (list string))
    (st : Store) : Store :=
  mkStore (settings st) (timeSlots st) (f (lockedDays st)) (appointments st)
          (bookedSlots st) (drawn st) (rolled st).
Definition set_appointments (f : list Appointment.t -> list Appointment.t) (st : Store) : Store :=
  mkStore (settings st) (timeSlots st) (lockedDays st) (f (appointments st))
          (bookedSlots st) (drawn st) (rolled st).
Definition set_bookedSlots (f : gmap string BookedEntry.t -> gmap string BookedEntry.t)
    (st : Store) : Store :=
  mkStore (settings st) (timeSlots st) (lockedDays st) (appointments st)
          (f (bookedSlots st)) (drawn st) (rolled st).
Definition set_drawn (n : nat) (st : Store) : Store :=
  mkStore (settings st) (timeSlots st) (lockedDays st) (appointments st)
          (bookedSlots st) n (rolled st).
Definition set_rolled (n : nat) (st : Store) : Store :=
  mkStore (settings st) (timeSlots st) (lockedDays st) (appointments st)
          (bookedSlots st) (drawn st) n.

(** ** Handler code: state, exceptions, divergence *)

(** A handler body runs on the store; it returns or throws, leaving the
    store as it was at that point, or never ends ([None]). *)
Definition M (A : Type) : Type := Store -> option (outcome A * Store).

#[export] Instance M_ret : MRet M := fun A a st => Some (Ok a, st).
#[export] Instance M_bind : MBind M := fun A B f m st =>
  match m st with
  | None => None
  | Some (Throw e, st') => Some (Throw e, st')
  | Some (Ok a, st') => f a st'
  end.

Definition throw {A} (e : string) : M A := fun st => Some (Throw e, st).
Definition get_store : M Store := fun st => Some (Ok st, st).
Definition modify (f : Store -> Store) : M unit := fun st => Some (Ok tt, f st).

(** ** Requests and responses *)

(** The decoded token of a request, when it carries one. *)
Record User := { user_id : string; user_role : string }.

Record AppointmentData := {
  body_organizationId : string;
  body_date : string;
  body_timeSlot : Interval.t;
  body_notes : option string
}.

(** The requests that write to the stores.  The routes that only read
    (the lists, filters and statistics of appointments, one appointment,
    analytics, the list of organizations, the profile) are left out. *)
Inductive Request :=
| GetSettings
| PutSettings (body : OrganizationSettings)
| GetSlotStatus (start end_ : option string)
| GetSlots (date : string)
| PutSlots (date : string) (body : option (list TimeSlot.t))
| PutLockedDay (date : string) (isLocked : bool)
| PostAppointment (body : AppointmentData)
| PatchAppointmentStatus (id : string) (status : AppointmentStatus)
| PostCancel (id : string)
| PostRegister (known : bool).

Record DayStatus := {
  isLocked : bool;
  availableSlots : nat;
  totalSlots : nat
}.

Inductive Body :=
| Message (message : string)
| Errors (message : string)                  (* a message with zod's error list *)
| SettingsBody (s : OrganizationSettings)
| StatusesBody (statuses : gmap string DayStatus)
| SlotsBody (slots : list TimeSlot.t) (locked : bool)
| DaySlotsBody (date : string) (slots : list TimeSlot.t) (locked : bool)
| LockedBody (date : string) (locked : bool)
| AppointmentBody (a : Appointment.t)
| Registered.

Record Response := { code : Z; body : Body }.

Definition respond (c : Z) (b : Body) : M Response := mret {| code := c; body := b |}.

(** [try { ... } catch (error) { res.status(500).json({ message }) }] *)
Definition handler (failure : string) (m : M Response) (st : Store)
  : option (Response * Store) :=
  match m st with
  | None => None
  | Some (Ok r, st') => Some (r, st')
  | Some (Throw _, st') => Some ({| code := 500; body := Message failure |}, st')
  end.

(** [req.user?.id], falsy when the token is absent or the id is empty *)
Definition user_of (u : option User) : option string :=
  match u with
  | Some x => if String.eqb (user_id x) "" then None else Some (user_id x)
  | None => None
  end.

Definition user_with_role (role : string) (u : option User) : option string :=
  match u with
  | Some x =>
      if String.eqb (user_id x) "" || negb (String.eqb (user_role x) role)
      then None else Some (user_id x)
  | None => None
  end.

(** ** [server/routes/organizations.ts] *)

Definition default_settings : OrganizationSettings := {|
  businessHours :=
    [ BusinessHours.mk "Monday" "09:00" "17:00" true;
      BusinessHours.mk "Tuesday" "09:00" "17:00" true;
      BusinessHours.mk "Wednesday" "09:00" "17:00" true;
      BusinessHours.mk "Thursday" "09:00" "17:00" true;
      BusinessHours.mk "Friday" "09:00" "17:00" true;
      BusinessHours.mk "Saturday" "09:00" "13:00" false;
      BusinessHours.mk "Sunday" "09:00" "13:00" false ];
  slotDuration := Qc_of_Z 30;
  breakBetweenSlots := Qc_of_Z 0
|}.

Definition initializeOrganizationSettings (organizationId : string) : M unit :=
  modify (fun st =>
    set_timeSlots (insert organizationId ∅)
      (set_lockedDays (insert organizationId [])
         (set_settings (insert organizationId default_settings) st))).

(** [bookedSlotsForDate.timeSlots.some(b => b.start === slot.start &&
    b.end === slot.end)] *)
Definition isBooked (booked : list Interval.t) (slot : TimeSlot.t) : bool :=
  existsb (fun b => String.eqb (Interval.start b) (TimeSlot.start slot)
                    && String.eqb (Interval.end_ b) (TimeSlot.end_ slot)) booked.

(** The slot after the availability test: [isAvailable] becomes [false]
    when booked and is kept otherwise.  The status route writes this into
    the cached slot, the day route into a copy. *)
Definition markBooked (booked : list Interval.t) (slot : TimeSlot.t) : TimeSlot.t :=
  if isBooked booked slot
  then TimeSlot.mk (TimeSlot.id slot) (TimeSlot.start slot) (TimeSlot.end_ slot) false
  else slot.

Definition includes (l : list string) (x : string) : bool := bool_decide (x ∈ l).

Definition validSettings (b : OrganizationSettings) : bool :=
  number_leb (Qc_of_Z 15) (slotDuration b) && number_leb (slotDuration b) (Qc_of_Z 120)
  && number_leb (Qc_of_Z 0) (breakBetweenSlots b)
  && number_leb (breakBetweenSlots b) (Qc_of_Z 60).

(** [{ isLocked: lockedDays[orgId].includes(dateStr), availableSlots:
    daySlots.filter(slot => slot.isAvailable).length, totalSlots:
    daySlots.length }] *)
Definition dayStatus (locked : list string) (dateStr : string) (daySlots : list TimeSlot.t)
  : DayStatus :=
  {| isLocked := includes locked dateStr;
     availableSlots := length (List.filter TimeSlot.isAvailable daySlots);
     totalSlots := length daySlots |}.

(** [timeSlots[orgId]?.[date]]: the cached slots of an organization for a
    date, if any. *)
Definition cached (st : Store) (orgId date : string) : option (list TimeSlot.t) :=
  timeSlots st !! orgId ≫= (fun cache => cache !! date).

Section Organizations.
Context `{Platform}.

(** A call of [generateTimeSlots] inside a handler: identifiers are
    drawn from the store's position. *)
Definition generate (date : string) (orgSettings : option OrganizationSettings)
  : M (list TimeSlot.t) :=
  fun st =>
    match orgSettings with
    | None =>
        match dayOfWeek date with
        | None => Some (Throw "RangeError: Invalid time value", st)
        | Some _ => Some (Throw "TypeError: orgSettings is undefined", st)
        end
    | Some orgSettings =>
        match generateTimeSlots date orgSettings (drawn st) with
        | None => None
        | Some (Throw e) => Some (Throw e, st)
        | Some (Ok (slots, n)) => Some (Ok slots, set_drawn n st)
        end
    end.

(** GET /settings *)
Definition getSettings (u : option User) : Store -> option (Response * Store) :=
  handler "Failed to fetch settings"
    match user_of u with
    | None => respond 401 (Message "Unauthorized")
    | Some orgId =>
        st ← get_store;
        match settings st !! orgId with
        | Some s => respond 200 (SettingsBody s)
        | None =>
            initializeOrganizationSettings orgId;;
            respond 200 (SettingsBody default_settings)
        end
    end.

(** PUT /settings *)
Definition putSettings (u : option User) (data : OrganizationSettings)
  : Store -> option (Response * Store) :=
  handler "Failed to update settings"
    match user_of u with
    | None => respond 401 (Message "Unauthorized")
    | Some orgId =>
        if negb (validSettings data) then respond 400 (Errors "Invalid data")
        else
          st ← get_store;
          (if bool_decide (settings st !! orgId = None)
           then initializeOrganizationSettings orgId else mret tt);;
          modify (set_settings (insert orgId data));;
          (* clear cached time slots to regenerate them with new settings *)
          modify (set_timeSlots (insert orgId ∅));;
          respond 200 (SettingsBody data)
    end.

(** One round of [days.forEach] in GET /slots/status, first half: the
    day's slots are taken from the cache, generated and cached when
    absent, and each cached slot that is booked is set unavailable. *)
Definition reconcileDay (orgId dateStr : string) : M (list TimeSlot.t) :=
  st ← get_store;
  match timeSlots st !! orgId with
  | None => throw "TypeError: timeSlots[orgId] is undefined"
  | Some cache =>
      daySlots ←
        match cache !! dateStr with
        | Some cached => mret cached
        | None =>
            slots ← generate dateStr (settings st !! orgId);
            modify (set_timeSlots (insert orgId (<[dateStr := slots]> cache)));;
            mret slots
        end;
      match bookedSlots st !! dateStr with
      | Some bookedSlotsForDate =>
          let marked := map (markBooked (BookedEntry.timeSlots bookedSlotsForDate)) daySlots in
          modify (set_timeSlots (insert orgId (<[dateStr := marked]> cache)));;
          mret marked
      | None => mret daySlots
      end
  end.

(** Second half: the day's entry of the answer. *)
Definition statusOfDay (orgId dateStr : string) : M DayStatus :=
  daySlots ← reconcileDay orgId dateStr;
  st ← get_store;
  match lockedDays st !! orgId with
  | None => throw "TypeError: lockedDays[orgId] is undefined"
  | Some locked => mret (dayStatus locked dateStr daySlots)
  end.

Fixpoint forEachDay (orgId : string) (days : list string) (statuses : gmap string DayStatus)
  : M (gmap string DayStatus) :=
  match days with
  | [] => mret statuses
  | dateStr :: rest =>
      s ← statusOfDay orgId dateStr;
      forEachDay orgId rest (<[dateStr := s]> statuses)
  end.

(** The opening of GET /slots/status: settings are initialized when
    absent, then the organization's cache is created when absent. *)
Definition ensureStores (orgId : string) : M unit :=
  st ← get_store;
  (if bool_decide (settings st !! orgId = None)
   then initializeOrganizationSettings orgId else mret tt);;
  st ← get_store;
  (if bool_decide (timeSlots st !! orgId = None)
   then modify (set_timeSlots (insert orgId ∅)) else mret tt).

Definition present (q : option string) : option string :=
  match q with
  | Some s => if String.eqb s "" then None else Some s
  | None => None
  end.

(** GET /slots/status?start=..&end=.. *)
Definition getSlotStatus (u : option User) (start end_ : option string)
  : Store -> option (Response * Store) :=
  handler "Failed to fetch slot statuses"
    match user_of u with
    | None => respond 401 (Message "Unauthorized")
    | Some orgId =>
        match present start, present end_ with
        | Some start, Some end_ =>
            ensureStores orgId;;
            match eachDay start end_ with
            | None => throw "RangeError: Invalid interval"
            | Some days =>
                statuses ← forEachDay orgId days ∅;
                respond 200 (StatusesBody statuses)
            end
        | _, _ => respond 400 (Message "Invalid date range")
        end
    end.

(** GET /slots/:date *)
Definition getSlots (u : option User) (date : string)
  : Store -> option (Response * Store) :=
  handler "Failed to fetch time slots"
    match user_of u with
    | None => respond 401 (Message "Unauthorized")
    | Some orgId =>
        st ← get_store;
        slots ←
          match cached st orgId date with
          | Some cachedSlots => mret cachedSlots
          | None => generate date (settings st !! orgId)
          end;
        let slots' :=
          match bookedSlots st !! date with
          | Some bookedSlotsForDate =>
              map (markBooked (BookedEntry.timeSlots bookedSlotsForDate)) slots
          | None => slots
          end in
        match lockedDays st !! orgId with
        | None => throw "TypeError: lockedDays[orgId] is undefined"
        | Some locked => respond 200 (SlotsBody slots' (includes locked date))
        end
    end.

(** PUT /slots/:date; [None] is a body the slot schema rejects. *)
Definition putSlots (u : option User) (date : string) (updatedSlots : option (list TimeSlot.t))
  : Store -> option (Response * Store) :=
  handler "Failed to update time slots"
    match user_of u with
    | None => respond 401 (Message "Unauthorized")
    | Some orgId =>
        match updatedSlots with
        | None => respond 400 (Errors "Invalid data")
        | Some validatedSlots =>
            st ← get_store;
            match timeSlots st !! orgId with
            | None => throw "TypeError: timeSlots[orgId] is undefined"
            | Some cache =>
                modify (set_timeSlots (insert orgId (<[date := validatedSlots]> cache)));;
                match lockedDays st !! orgId with
                | None => throw "TypeError: lockedDays[orgId] is undefined"
                | Some locked =>
                    respond 200 (DaySlotsBody date validatedSlots (includes locked date))
                end
            end
        end
    end.

(** PUT /locked-days/:date *)
Definition putLockedDay (u : option User) (date : string) (locked : bool)
  : Store -> option (Response * Store) :=
  handler "Failed to update locked status"
    match user_of u with
    | None => respond 401 (Message "Unauthorized")
    | Some orgId =>
        st ← get_store;
        match lockedDays st !! orgId with
        | None => throw "TypeError: lockedDays[orgId] is undefined"
        | Some days =>
            (if locked then
               if includes days date then mret tt
               else modify (set_lockedDays (insert orgId (days ++ [date])))
             else
               modify (set_lockedDays
                         (insert orgId (filter (fun d => d ≠ date) days))));;
            respond 200 (LockedBody date locked)
        end
    end.

End Organizations.

(** ** [server/routes/appointments.ts] *)

Definition char_between (lo hi : nat) (c : ascii) : bool :=
  ((lo <=? nat_of_ascii c) && (nat_of_ascii c <=? hi))%nat.

(** The pattern [^([0-1]?[0-9]|2[0-3]):[0-5][0-9]$] of the time fields. *)
Definition timePattern (s : string) : bool :=
  match s with
  | String h (String ":" (String m1 (String m2 EmptyString))) =>
      char_between 48 57 h && char_between 48 53 m1 && char_between 48 57 m2
  | String h1 (String h2 (String ":" (String m1 (String m2 EmptyString)))) =>
      ((char_between 48 49 h1 && char_between 48 57 h2)
       || (char_between 50 50 h1 && char_between 48 51 h2))
      && char_between 48 53 m1 && char_between 48 57 m2
  | _ => false
  end.

(** [existing.start === wanted.start && existing.end === wanted.end] *)
Definition sameInterval (wanted existing : Interval.t) : bool :=
  String.eqb (Interval.start existing) (Interval.start wanted)
  && String.eqb (Interval.end_ existing) (Interval.end_ wanted).

Section Appointments.
Context `{Platform}.

(** [createAppointmentSchema] *)
Definition validAppointment (b : AppointmentData) : bool :=
  (1 <=? String.length (body_organizationId b))%nat
  && bool_decide (is_Some (dateKey (body_date b)))
  && timePattern (Interval.start (body_timeSlot b))
  && timePattern (Interval.end_ (body_timeSlot b))
  && match body_notes b with
     | Some n => (String.length n <=? 500)%nat
     | None => true
     end.

(** POST / *)
Definition postAppointment (u : option User) (data : AppointmentData)
  : Store -> option (Response * Store) :=
  handler "Failed to create appointment"
    match user_with_role "individual" u with
    | None => respond 401 (Message "Unauthorized")
    | Some userId =>
        if negb (validAppointment data) then respond 400 (Errors "Invalid data")
        else
          match dateKey (body_date data) with
          | None => throw "RangeError: Invalid time value"
          | Some dateStr =>
              st ← get_store;
              let existingBooking :=
                bookedSlots st !! dateStr ≫= (fun entry =>
                  List.find (sameInterval (body_timeSlot data)) (BookedEntry.timeSlots entry)) in
              match existingBooking with
              | Some _ => respond 400 (Message "This time slot is already booked")
              | None =>
                  let appointmentNumber := randomNumber (rolled st) in
                  let appointment :=
                    Appointment.mk (uuidv4 (drawn st)) (body_organizationId data)
                      "Organization Name" userId (body_date data) (body_timeSlot data)
                      pending (body_notes data) appointmentNumber in
                  modify (set_rolled (S (rolled st)));;
                  modify (set_drawn (S (drawn st)));;
                  modify (set_appointments (fun l => l ++ [appointment]));;
                  (if bool_decide (bookedSlots st !! dateStr = None)
                   then modify (set_bookedSlots (insert dateStr
                          (BookedEntry.mk (Appointment.organizationId appointment)
                             (Appointment.id appointment) [])))
                   else mret tt);;
                  modify (set_bookedSlots (alter (fun entry =>
                    BookedEntry.with_timeSlots
                      (BookedEntry.timeSlots entry
                         ++ [Interval.mk (Interval.start (Appointment.timeSlot appointment))
                                         (Interval.end_ (Appointment.timeSlot appointment))])
                      entry) dateStr));;
                  respond 201 (AppointmentBody appointment)
              end
          end
    end.

(** The removal both cancellation paths run once the status is set:
    every booked slot of the day that starts when the appointment does is
    dropped, and the day's entry with the last of them. *)
Definition removeBookedSlot (appointment : Appointment.t) : M unit :=
  match dateKey (Appointment.date appointment) with
  | None => throw "RangeError: Invalid time value"
  | Some dateStr =>
      st ← get_store;
      match bookedSlots st !! dateStr with
      | None => mret tt
      | Some entry =>
          let kept :=
            List.filter (fun slot =>
                negb (String.eqb (Interval.start slot)
                        (Interval.start (Appointment.timeSlot appointment))))
              (BookedEntry.timeSlots entry) in
          if (length kept =? 0)%nat
          then modify (set_bookedSlots (delete dateStr))
          else modify (set_bookedSlots (insert dateStr (BookedEntry.with_timeSlots kept entry)))
      end
  end.

(** PATCH /:id/status; [pending] stands for a body outside the schema. *)
Definition patchAppointmentStatus (u : option User) (id : string) (status : AppointmentStatus)
  : Store -> option (Response * Store) :=
  handler "Failed to update appointment status"
    match user_with_role "organization" u with
    | None => respond 401 (Message "Unauthorized")
    | Some userId =>
        if bool_decide (status = pending) then respond 400 (Errors "Invalid status")
        else
          st ← get_store;
          match list_find (fun apt => Appointment.id apt = id
                                      ∧ Appointment.organizationId apt = userId)
                          (appointments st) with
          | None => respond 404 (Message "Appointment not found")
          | Some (i, found) =>
              let appointment := Appointment.with_status status found in
              modify (set_appointments (fun l => <[i := appointment]> l));;
              (if bool_decide (status = cancelled)
               then removeBookedSlot appointment else mret tt);;
              respond 200 (AppointmentBody appointment)
          end
    end.

(** POST /:id/cancel *)
Definition postCancel (u : option User) (id : string)
  : Store -> option (Response * Store) :=
  handler "Failed to cancel appointment"
    match user_with_role "individual" u with
    | None => respond 401 (Message "Unauthorized")
    | Some userId =>
        st ← get_store;
        match list_find (fun apt => Appointment.id apt = id
                                    ∧ Appointment.individualId apt = userId)
                        (appointments st) with
        | None => respond 404 (Message "Appointment not found")
        | Some (i, found) =>
            if bool_decide (Appointment.status found = cancelled)
            then respond 400 (Message "Appointment is already cancelled")
            else
              let appointment := Appointment.with_status cancelled found in
              modify (set_appointments (fun l => <[i := appointment]> l));;
              removeBookedSlot appointment;;
              respond 200 (AppointmentBody appointment)
        end
    end.

(** POST /api/auth/register, as far as these stores go: unless the e-mail
    is [known] to the list of users, which is kept apart, the new user's
    identifier is drawn from [uuidv4]. *)
Definition postRegister (known : bool) : Store -> option (Response * Store) :=
  handler "Server error"
    (if known then respond 400 (Message "User already exists")
     else
       st ← get_store;
       modify (set_drawn (S (drawn st)));;
       respond 201 Registered).

(** The server: one request, served to completion. *)
Definition serve (u : option User) (r : Request) : Store -> option (Response * Store) :=
  match r with
  | GetSettings => getSettings u
  | PutSettings data => putSettings u data
  | GetSlotStatus start end_ => getSlotStatus u start end_
  | GetSlots date => getSlots u date
  | PutSlots date updatedSlots => putSlots u date updatedSlots
  | PutLockedDay date locked => putLockedDay u date locked
  | PostAppointment data => postAppointment u data
  | PatchAppointmentStatus id status => patchAppointmentStatus u id status
  | PostCancel id => postCancel u id
  | PostRegister known => postRegister known
  end.

(** A sequence of requests served one after the other. *)
Fixpoint run (rs : list (option User * Request)) (st : Store) : option Store :=
  match rs with
  | [] => Some st
  | (u, r) :: rest =>
      match serve u r st with
      | None => None
      | Some (_, st') => run rest st'
      end
  end.

End Appointments.

(** ** The routes of [appointments.ts] that only read *)

(** GET /, GET /stats, GET /filter and GET /:id write to no store: each
    is a function of the user and the store.  What such a route answers:
    a refusal with its status and message, or, with status 200, a list of
    appointments, the four counts, or one appointment. *)
Inductive Reading :=
| Refused (code : Z) (message : string)
| Invalid (message : string)                 (* 400 with zod's error list *)
| Listed (l : list Appointment.t)
| Counted (total confirmed cancelled pending : nat)
| Shown (a : Appointment.t).

(** [req.user.role === "organization" ? apt.organizationId === req.user.id
    : apt.individualId === req.user.id] *)
Definition ownedBy (x : User) (apt : Appointment.t) : bool :=
  if String.eqb (user_role x) "organization"
  then String.eqb (Appointment.organizationId apt) (user_id x)
  else String.eqb (Appointment.individualId apt) (user_id x).

(** [apt.status === s] *)
Definition hasStatus (s : AppointmentStatus) (apt : Appointment.t) : bool :=
  bool_decide (Appointment.status apt = s).

(** GET / *)
Definition getAppointments (u : option User) (st : Store) : Reading :=
  match user_of u, u with
  | Some _, Some x => Listed (List.filter (ownedBy x) (appointments st))
  | _, _ => Refused 401 "Unauthorized"
  end.

(** GET /stats *)
Definition getStats (u : option User) (st : Store) : Reading :=
  match user_with_role "organization" u with
  | None => Refused 401 "Unauthorized"
  | Some userId =>
      let orgAppointments :=
        List.filter (fun apt => String.eqb (Appointment.organizationId apt) userId)
          (appointments st) in
      Counted (length orgAppointments)
        (length (List.filter (hasStatus confirmed) orgAppointments))
        (length (List.filter (hasStatus cancelled) orgAppointments))
        (length (List.filter (hasStatus pending) orgAppointments))
  end.

(** The [status] of [filterSchema]: one of the three statuses, or "all". *)
Definition statusFilter (s : string) : option (option AppointmentStatus) :=
  if String.eqb s "pending" then Some (Some pending)
  else if String.eqb s "confirmed" then Some (Some confirmed)
  else if String.eqb s "cancelled" then Some (Some cancelled)
  else if String.eqb s "all" then Some None
  else None.

Section Readings.
Context `{Platform}.

(** [filtered.filter(apt => format(apt.date, "yyyy-MM-dd") === date)],
    raising when a date cannot be formatted. *)
Fixpoint onDate (date : string) (l : list Appointment.t) : outcome (list Appointment.t) :=
  match l with
  | [] => Ok []
  | apt :: rest =>
      match dateKey (Appointment.date apt) with
      | None => Throw "RangeError: Invalid time value"
      | Some key =>
          match onDate date rest with
          | Throw e => Throw e
          | Ok kept => Ok (if String.eqb key date then apt :: kept else kept)
          end
      end
  end.

(** GET /filter?status=..&date=.. *)
Definition getFilter (u : option User) (status date : option string) (st : Store)
  : Reading :=
  match user_of u, u with
  | Some _, Some x =>
      match match status with
            | Some s => statusFilter s
            | None => Some None
            end with
      | None => Invalid "Invalid parameters"
      | Some wanted =>
          if match date with
             | Some val => negb (String.eqb val "") && negb (bool_decide (is_Some (dateKey val)))
             | None => false
             end
          then Invalid "Invalid parameters"
          else
            let filtered := List.filter (ownedBy x) (appointments st) in
            let filtered :=
              match wanted with
              | Some s => List.filter (hasStatus s) filtered
              | None => filtered
              end in
            match present date with
            | Some val =>
                match onDate val filtered with
                | Ok kept => Listed kept
                | Throw _ => Refused 500 "Failed to filter appointments"
                end
            | None => Listed filtered
            end
      end
  | _, _ => Refused 401 "Unauthorized"
  end.

End Readings.

(** GET /:id *)
Definition getAppointment (u : option User) (id : string) (st : Store) : Reading :=
  match user_of u, u with
  | Some _, Some x =>
      match List.find (fun apt => String.eqb (Appointment.id apt) id && ownedBy x apt)
              (appointments st) with
      | Some a => Shown a
      | None => Refused 404 "Appointment not found"
      end
  | _, _ => Refused 401 "Unauthorized"
  end.

(** ** What the specification says of the generator *)

(** "Starting at the open time, repeatedly emit a slot of length
    [slotDuration], then advance by [slotDuration + breakBetweenSlots],
    stopping once the next slot would exceed closing time": the slots
    emitted from time [t] on, as pairs of start and end times. *)
Inductive Emits (duration break_ closing : Z) : Z -> list (Z * Z) -> Prop :=
| Emits_stop t :
    closing < t + duration -> Emits duration break_ closing t []
| Emits_slot t rest :
    t + duration <= closing ->
    Emits duration break_ closing (t + duration + break_) rest ->
    Emits duration break_ closing t ((t, t + duration) :: rest).

(** What a client sees of a slot besides its identifier. *)
Definition slot_view (s : TimeSlot.t) : string * string * bool :=
  (TimeSlot.start s, TimeSlot.end_ s, TimeSlot.isAvailable s).

Definition slot_times (s : TimeSlot.t) : string * string :=
  (TimeSlot.start s, TimeSlot.end_ s).

(** Each slot starts when the one before it ends. *)
Fixpoint contiguous (l : list TimeSlot.t) : bool :=
  match l with
  | a :: (b :: _) as rest => String.eqb (TimeSlot.start b) (TimeSlot.end_ a) && contiguous rest
  | _ => true
  end.

Section GeneratorSpec.
Context `{Platform}.

(** The slot records for a list of time pairs, identifiers taken in
    order from position [u]. *)
Fixpoint emitted_slots (u : nat) (times : list (Z * Z)) : list TimeSlot.t :=
  match times with
  | [] => []
  | (a, b) :: rest =>
      TimeSlot.mk (uuidv4 u) (Clock.format a) (Clock.format b) true
        :: emitted_slots (S u) rest
  end.

(** The outcome of a call with identifiers and their position left out. *)
Definition observe (u : nat) (r : option (outcome (list TimeSlot.t * nat)))
  : option (outcome (list (string * string * bool) * nat)) :=
  match r with
  | None => None
  | Some (Throw e) => Some (Throw e)
  | Some (Ok (slots, n)) => Some (Ok (map slot_view slots, (n - u)%nat))
  end.

End GeneratorSpec.

(** ** Stores, caches and traces: notions the claims are stated with *)

(** [later] is the slot [earlier] with, at most, its availability
    withdrawn. *)
Definition slot_le (earlier later : TimeSlot.t) : Prop :=
  TimeSlot.id later = TimeSlot.id earlier
  /\ TimeSlot.start later = TimeSlot.start earlier
  /\ TimeSlot.end_ later = TimeSlot.end_ earlier
  /\ (TimeSlot.isAvailable later = true -> TimeSlot.isAvailable earlier = true).

(** The cache entry of [(orgId, date)] is kept, slot by slot, with
    availability only ever withdrawn. *)
Definition cache_le (orgId date : string) (st st' : Store) : Prop :=
  forall l, cached st orgId date = Some l ->
            exists l', cached st' orgId date = Some l' /\ Forall2 slot_le l l'.

(** The three per-organization stores come into being together: locked
    days and cached slots exist only where settings do. *)
Definition wf_store (st : Store) : Prop :=
  forall o, is_Some (lockedDays st !! o) \/ is_Some (timeSlots st !! o) ->
            is_Some (settings st !! o).

(** Every stored setting passes the settings schema. *)
Definition valid_store (st : Store) : Prop :=
  forall o s, settings st !! o = Some s -> validSettings s = true.

(** The request unlocks [date] for [orgId]. *)
Definition unlocks (orgId date : string) (ur : option User * Request) : bool :=
  match ur with
  | (u, PutLockedDay d false) =>
      bool_decide (user_of u = Some orgId) && String.eqb d date
  | _ => false
  end.

(** The request replaces the cache entry of [(orgId, date)]: PUT /settings
    by [orgId], or PUT /slots/[date] by [orgId]. *)
Definition replaces (orgId date : string) (ur : option User * Request) : bool :=
  match ur with
  | (u, PutSettings _) => bool_decide (user_of u = Some orgId)
  | (u, PutSlots d _) => bool_decide (user_of u = Some orgId) && String.eqb d date
  | _ => false
  end.

(** The availability a day read shows once [booking] is in the index. *)
Definition after_booking (booking : Interval.t) (slot : TimeSlot.t) : string * string * bool :=
  (TimeSlot.start slot, TimeSlot.end_ slot,
   if String.eqb (Interval.start booking) (TimeSlot.start slot)
      && String.eqb (Interval.end_ booking) (TimeSlot.end_ slot)
   then false else TimeSlot.isAvailable slot).

(** The intervals the booked-slots index holds for a day. *)
Definition booked_on (st : Store) (dateStr : string) : list Interval.t :=
  match bookedSlots st !! dateStr with
  | Some entry => BookedEntry.timeSlots entry
  | None => []
  end.


Section DayNotions.
Context `{Platform}.


(** The slots a day read starts from, before bookings are marked: the
    cache entry of the day or, without one, what the generator returns
    for the organization's settings from the store's identifier
    position. *)
Definition day_slots (st : Store) (orgId date : string) (base : list TimeSlot.t) : Prop :=
  match cached st orgId date with
  | Some cachedSlots => base = cachedSlots
  | None =>
      exists orgSettings n,
        settings st !! orgId = Some orgSettings
        /\ generateTimeSlots date orgSettings (drawn st) = Some (Ok (base, n))
  end.

End DayNotions.

(** What a day's round of GET /slots/status leaves of the store: the
    stores of other organizations, settings, locked days, bookings and
    appointments as they were, the organization's cache kept up to
    withdrawn availability. *)
Definition status_frame (orgId : string) (st st' : Store) : Prop :=
  settings st' = settings st /\ lockedDays st' = lockedDays st
  /\ bookedSlots st' = bookedSlots st /\ appointments st' = appointments st
  /\ rolled st' = rolled st
  /\ (forall o, o <> orgId -> timeSlots st' !! o = timeSlots st !! o)
  /\ (is_Some (timeSlots st !! orgId) -> is_Some (timeSlots st' !! orgId))
  /\ (forall date, cache_le orgId date st st').

(** The three per-organization stores are as they were. *)
Definition org_stores_same (st st' : Store) : Prop :=
  settings st' = settings st /\ timeSlots st' = timeSlots st
  /\ lockedDays st' = lockedDays st.

(** What one request keeps of a well-formed store. *)
Definition step_ok (ur : option User * Request) (st st' : Store) : Prop :=
  wf_store st'
  /\ (forall o date, replaces o date ur = false -> cache_le o date st st')
  /\ (forall o date l,
        lockedDays st !! o = Some l -> date ∈ l -> unlocks o date ur = false ->
        exists l', lockedDays st' !! o = Some l' /\ date ∈ l').





(** The sixteen half hours from 09:00 to 17:00. *)
Definition office_hours : list (string * string) :=
  [ ("09:00", "09:30"); ("09:30", "10:00"); ("10:00", "10:30"); ("10:30", "11:00");
    ("11:00", "11:30"); ("11:30", "12:00"); ("12:00", "12:30"); ("12:30", "13:00");
    ("13:00", "13:30"); ("13:30", "14:00"); ("14:00", "14:30"); ("14:30", "15:00");
    ("15:00", "15:30"); ("15:30", "16:00"); ("16:00", "16:30"); ("16:30", "17:00") ].

(** ** A sample organization, client and booking *)

Definition monday : BusinessHours.t := BusinessHours.mk "Monday" "09:00" "17:00" true.
Definition sunday : BusinessHours.t := BusinessHours.mk "Sunday" "09:00" "13:00" false.

Definition org1 : option User := Some {| user_id := "org1"; user_role := "organization" |}.
Definition ind1 : option User := Some {| user_id := "ind1"; user_role := "individual" |}.

(** Monday 2024-01-15, 09:00 to 09:30, with [org1]. *)
Definition first_slot : AppointmentData := {|
  body_organizationId := "org1";
  body_date := "2024-01-15";
  body_timeSlot := Interval.mk "09:00" "09:30";
  body_notes := None
|}.

Definition first_appointment : Appointment.t :=
  Appointment.mk (Reference.uuid 0) "org1" "Organization Name" "ind1" "2024-01-15"
    (Interval.mk "09:00" "09:30") pending None "100000".

(** The store once [org1] has asked for its settings. *)
Definition settled_store : Store :=
  mkStore {[ "org1" := default_settings ]} {[ "org1" := ∅ ]} {[ "org1" := [] ]} [] ∅ 0 0.

(** The store once [ind1] has booked [first_slot] on top of that. *)
Definition booked_store : Store :=
  mkStore {[ "org1" := default_settings ]} {[ "org1" := ∅ ]} {[ "org1" := [] ]}
    [first_appointment]
    {[ "2024-01-15" := BookedEntry.mk "org1" (Reference.uuid 0) [Interval.mk "09:00" "09:30"] ]}
    1 1.

(** The store once [org1] has locked Monday 2024-01-15, and once [ind1]
    has booked on top of that. *)
Definition locked_store : Store :=
  mkStore {[ "org1" := default_settings ]} {[ "org1" := ∅ ]}
    {[ "org1" := ["2024-01-15"] ]} [] ∅ 0 0.

Definition locked_booked_store : Store :=
  mkStore {[ "org1" := default_settings ]} {[ "org1" := ∅ ]}
    {[ "org1" := ["2024-01-15"] ]}
    [first_appointment]
    {[ "2024-01-15" := BookedEntry.mk "org1" (Reference.uuid 0) [Interval.mk "09:00" "09:30"] ]}
    1 1.

Definition shorter_slots : OrganizationSettings := {|
  businessHours := businessHours default_settings;
  slotDuration := Qc_of_Z 15;
  breakBetweenSlots := Qc_of_Z 5
|}.

(** Slots of twenty-two minutes and a half, which the settings schema
    admits. *)
Definition half_minute_slots : OrganizationSettings := {|
  businessHours := businessHours default_settings;
  slotDuration := Q2Qc (45 # 2);
  breakBetweenSlots := Qc_of_Z 0
|}.

(** The minutes from a slot's start to its end, as they are written. *)
Definition slot_minutes (s : TimeSlot.t) : option Z :=
  match Clock.parse (TimeSlot.start s), Clock.parse (TimeSlot.end_ s) with
  | Some a, Some b => Some ((b - a) / 60000)
  | _, _ => None
  end.

(** [org1] opens, [ind1] books the first slot of Monday, [org1] reads the
    status of that Monday, [ind1] cancels. *)
Definition book_read_cancel : list (option User * Request) :=
  [ (org1, GetSettings);
    (ind1, PostAppointment first_slot);
    (org1, GetSlotStatus (Some "2024-01-15") (Some "2024-01-15"));
    (ind1, PostCancel (Reference.uuid 0)) ].

(** The same, the organization cancelling with PATCH /:id/status. *)
Definition book_read_revoke : list (option User * Request) :=
  [ (org1, GetSettings);
    (ind1, PostAppointment first_slot);
    (org1, GetSlotStatus (Some "2024-01-15") (Some "2024-01-15"));
    (org1, PatchAppointmentStatus (Reference.uuid 0) cancelled) ].

(** After [trace] on the reference platform nothing is booked and the one
    appointment is cancelled, yet Monday's first slot is read unavailable
    and counted so. *)
Definition stays_unavailable (trace : list (option User * Request)) : Prop :=
  exists st slots st' statuses st'',
    run (H := Reference.platform) trace empty_store = Some st
    /\ bookedSlots st = ∅
    /\ map Appointment.status (appointments st) = [cancelled]
    /\ getSlots (H := Reference.platform) org1 "2024-01-15" st
       = Some ({| code := 200; body := SlotsBody slots false |}, st')
    /\ map slot_view (take 2 slots)
       = [ ("09:00", "09:30", false); ("09:30", "10:00", true) ]
    /\ getSlotStatus (H := Reference.platform) org1 (Some "2024-01-15") (Some "2024-01-15") st
       = Some ({| code := 200; body := StatusesBody statuses |}, st'')
    /\ statuses !! "2024-01-15"
       = Some {| isLocked := false; availableSlots := 15; totalSlots := 16 |}.

(** ** Notions the further properties are stated with *)

(** The number of slots of length [duration], [break_] apart, that end
    by [endTime] when the first starts at [startTime]. *)
Definition slot_count (startTime endTime duration break_ : Z) : nat :=
  if startTime + duration <=? endTime
  then S (Z.to_nat ((endTime - startTime - duration) / (duration + break_)))
  else O.

(** Start and end of the [k]-th of them. *)
Definition nth_times (startTime duration break_ : Z) (k : nat) : Z * Z :=
  (startTime + Z.of_nat k * (duration + break_),
   startTime + Z.of_nat k * (duration + break_) + duration).

(** The [n]-th minute of the day, written and read back. *)
Definition reads_back (n : nat) : bool :=
  match Clock.parse (Clock.format (60000 * Z.of_nat n)) with
  | Some t => t =? 60000 * Z.of_nat n
  | None => false
  end.

(** The request comes from no user whose id is an inherited name. *)
Definition plain_user (u : option User) : bool :=
  match user_of u with
  | Some id => negb (inherited id)
  | None => true
  end.

(** Settings never come without the organization's two other stores. *)
Definition complete_store (st : Store) : Prop :=
  forall o, is_Some (settings st !! o) ->
            is_Some (lockedDays st !! o) /\ is_Some (timeSlots st !! o).

(** No day is listed twice among an organization's locked days. *)
Definition tidy_locks (st : Store) : Prop :=
  forall o l, lockedDays st !! o = Some l -> NoDup l.

(** The stores of [appointments.ts] and the two positions are as they
    were. *)
Definition bookings_same (st st' : Store) : Prop :=
  appointments st' = appointments st /\ bookedSlots st' = bookedSlots st
  /\ rolled st' = rolled st /\ (drawn st <= drawn st')%nat.

(** The index once the booked slots of [a] are removed from the day
    [dateStr], as both cancellation paths do. *)
Definition unbooked (a : Appointment.t) (dateStr : string)
    (index index' : gmap string BookedEntry.t) : Prop :=
  (forall d, d <> dateStr -> index' !! d = index !! d)
  /\ index' !! dateStr
     = match index !! dateStr with
       | None => None
       | Some entry =>
           let kept :=
             List.filter (fun slot =>
                 negb (String.eqb (Interval.start slot)
                         (Interval.start (Appointment.timeSlot a))))
               (BookedEntry.timeSlots entry) in
           if (length kept =? 0)%nat then None
           else Some (BookedEntry.with_timeSlots kept entry)
       end.

(** Every day of the index holds an interval, and none twice. *)
Definition tidy_index (st : Store) : Prop :=
  forall d entry, bookedSlots st !! d = Some entry ->
    BookedEntry.timeSlots entry <> [] /\ NoDup (BookedEntry.timeSlots entry).

Section AppointmentNotions.
Context `{Platform}.

(** Every appointment is on a day that can be formatted, and every
    interval of the index is that of an appointment of the day that is
    not cancelled. *)
Definition index_backed (st : Store) : Prop :=
  Forall (fun a => is_Some (dateKey (Appointment.date a))) (appointments st)
  /\ forall d entry iv,
       bookedSlots st !! d = Some entry -> iv ∈ BookedEntry.timeSlots entry ->
       exists a, a ∈ appointments st
                 /\ dateKey (Appointment.date a) = Some d
                 /\ Appointment.timeSlot a = iv
                 /\ Appointment.status a <> cancelled.

(** The identifiers of the appointments are draws of [uuidv4] made at
    different positions, all of them past. *)
Definition ids_drawn (st : Store) : Prop :=
  exists ks,
    map Appointment.id (appointments st) = map uuidv4 ks
    /\ NoDup ks /\ Forall (fun k => (k < drawn st)%nat) ks.

(** The store once the appointment [found] at position [i] has been
    given [status], with the answer: cancelling clears the index of it,
    unless its day cannot be formatted. *)
Definition status_changed (i : nat) (found : Appointment.t) (status : AppointmentStatus)
    (failure : string) (st st' : Store) (resp : Response) : Prop :=
  appointments st !! i = Some found
  /\ appointments st' = <[i := Appointment.with_status status found]> (appointments st)
  /\ drawn st' = drawn st /\ rolled st' = rolled st
  /\ if bool_decide (status = cancelled) then
       match dateKey (Appointment.date found) with
       | Some d =>
           unbooked found d (bookedSlots st) (bookedSlots st')
           /\ resp = {| code := 200;
                        body := AppointmentBody (Appointment.with_status status found) |}
       | None =>
           bookedSlots st' = bookedSlots st
           /\ resp = {| code := 500; body := Message failure |}
       end
     else bookedSlots st' = bookedSlots st
          /\ resp = {| code := 200;
                       body := AppointmentBody (Appointment.with_status status found) |}.

(** What the stores of [appointments.ts] keep. *)
Definition bookings_ok (st : Store) : Prop :=
  tidy_index st /\ index_backed st /\ ids_drawn st.

End AppointmentNotions.

(** ** Further samples *)

(** Settings under which the time of the generator stands still. *)
Definition standstill_settings : OrganizationSettings := {|
  businessHours := businessHours default_settings;
  slotDuration := Qc_of_Z 0;
  breakBetweenSlots := Qc_of_Z 0
|}.

(** Monday's first slot, its hours written with one digit. *)
Definition short_hour : Interval.t := Interval.mk "9:00" "9:30".

(** [org1] opens and [ind1] books the first slot of Monday. *)
Definition open_and_book : list (option User * Request) :=
  [ (org1, GetSettings); (ind1, PostAppointment first_slot) ].


(** The first slot of Monday, half an hour longer. *)
Definition first_hour : AppointmentData := {|
  body_organizationId := "org1";
  body_date := "2024-01-15";
  body_timeSlot := Interval.mk "09:00" "10:00";
  body_notes := None
|}.

(** Unfold the handler monad down to matches on the store. *)
Ltac unfold_M :=
  unfold initializeOrganizationSettings, handler, respond, throw, get_store, modify,
    mbind, M_bind, mret, M_ret in *.

(** ** Properties of the generator *)

Section GeneratorFacts.
Context `{Platform}.

Lemma number_leb_le (a b : number) : number_leb a b = true <-> (a <= b)%Qc.
Proof. unfold number_leb, Qcle. apply Qle_bool_iff. Qed.

Lemma isWithinInterval_ordered strict t s e :
  s <= e ->
  Clock.isWithinInterval strict (Some t) s e = Ok ((s <=? t) && (t <=? e)).
Proof.
  intros Hse. unfold Clock.isWithinInterval.
  destruct strict.
  - destruct (Z.leb_spec s e); [reflexivity | lia].
  - rewrite Z.min_l, Z.max_r by lia. reflexivity.
Qed.

Lemma isWithinInterval_inverted t s e :
  e < s ->
  Clock.isWithinInterval false (Some t) s e = Ok ((e <=? t) && (t <=? s)).
Proof.
  intros Hes. unfold Clock.isWithinInterval.
  rewrite Z.min_r, Z.max_l by lia. reflexivity.
Qed.

(** Whether the test raises depends on the bounds alone. *)
Lemma isWithinInterval_throw_bounds strict t t' s e msg :
  Clock.isWithinInterval strict t s e = Throw msg ->
  Clock.isWithinInterval strict t' s e = Throw msg.
Proof.
  unfold Clock.isWithinInterval. destruct strict; [|discriminate].
  destruct (s <=? e); [discriminate | auto].
Qed.

Lemma isWithinInterval_ok_bounds strict t t' s e b :
  Clock.isWithinInterval strict t s e = Ok b ->
  exists b', Clock.isWithinInterval strict t' s e = Ok b'.
Proof.
  unfold Clock.isWithinInterval. destruct strict; [|eauto].
  destruct (s <=? e); [eauto | discriminate].
Qed.

(** A date within an interval is a valid date between its bounds. *)
Lemma isWithinInterval_within strict t s e :
  Clock.isWithinInterval strict t s e = Ok true ->
  exists c, t = Some c /\ Z.min s e <= c <= Z.max s e.
Proof.
  unfold Clock.isWithinInterval. destruct t as [c|].
  - intros Hin. exists c. split; [reflexivity|].
    destruct strict.
    + destruct (Z.leb_spec s e); [|discriminate].
      injection Hin as Hin. apply andb_true_iff in Hin as [H1 H2]. lia.
    + injection Hin as Hin. apply andb_true_iff in Hin as [H1 H2]. lia.
  - destruct strict; [destruct (s <=? e)|]; discriminate.
Qed.

(** An Invalid Date ends the loop. *)
Lemma gen_loop_invalid fuel s e d b slots u :
  is_Some (gen_loop (S fuel) s e d b None slots u).
Proof.
  simpl. unfold Clock.isWithinInterval.
  destruct strictIntervals; [destruct (s <=? e)|]; eauto.
Qed.

Lemma addMinutes_invalid a : addMinutes None a = None.
Proof. reflexivity. Qed.

(** Adding minutes moves a date by [minutes_ms], or leaves the range of
    dates. *)
Lemma addMinutes_cases c a :
  addMinutes (Some c) a = Some (c + minutes_ms a)
  \/ (addMinutes (Some c) a = None
      /\ Clock.maxTime < Z.abs (today + (c + minutes_ms a))).
Proof.
  unfold addMinutes, Clock.addMilliseconds, Clock.construct.
  destruct (Z.leb_spec (Z.abs (today + (c + minutes_ms a))) Clock.maxTime); auto.
Qed.

(** Within the day the clock is read, every time is a date. *)
Lemma addMinutes_day c a :
  0 <= c + minutes_ms a <= 86400000 ->
  addMinutes (Some c) a = Some (c + minutes_ms a).
Proof.
  intros Hday. pose proof today_valid as Hv.
  destruct (addMinutes_cases c a) as [Hok | [_ Hout]]; [assumption | lia].
Qed.

(** The two additions of an iteration. *)
Lemma next_cases c d b :
  addMinutes (addMinutes (Some c) d) b = Some (c + minutes_ms d + minutes_ms b)
  \/ addMinutes (addMinutes (Some c) d) b = None.
Proof.
  destruct (addMinutes_cases c d) as [-> | [-> _]]; [|auto].
  destruct (addMinutes_cases (c + minutes_ms d) b) as [-> | [-> _]]; auto.
Qed.

(** More fuel does not change a result already reached. *)
Lemma gen_loop_mono fuel fuel' s e d b cur slots u r :
  gen_loop fuel s e d b cur slots u = Some r ->
  (fuel <= fuel')%nat ->
  gen_loop fuel' s e d b cur slots u = Some r.
Proof.
  revert fuel' cur slots u.
  induction fuel as [|fuel IH]; intros fuel' cur slots u Hrun Hle; [discriminate|].
  destruct fuel' as [|fuel']; [lia|].
  simpl in *.
  destruct (Clock.isWithinInterval strictIntervals cur s e) as [[|]|]; auto.
  destruct (Clock.isWithinInterval strictIntervals (addMinutes cur d) s e)
    as [[|]|]; auto.
  - destruct (Clock.formatDate cur); auto.
    destruct (Clock.formatDate (addMinutes cur d)); auto.
    apply IH; auto; lia.
  - apply IH; auto; lia.
Qed.

(** When an iteration does not move the time, a loop that goes past its
    second test never ends. *)
Lemma gen_loop_stuck s e d b cur :
  minutes_ms d + minutes_ms b = 0 ->
  forall slots u, gen_loop 2 s e d b (Some cur) slots u = None ->
  forall fuel slots' u', gen_loop fuel s e d b (Some cur) slots' u' = None.
Proof.
  intros Hzero slots u Htwo fuel.
  assert (Hback : addMinutes (addMinutes (Some cur) d) b = Some cur).
  { destruct (next_cases cur d b) as [-> | Hnone]; [f_equal; lia|].
    exfalso. change (gen_loop 2 s e d b (Some cur) slots u)
      with (match Clock.isWithinInterval strictIntervals (Some cur) s e with
            | Throw e0 => Some (Throw e0)
            | Ok false => Some (Ok (slots, u))
            | Ok true =>
                let slotEnd := addMinutes (Some cur) d in
                match Clock.isWithinInterval strictIntervals slotEnd s e with
                | Throw e0 => Some (Throw e0)
                | Ok true =>
                    match Clock.formatDate (Some cur), Clock.formatDate slotEnd with
                    | Ok start, Ok end_ =>
                        gen_loop 1 s e d b (addMinutes slotEnd b)
                          (slots ++ [TimeSlot.mk (uuidv4 u) start end_ true]) (S u)
                    | Throw e0, _ => Some (Throw e0)
                    | _, Throw e0 => Some (Throw e0)
                    end
                | Ok false => gen_loop 1 s e d b (addMinutes slotEnd b) slots u
                end
            end) in Htwo.
    cbv zeta in Htwo. rewrite Hnone in Htwo.
    destruct (Clock.isWithinInterval strictIntervals (Some cur) s e) as [[|]|];
      try discriminate.
    destruct (Clock.isWithinInterval strictIntervals (addMinutes (Some cur) d) s e)
      as [[|]|]; try discriminate.
    - destruct (Clock.formatDate (Some cur)); try discriminate.
      destruct (Clock.formatDate (addMinutes (Some cur) d)); try discriminate.
      match type of Htwo with gen_loop 1 ?a ?b ?c ?dd None ?sl ?uu = None =>
        destruct (gen_loop_invalid 0 a b c dd sl uu) as [? Hs]; congruence end.
    - match type of Htwo with gen_loop 1 ?a ?b ?c ?dd None ?sl ?uu = None =>
        destruct (gen_loop_invalid 0 a b c dd sl uu) as [? Hs]; congruence end. }
  assert (Hin : Clock.isWithinInterval strictIntervals (Some cur) s e = Ok true).
  { simpl in Htwo.
    destruct (Clock.isWithinInterval strictIntervals (Some cur) s e) as [[|]|];
      [reflexivity | discriminate..]. }
  assert (Hend : exists bb, Clock.isWithinInterval strictIntervals
                              (addMinutes (Some cur) d) s e = Ok bb
                 /\ (bb = true -> exists str, Clock.formatDate (addMinutes (Some cur) d) = Ok str)).
  { destruct (Clock.isWithinInterval strictIntervals (addMinutes (Some cur) d) s e)
      as [bb|msg] eqn:Hse.
    - exists bb. split; [reflexivity|]. intros ->.
      apply isWithinInterval_within in Hse as (c & -> & _). simpl. eauto.
    - apply (isWithinInterval_throw_bounds _ _ (Some cur)) in Hse. congruence. }
  destruct Hend as (bb & Hend & Hfmt).
  induction fuel as [|fuel IH]; intros slots' u'; [reflexivity|].
  simpl. rewrite Hin, Hend, Hback.
  destruct bb; [|apply IH].
  destruct (Hfmt eq_refl) as [str ->]. apply IH.
Qed.

(** When the time advances, the loop leaves the interval within
    [loop_bound] iterations. *)
Lemma gen_loop_ends_up fuel s e d b cur slots u :
  0 < minutes_ms d + minutes_ms b ->
  Z.max s e - cur < (minutes_ms d + minutes_ms b) * (Z.of_nat fuel - 1) ->
  (1 <= fuel)%nat ->
  is_Some (gen_loop fuel s e d b (Some cur) slots u).
Proof.
  intros Hpos. revert cur slots u.
  induction fuel as [|fuel IH]; intros cur slots u Hm Hf; [lia|].
  simpl.
  destruct (Clock.isWithinInterval strictIntervals (Some cur) s e) as [[|]|] eqn:Hin; eauto.
  apply isWithinInterval_within in Hin as (c & [= <-] & Hcur).
  assert (Hfuel : (1 <= fuel)%nat) by nia.
  assert (Hnext : forall slots' u',
             is_Some (gen_loop fuel s e d b (addMinutes (addMinutes (Some cur) d) b) slots' u')).
  { intros slots' u'. destruct (next_cases cur d b) as [-> | ->].
    - apply IH; [nia | assumption].
    - destruct fuel; [lia | apply gen_loop_invalid]. }
  destruct (Clock.isWithinInterval strictIntervals (addMinutes (Some cur) d) s e)
    as [[|]|]; eauto.
  destruct (Clock.formatDate (addMinutes (Some cur) d)); eauto.
Qed.

Lemma gen_loop_ends_down fuel s e d b cur slots u :
  minutes_ms d + minutes_ms b < 0 ->
  cur - Z.min s e < (- (minutes_ms d + minutes_ms b)) * (Z.of_nat fuel - 1) ->
  (1 <= fuel)%nat ->
  is_Some (gen_loop fuel s e d b (Some cur) slots u).
Proof.
  intros Hneg. revert cur slots u.
  induction fuel as [|fuel IH]; intros cur slots u Hm Hf; [lia|].
  simpl.
  destruct (Clock.isWithinInterval strictIntervals (Some cur) s e) as [[|]|] eqn:Hin; eauto.
  apply isWithinInterval_within in Hin as (c & [= <-] & Hcur).
  assert (Hfuel : (1 <= fuel)%nat) by nia.
  assert (Hnext : forall slots' u',
             is_Some (gen_loop fuel s e d b (addMinutes (addMinutes (Some cur) d) b) slots' u')).
  { intros slots' u'. destruct (next_cases cur d b) as [-> | ->].
    - apply IH; [nia | assumption].
    - destruct fuel; [lia | apply gen_loop_invalid]. }
  destruct (Clock.isWithinInterval strictIntervals (addMinutes (Some cur) d) s e)
    as [[|]|]; eauto.
  destruct (Clock.formatDate (addMinutes (Some cur) d)); eauto.
Qed.

Lemma loop_bound_covers s e d b :
  minutes_ms d + minutes_ms b <> 0 ->
  Z.abs (e - s)
  < Z.abs (minutes_ms d + minutes_ms b) * (Z.of_nat (loop_bound s e d b) - 1).
Proof.
  intros Hne. unfold loop_bound. cbv zeta.
  destruct (Z.eqb_spec (minutes_ms d + minutes_ms b) 0); [contradiction|].
  set (step := minutes_ms d + minutes_ms b) in *.
  assert (Hq : 0 <= Z.abs (e - s) / Z.abs step)
    by (apply Z.div_pos; lia).
  rewrite Nat2Z.inj_add, Z2Nat.id by assumption.
  pose proof (Z.mod_pos_bound (Z.abs (e - s)) (Z.abs step) ltac:(lia)) as Hr.
  pose proof (Z.div_mod (Z.abs (e - s)) (Z.abs step) ltac:(lia)) as Hdm.
  nia.
Qed.

Lemma gen_loop_bound_ends s e d b slots u :
  minutes_ms d + minutes_ms b <> 0 ->
  is_Some (gen_loop (loop_bound s e d b) s e d b (Some s) slots u).
Proof.
  intros Hne. pose proof (loop_bound_covers s e d b Hne) as Hc.
  assert (Hone : (1 <= loop_bound s e d b)%nat).
  { unfold loop_bound. cbv zeta. destruct (_ =? 0); lia. }
  destruct (Z.lt_total (minutes_ms d + minutes_ms b) 0) as [Hneg | [Hz | Hpos]];
    [| contradiction |].
  - apply gen_loop_ends_down; auto. lia.
  - apply gen_loop_ends_up; auto. lia.
Qed.

(** [generateTimeSlots] is the loop run to its end: any fuel that ends
    the loop gives its result... *)
Lemma generateTimeSlots_fuel_agrees fuel date orgSettings u r :
  generateTimeSlots_fuel fuel date orgSettings u = Some r ->
  generateTimeSlots date orgSettings u = Some r.
Proof.
  unfold generateTimeSlots_fuel, generateTimeSlots, generateTimeSlots_with.
  destruct (dayOfWeek date) as [w|]; auto.
  destruct (find_day _ _) as [h|]; auto.
  destruct (negb _); auto.
  destruct (Clock.parse (BusinessHours.start h)) as [s|]; auto.
  destruct (Clock.parse (BusinessHours.end_ h)) as [e|]; auto.
  intros Hrun.
  set (d := slotDuration orgSettings) in *.
  set (b := breakBetweenSlots orgSettings) in *.
  destruct (Z.eq_dec (minutes_ms d + minutes_ms b) 0) as [Hz|Hnz].
  - destruct (gen_loop (loop_bound s e d b) s e d b (Some s) [] u) eqn:Hb.
    + destruct (Nat.le_ge_cases fuel (loop_bound s e d b)) as [Hle|Hle].
      * rewrite (gen_loop_mono _ _ _ _ _ _ _ _ _ _ Hrun Hle) in Hb. congruence.
      * rewrite (gen_loop_mono _ _ _ _ _ _ _ _ _ _ Hb Hle) in Hrun. congruence.
    + unfold loop_bound in Hb. cbv zeta in Hb.
      rewrite (proj2 (Z.eqb_eq _ _) Hz) in Hb.
      rewrite (gen_loop_stuck _ _ _ _ _ Hz _ _ Hb) in Hrun. discriminate.
  - destruct (gen_loop_bound_ends s e d b [] u Hnz) as [r' Hb].
    rewrite Hb.
    destruct (Nat.le_ge_cases fuel (loop_bound s e d b)) as [Hle|Hle].
    + rewrite (gen_loop_mono _ _ _ _ _ _ _ _ _ _ Hrun Hle) in Hb. congruence.
    + rewrite (gen_loop_mono _ _ _ _ _ _ _ _ _ _ Hb Hle) in Hrun. congruence.
Qed.

(** ... and it has no result only when no fuel ends the loop. *)
Lemma generateTimeSlots_diverges date orgSettings u :
  generateTimeSlots date orgSettings u = None ->
  forall fuel, generateTimeSlots_fuel fuel date orgSettings u = None.
Proof.
  intros Hnone fuel.
  destruct (generateTimeSlots_fuel fuel date orgSettings u) as [r|] eqn:Hrun; auto.
  apply generateTimeSlots_fuel_agrees in Hrun. congruence.
Qed.

Lemma generateTimeSlots_terminates date orgSettings u :
  minutes_ms (slotDuration orgSettings) + minutes_ms (breakBetweenSlots orgSettings) <> 0 ->
  is_Some (generateTimeSlots date orgSettings u).
Proof.
  intros Hnz. unfold generateTimeSlots, generateTimeSlots_with.
  destruct (dayOfWeek date) as [w|]; eauto.
  destruct (find_day _ _) as [h|]; eauto.
  destruct (negb _); eauto.
  destruct (Clock.parse (BusinessHours.start h)) as [s|];
    destruct (Clock.parse (BusinessHours.end_ h)) as [e|];
    try (destruct strictIntervals; solve [eauto]).
  apply gen_loop_bound_ends; auto.
Qed.

End GeneratorFacts.

Section GeneratorClaims.
Context `{Platform}.

(** On an open day whose hours parse, the generator is its loop, started
    at the opening time with no slot pushed. *)
Lemma generateTimeSlots_open date orgSettings u w h s e :
  dayOfWeek date = Some w ->
  find_day w (businessHours orgSettings) = Some h ->
  BusinessHours.isOpen h = true ->
  Clock.parse (BusinessHours.start h) = Some s ->
  Clock.parse (BusinessHours.end_ h) = Some e ->
  generateTimeSlots date orgSettings u
  = gen_loop (loop_bound s e (slotDuration orgSettings) (breakBetweenSlots orgSettings))
      s e (slotDuration orgSettings) (breakBetweenSlots orgSettings) (Some s) [] u.
Proof.
  intros Hw Hfind Hopen Hs He.
  unfold generateTimeSlots, generateTimeSlots_with.
  rewrite Hw, Hfind, Hopen, Hs, He. reflexivity.
Qed.

Lemma digit_of_range c d : Clock.digit_of c = Some d -> 0 <= d <= 9.
Proof.
  unfold Clock.digit_of.
  destruct (_ && _) eqn:E; [|discriminate]. intros [= <-].
  apply andb_true_iff in E as [E1 E2]. lia.
Qed.

Lemma take_number_range s n r : Clock.take_number s = Some (n, r) -> 0 <= n.
Proof.
  unfold Clock.take_number. destruct s as [|c1 r1]; [discriminate|].
  destruct (Clock.digit_of c1) as [d1|] eqn:E1; [|discriminate].
  apply digit_of_range in E1.
  destruct r1 as [|c2 r2]; [intros [= <- <-]; lia|].
  destruct (Clock.digit_of c2) as [d2|] eqn:E2; intros [= <- <-]; [|lia].
  apply digit_of_range in E2. lia.
Qed.

(** A time that is read is a whole minute of the day. *)
Lemma parse_minutes s t :
  Clock.parse s = Some t -> exists m, t = 60000 * m /\ 0 <= m < 1440.
Proof.
  unfold Clock.parse.
  destruct (Clock.take_number s) as [[h r]|] eqn:Eh; [|discriminate].
  destruct r as [|c r]; [discriminate|].
  destruct (Ascii.eqb c ":") eqn:Ec.
  2:{ destruct c as [[] [] [] [] [] [] [] []]; try discriminate. }
  apply Ascii.eqb_eq in Ec. subst c.
  destruct (Clock.take_number r) as [[m rest]|] eqn:Em; [|discriminate].
  destruct (_ && _) eqn:E; [|discriminate]. intros [= <-].
  apply andb_true_iff in E as [E E3]. apply andb_true_iff in E as [E1 E2].
  apply take_number_range in Eh, Em. exists (60 * h + m). split; [reflexivity | lia].
Qed.

Lemma parse_range s t : Clock.parse s = Some t -> 0 <= t < 86400000.
Proof. intros Hp. apply parse_minutes in Hp as (m & -> & Hm). lia. Qed.

Lemma Emits_past_closing d b closing t times :
  closing < t + d -> Emits d b closing t times -> times = [].
Proof. intros Hlt He. inversion He; subst; [reflexivity | lia]. Qed.

(** The relation names one list of slots for each starting time. *)
Lemma Emits_functional d b closing t l1 l2 :
  Emits d b closing t l1 -> Emits d b closing t l2 -> l1 = l2.
Proof.
  intros H1. revert l2.
  induction H1 as [t Hlt | t rest Hle _ IH]; intros l2 H2.
  - symmetry. eapply Emits_past_closing; eauto.
  - inversion H2; subst; [lia|]. f_equal. auto.
Qed.

(** Every emitted slot lasts [d] and ends by closing time. *)
Lemma Emits_lengths d b closing t times :
  Emits d b closing t times ->
  Forall (fun p => snd p = fst p + d /\ snd p <= closing) times.
Proof. induction 1; constructor; simpl; auto. Qed.

(** On an ordered interval an Invalid Date ends the loop as it stands. *)
Lemma gen_loop_invalid_ordered fuel s e d b acc u r :
  s <= e ->
  gen_loop fuel s e d b None acc u = Some r -> r = Ok (acc, u).
Proof.
  intros Hse. destruct fuel as [|fuel]; [discriminate|].
  simpl. unfold Clock.isWithinInterval.
  destruct strictIntervals; [destruct (Z.leb_spec s e); [|lia]|]; congruence.
Qed.

(** The loop on an ordered interval of the day, from a time not before
    the start: the slots are those of [Emits] for the milliseconds the
    two additions move the time by. *)
Lemma gen_loop_emits fuel s e d b :
  0 < minutes_ms d -> 0 <= minutes_ms b -> s <= e -> 0 <= s -> e <= 86400000 ->
  forall cur acc u r,
    s <= cur ->
    gen_loop fuel s e d b (Some cur) acc u = Some r ->
    exists times,
      Emits (minutes_ms d) (minutes_ms b) e cur times
      /\ r = Ok (acc ++ emitted_slots u times, (u + length times)%nat).
Proof.
  intros Hd Hb Hse Hs He. pose proof today_valid as Hday.
  induction fuel as [|fuel IH]; intros cur acc u r Hcur Hrun; [discriminate|].
  simpl in Hrun.
  rewrite isWithinInterval_ordered in Hrun by assumption.
  destruct (Z.leb_spec s cur); [|lia].
  destruct (Z.leb_spec cur e); simpl in Hrun.
  2:{ injection Hrun as <-. exists []. split.
      - constructor. lia.
      - simpl. rewrite app_nil_r, Nat.add_0_r. reflexivity. }
  destruct (addMinutes_cases cur d) as [Hend | [Hend Hout]]; rewrite Hend in Hrun.
  - rewrite isWithinInterval_ordered in Hrun by assumption.
    destruct (Z.leb_spec s (cur + minutes_ms d)); [|lia].
    destruct (Z.leb_spec (cur + minutes_ms d) e); simpl in Hrun.
    + destruct (addMinutes_cases (cur + minutes_ms d) b) as [Hnext | [Hnext Hover]];
        rewrite Hnext in Hrun.
      * apply IH in Hrun as (times & Hem & ->); [|lia].
        exists ((cur, cur + minutes_ms d) :: times). split.
        -- constructor; assumption.
        -- simpl. rewrite <- app_assoc. simpl. f_equal. f_equal. lia.
      * apply gen_loop_invalid_ordered in Hrun; [|assumption]. subst r.
        exists [(cur, cur + minutes_ms d)]. split.
        -- constructor; [assumption|]. constructor. lia.
        -- simpl. f_equal. f_equal. lia.
    + assert (Hstop : r = Ok (acc, u)).
      { destruct (addMinutes_cases (cur + minutes_ms d) b) as [Hnext | [Hnext Hover]];
          rewrite Hnext in Hrun.
        - apply IH in Hrun as (times & Hem & ->); [|lia].
          assert (times = []) as -> by (eapply Emits_past_closing; [|eassumption]; lia).
          simpl. rewrite app_nil_r, Nat.add_0_r. reflexivity.
        - apply gen_loop_invalid_ordered in Hrun; assumption. }
      subst r. exists []. split; [constructor; lia|].
      simpl. rewrite app_nil_r, Nat.add_0_r. reflexivity.
  - assert (Hin : Clock.isWithinInterval strictIntervals None s e = Ok false).
    { unfold Clock.isWithinInterval.
      destruct strictIntervals; [destruct (Z.leb_spec s e); [|lia]|]; reflexivity. }
    rewrite Hin in Hrun. rewrite addMinutes_invalid in Hrun.
    apply gen_loop_invalid_ordered in Hrun; [|assumption]. subst r.
    exists []. split; [constructor; lia|].
    simpl. rewrite app_nil_r, Nat.add_0_r. reflexivity.
Qed.

(** The loop on an inverted interval, where the library accepts one:
    the start is within, no slot end is. *)
Lemma gen_loop_inverted fuel s e d b acc u r :
  0 < minutes_ms d -> 0 <= minutes_ms b -> e < s -> strictIntervals = false ->
  gen_loop fuel s e d b (Some s) acc u = Some r -> r = Ok (acc, u).
Proof.
  intros Hd Hb Hes Hlax Hrun.
  assert (Hnone : Clock.isWithinInterval false None s e = Ok false) by reflexivity.
  assert (Hpast : forall c, s < c -> Clock.isWithinInterval false (Some c) s e = Ok false).
  { intros c Hc. rewrite isWithinInterval_inverted by assumption.
    destruct (Z.leb_spec c s); [lia|]. rewrite andb_false_r. reflexivity. }
  assert (Hend : Clock.isWithinInterval false (addMinutes (Some s) d) s e = Ok false).
  { destruct (addMinutes_cases s d) as [-> | [-> _]]; [apply Hpast; lia | exact Hnone]. }
  assert (Hnext : Clock.isWithinInterval false (addMinutes (addMinutes (Some s) d) b) s e
                  = Ok false).
  { destruct (next_cases s d b) as [-> | ->]; [apply Hpast; lia | exact Hnone]. }
  destruct fuel as [|fuel]; [discriminate|].
  simpl in Hrun. rewrite Hlax in Hrun. rewrite Hend in Hrun.
  rewrite isWithinInterval_inverted in Hrun by assumption.
  destruct (Z.leb_spec e s); [|lia]. destruct (Z.leb_spec s s); [|lia].
  simpl in Hrun.
  destruct fuel as [|fuel]; [discriminate|].
  simpl in Hrun. rewrite Hlax in Hrun. rewrite Hnext in Hrun. congruence.
Qed.

(** The generator on an open day whose hours parse, when the slot
    length moves the time forward and the break does not move it back. *)
Lemma generateTimeSlots_emits date orgSettings u w h s e :
  dayOfWeek date = Some w ->
  find_day w (businessHours orgSettings) = Some h ->
  BusinessHours.isOpen h = true ->
  Clock.parse (BusinessHours.start h) = Some s ->
  Clock.parse (BusinessHours.end_ h) = Some e ->
  0 < minutes_ms (slotDuration orgSettings) ->
  0 <= minutes_ms (breakBetweenSlots orgSettings) ->
  (strictIntervals = true -> s <= e) ->
  exists times,
    Emits (minutes_ms (slotDuration orgSettings))
      (minutes_ms (breakBetweenSlots orgSettings)) e s times
    /\ generateTimeSlots date orgSettings u
       = Some (Ok (emitted_slots u times, (u + length times)%nat)).
Proof.
  intros Hw Hfind Hopen Hs He Hd Hb Hstrict.
  assert (Hnz : minutes_ms (slotDuration orgSettings)
                + minutes_ms (breakBetweenSlots orgSettings) <> 0) by lia.
  destruct (generateTimeSlots_terminates date orgSettings u Hnz) as [r Hr].
  rewrite Hr.
  rewrite (generateTimeSlots_open _ _ _ _ _ _ _ Hw Hfind Hopen Hs He) in Hr.
  pose proof (parse_range _ _ Hs) as Hsr. pose proof (parse_range _ _ He) as Her.
  destruct (Z.le_gt_cases s e) as [Hse|Hes].
  - destruct (gen_loop_emits _ s e _ _ Hd Hb Hse ltac:(lia) ltac:(lia)
                s [] u r (Z.le_refl s) Hr) as (times & Hem & ->).
    exists times. split; [assumption | reflexivity].
  - assert (Hlax : strictIntervals = false)
      by (destruct strictIntervals; [specialize (Hstrict eq_refl); lia | reflexivity]).
    rewrite (gen_loop_inverted _ _ _ _ _ _ _ _ Hd Hb Hes Hlax Hr).
    exists []. split; [constructor; lia|].
    simpl. rewrite Nat.add_0_r. reflexivity.
Qed.

(** C4, as the code has it.  On an open day whose hours parse, with a
    slot length that is a positive whole number of minutes and a break
    that is a whole number of minutes and not negative (and, where the
    interval test raises on inverted bounds, an opening time at or before
    the closing time), [generateTimeSlots] returns the slots the
    specification's procedure emits from the opening time: each
    [slotDuration] minutes long, each start [slotDuration +
    breakBetweenSlots] minutes after the one before, a slot ending at
    closing time included and none ending after it; identifiers are drawn
    in order.  Times are counted in milliseconds. *)
Theorem generateTimeSlots_algorithm date orgSettings u w h s e d b :
  dayOfWeek date = Some w ->
  find_day w (businessHours orgSettings) = Some h ->
  BusinessHours.isOpen h = true ->
  Clock.parse (BusinessHours.start h) = Some s ->
  Clock.parse (BusinessHours.end_ h) = Some e ->
  slotDuration orgSettings = Qc_of_Z d ->
  breakBetweenSlots orgSettings = Qc_of_Z b ->
  0 < d -> 0 <= b ->
  (strictIntervals = true -> s <= e) ->
  exists times,
    Emits (60000 * d) (60000 * b) e s times
    /\ generateTimeSlots date orgSettings u
       = Some (Ok (emitted_slots u times, (u + length times)%nat)).
Proof.
  intros Hw Hfind Hopen Hs He Hdur Hbrk Hd Hb Hstrict.
  rewrite <- (minutes_ms_whole d), <- (minutes_ms_whole b), <- Hdur, <- Hbrk.
  apply (generateTimeSlots_emits _ _ _ _ _ _ _ Hw Hfind Hopen Hs He); auto.
  - rewrite Hdur, minutes_ms_whole. lia.
  - rewrite Hbrk, minutes_ms_whole. lia.
Qed.

(** C5.  When the weekday of the date has no business-hours entry, or
    its entry is closed, the generator returns the empty sequence and
    draws no identifier, whatever the slot length and the break are. *)
Theorem generateTimeSlots_closed date orgSettings u w :
  dayOfWeek date = Some w ->
  match find_day w (businessHours orgSettings) with
  | None => True
  | Some h => BusinessHours.isOpen h = false
  end ->
  generateTimeSlots date orgSettings u = Some (Ok ([], u)).
Proof.
  intros Hw Hclosed.
  unfold generateTimeSlots, generateTimeSlots_with. rewrite Hw.
  destruct (find_day w (businessHours orgSettings)) as [h|]; [|reflexivity].
  rewrite Hclosed. reflexivity.
Qed.

(** C3.  With hours 09:00 to 17:00 on an open day, 30-minute slots and
    no break, the generator returns exactly 16 slots, 09:00-09:30 first
    and 16:30-17:00 last, each starting when the one before ends, all
    available. *)
Theorem generateTimeSlots_office_hours date orgSettings u w h :
  dayOfWeek date = Some w ->
  find_day w (businessHours orgSettings) = Some h ->
  BusinessHours.isOpen h = true ->
  BusinessHours.start h = "09:00" ->
  BusinessHours.end_ h = "17:00" ->
  slotDuration orgSettings = Qc_of_Z 30 ->
  breakBetweenSlots orgSettings = Qc_of_Z 0 ->
  exists slots,
    generateTimeSlots date orgSettings u = Some (Ok (slots, (u + 16)%nat))
    /\ length slots = 16%nat
    /\ map slot_times slots = office_hours
    /\ contiguous slots = true
    /\ Forall (fun slot => TimeSlot.isAvailable slot = true) slots.
Proof.
  intros Hw Hfind Hopen Hs He Hd Hb.
  assert (Hstart : Clock.parse (BusinessHours.start h) = Some 32400000)
    by (rewrite Hs; reflexivity).
  assert (Hend : Clock.parse (BusinessHours.end_ h) = Some 61200000)
    by (rewrite He; reflexivity).
  destruct (generateTimeSlots_emits date orgSettings u w h _ _ Hw Hfind Hopen Hstart Hend)
    as (times & Hem & ->).
  { rewrite Hd, minutes_ms_whole. lia. }
  { rewrite Hb, minutes_ms_whole. lia. }
  { lia. }
  rewrite Hd, Hb, !minutes_ms_whole in Hem.
  assert (Hhalves : Emits (60000 * 30) (60000 * 0) 61200000 32400000
            (map (fun k => (32400000 + 1800000 * k, 32400000 + 1800000 * k + 60000 * 30))
               [0; 1; 2; 3; 4; 5; 6; 7; 8; 9; 10; 11; 12; 13; 14; 15])).
  { simpl map.
    repeat (refine (Emits_slot _ _ 61200000 _ _ _ _); [lia|]). apply Emits_stop. lia. }
  rewrite (Emits_functional _ _ _ _ _ _ Hem Hhalves).
  eexists. split; [reflexivity|].
  repeat split; repeat constructor.
Qed.

End GeneratorClaims.

Section GeneratorDeterminism.
Context `{Platform}.

(** Runs of the loop from two identifier positions agree on everything
    but the identifiers. *)
Lemma gen_loop_observe fuel s e d b :
  forall cur acc1 acc2 u1 u2 base1 base2,
    map slot_view acc1 = map slot_view acc2 ->
    (base1 <= u1)%nat -> (base2 <= u2)%nat ->
    (u1 - base1 = u2 - base2)%nat ->
    observe base1 (gen_loop fuel s e d b cur acc1 u1)
    = observe base2 (gen_loop fuel s e d b cur acc2 u2).
Proof.
  induction fuel as [|fuel IH]; intros cur acc1 acc2 u1 u2 base1 base2 Hacc H1 H2 Hu;
    [reflexivity|].
  simpl.
  destruct (Clock.isWithinInterval strictIntervals cur s e) as [[|]|]; simpl.
  - destruct (Clock.isWithinInterval strictIntervals (addMinutes cur d) s e)
      as [[|]|]; simpl.
    + destruct (Clock.formatDate cur); [|reflexivity].
      destruct (Clock.formatDate (addMinutes cur d)); [|reflexivity].
      apply IH; try lia. rewrite !map_app, Hacc. reflexivity.
    + apply IH; auto.
    + reflexivity.
  - rewrite Hacc, Hu. reflexivity.
  - reflexivity.
Qed.

(** Identifiers of the slots pushed by the loop are the draws made, in
    order. *)
Lemma gen_loop_ids fuel s e d b :
  forall cur acc u base slots n,
    map TimeSlot.id acc = map uuidv4 (seq base (length acc)) ->
    u = (base + length acc)%nat ->
    gen_loop fuel s e d b cur acc u = Some (Ok (slots, n)) ->
    map TimeSlot.id slots = map uuidv4 (seq base (length slots))
    /\ n = (base + length slots)%nat.
Proof.
  induction fuel as [|fuel IH]; intros cur acc u base slots n Hacc Hu Hrun;
    [discriminate|].
  simpl in Hrun.
  destruct (Clock.isWithinInterval strictIntervals cur s e) as [[|]|]; try discriminate.
  - destruct (Clock.isWithinInterval strictIntervals (addMinutes cur d) s e)
      as [[|]|]; try discriminate.
    + destruct (Clock.formatDate cur); [|discriminate].
      destruct (Clock.formatDate (addMinutes cur d)); [|discriminate].
      eapply IH; [| |exact Hrun].
      * rewrite map_app, length_app, seq_app, map_app, Hacc. simpl.
        rewrite Hu. reflexivity.
      * rewrite length_app. simpl. lia.
    + eapply IH; eauto.
  - injection Hrun as <- <-. auto.
Qed.

Lemma generateTimeSlots_observe date orgSettings u1 u2 :
  observe u1 (generateTimeSlots date orgSettings u1)
  = observe u2 (generateTimeSlots date orgSettings u2).
Proof.
  unfold generateTimeSlots, generateTimeSlots_with.
  destruct (dayOfWeek date) as [w|]; [|reflexivity].
  destruct (find_day _ _) as [h|]; [|simpl; rewrite !Nat.sub_diag; reflexivity].
  destruct (negb _); [simpl; rewrite !Nat.sub_diag; reflexivity|].
  destruct (Clock.parse (BusinessHours.start h)) as [s|];
    destruct (Clock.parse (BusinessHours.end_ h)) as [e|];
    try (destruct strictIntervals; simpl; rewrite ?Nat.sub_diag; reflexivity).
  apply gen_loop_observe; auto; lia.
Qed.

(** The identifiers of a call are the draws it makes, in order. *)
Lemma generateTimeSlots_ids date orgSettings u slots n :
  generateTimeSlots date orgSettings u = Some (Ok (slots, n)) ->
  map TimeSlot.id slots = map uuidv4 (seq u (length slots))
  /\ n = (u + length slots)%nat.
Proof.
  unfold generateTimeSlots, generateTimeSlots_with.
  destruct (dayOfWeek date) as [w|]; [|discriminate].
  destruct (find_day _ _) as [h|];
    [|intros [= <- <-]; simpl; split; [reflexivity | lia]].
  destruct (negb _); [intros [= <- <-]; simpl; split; [reflexivity | lia]|].
  destruct (Clock.parse (BusinessHours.start h)) as [s|];
    destruct (Clock.parse (BusinessHours.end_ h)) as [e|];
    try (destruct strictIntervals; intros [= <- <-]; simpl;
         split; [reflexivity | lia]).
  apply gen_loop_ids; simpl; auto.
Qed.

(** A slot of a call carries one of the draws of the call. *)
Lemma generateTimeSlots_id_drawn date orgSettings u slots n a :
  generateTimeSlots date orgSettings u = Some (Ok (slots, n)) ->
  a ∈ slots ->
  exists i, (u <= i < n)%nat /\ TimeSlot.id a = uuidv4 i.
Proof.
  intros Hrun Ha.
  destruct (generateTimeSlots_ids _ _ _ _ _ Hrun) as [Hids ->].
  assert (Hin : TimeSlot.id a ∈ map TimeSlot.id slots)
    by (apply list_elem_of_fmap; eauto).
  rewrite Hids in Hin. apply list_elem_of_fmap in Hin as (i & Heq & Hi).
  apply list_elem_of_In, in_seq in Hi. exists i. split; [lia | assumption].
Qed.

Lemma generate_effect date s st r st' :
  generate date s st = Some (r, st') ->
  st' = set_drawn (drawn st') st.
Proof.
  unfold generate. intros Hg. destruct st. repeat case_match; simplify_eq; reflexivity.
Qed.

(** C8, as the code has it.  Two calls of [generateTimeSlots] with the
    same date and settings end alike (returning, raising or not ending)
    and return sequences of the same length whose slots agree in start,
    end and availability, having drawn the same number of identifiers.
    The identifier of the k-th slot is the k-th draw of [uuidv4] that the
    call makes; so, the draws of the two calls being different strings, no
    slot of one call has the identifier of a slot of the other.  No store
    of the server is read or written: a handler's call changes the
    identifier position only, and its outcome is the same on any two
    stores that agree on that position. *)
Theorem generateTimeSlots_deterministic_up_to_ids date orgSettings u1 u2 :
  observe u1 (generateTimeSlots date orgSettings u1)
  = observe u2 (generateTimeSlots date orgSettings u2)
  /\ (forall slots n,
        generateTimeSlots date orgSettings u1 = Some (Ok (slots, n)) ->
        map TimeSlot.id slots = map uuidv4 (seq u1 (length slots))
        /\ n = (u1 + length slots)%nat)
  /\ (forall slots1 n1 slots2 n2,
        generateTimeSlots date orgSettings u1 = Some (Ok (slots1, n1)) ->
        generateTimeSlots date orgSettings u2 = Some (Ok (slots2, n2)) ->
        (forall i j, (u1 <= i < n1)%nat -> (u2 <= j < n2)%nat -> uuidv4 i <> uuidv4 j) ->
        forall a b, a ∈ slots1 -> b ∈ slots2 -> TimeSlot.id a <> TimeSlot.id b)
  /\ (forall st r st',
        generate date (Some orgSettings) st = Some (r, st') ->
        st' = set_drawn (drawn st') st)
  /\ (forall st1 st2,
        drawn st1 = drawn st2 ->
        fst <$> generate date (Some orgSettings) st1
        = fst <$> generate date (Some orgSettings) st2).
Proof.
  split; [|split; [|split; [|split]]].
  - apply generateTimeSlots_observe.
  - intros slots n. apply generateTimeSlots_ids.
  - intros slots1 n1 slots2 n2 Hrun1 Hrun2 Hfresh a b Ha Hb.
    destruct (generateTimeSlots_id_drawn _ _ _ _ _ _ Hrun1 Ha) as (i & Hi & ->).
    destruct (generateTimeSlots_id_drawn _ _ _ _ _ _ Hrun2 Hb) as (j & Hj & ->).
    apply Hfresh; assumption.
  - intros st r st'. apply generate_effect.
  - intros st1 st2 Hdrawn. unfold generate. rewrite Hdrawn.
    destruct (generateTimeSlots date orgSettings (drawn st2)) as [[[slots n]|msg]|];
      reflexivity.
Qed.

End GeneratorDeterminism.

(** C8 fails as stated: on the reference platform, the call that follows
    a first call for Monday 2024-01-15 under the default settings returns
    sixteen slots again, none with the identifier it had in the first. *)
Lemma generateTimeSlots_second_call_differs :
  exists first second,
    generateTimeSlots (H := Reference.platform) "2024-01-15" default_settings 0
    = Some (Ok (first, 16%nat))
    /\ generateTimeSlots (H := Reference.platform) "2024-01-15" default_settings 16
       = Some (Ok (second, 32%nat))
    /\ first <> second.
Proof.
  eexists. eexists.
  split; [vm_compute; reflexivity|].
  split; [vm_compute; reflexivity|].
  discriminate.
Qed.

(** C4 fails as stated: the settings schema admits a slot length of 22.5
    minutes, and on the reference platform Monday's slots then read
    09:00-09:22, 09:22-09:45, 09:45-10:07: 22, 23 and 22 minutes long,
    none of them 22.5. *)
Lemma generateTimeSlots_half_minutes :
  validSettings half_minute_slots = true
  /\ exists slots n,
       generateTimeSlots (H := Reference.platform) "2024-01-15" half_minute_slots 0
       = Some (Ok (slots, n))
       /\ map slot_times (take 3 slots)
          = [ ("09:00", "09:22"); ("09:22", "09:45"); ("09:45", "10:07") ]
       /\ map slot_minutes (take 3 slots) = [Some 22; Some 23; Some 22].
Proof.
  split; [vm_compute; reflexivity|].
  eexists. eexists.
  split; [vm_compute; reflexivity|].
  split; vm_compute; reflexivity.
Qed.

Lemma generateTimeSlots_algorithm_witness :
  exists times,
    Emits (60000 * 30) (60000 * 0) 61200000 32400000 times
    /\ generateTimeSlots (H := Reference.platform) "2024-01-15" default_settings 0
       = Some (Ok (emitted_slots (H := Reference.platform) 0 times, (0 + length times)%nat)).
Proof.
  apply (generateTimeSlots_algorithm (H := Reference.platform)
           "2024-01-15" default_settings 0%nat "Monday" monday 32400000 61200000 30 0);
    try reflexivity; simpl; lia.
Defined.

Lemma generateTimeSlots_closed_witness :
  generateTimeSlots (H := Reference.platform) "2024-01-14" default_settings 7
  = Some (Ok ([], 7%nat)).
Proof.
  apply (generateTimeSlots_closed (H := Reference.platform)
           "2024-01-14" default_settings 7%nat "Sunday"); reflexivity.
Defined.

Lemma generateTimeSlots_office_hours_witness :
  exists slots,
    generateTimeSlots (H := Reference.platform) "2024-01-15" default_settings 0
    = Some (Ok (slots, (0 + 16)%nat))
    /\ length slots = 16%nat
    /\ map slot_times slots = office_hours
    /\ contiguous slots = true
    /\ Forall (fun slot => TimeSlot.isAvailable slot = true) slots.
Proof.
  apply (generateTimeSlots_office_hours (H := Reference.platform)
           "2024-01-15" default_settings 0%nat "Monday" monday); reflexivity.
Defined.

(** ** Properties of the handlers *)

Lemma find_sameInterval wanted (l : list Interval.t) :
  wanted ∈ l -> is_Some (List.find (sameInterval wanted) l).
Proof.
  intros Hin.
  destruct (List.find (sameInterval wanted) l) eqn:Hfind; [eauto|].
  apply list_elem_of_In in Hin.
  pose proof (find_none _ _ Hfind _ Hin) as Hno.
  unfold sameInterval in Hno. rewrite !String.eqb_refl in Hno. discriminate.
Qed.

Section BookingClaims.
Context `{Platform}.

(** C10.  A booking request from an individual whose body passes the
    schema and whose (start, end) pair is already in the booked-slots
    entry of the requested date is answered 400 "This time slot is already
    booked", whatever organization the entry names, and leaves every store
    as it was. *)
Theorem postAppointment_rejects_duplicate u userId data st dateStr entry :
  user_with_role "individual" u = Some userId ->
  validAppointment data = true ->
  dateKey (body_date data) = Some dateStr ->
  bookedSlots st !! dateStr = Some entry ->
  body_timeSlot data ∈ BookedEntry.timeSlots entry ->
  postAppointment u data st
  = Some ({| code := 400; body := Message "This time slot is already booked" |}, st).
Proof.
  intros Hu Hvalid Hkey Hentry Hin.
  destruct (find_sameInterval _ _ Hin) as [found Hfound].
  unfold postAppointment. rewrite Hu, Hvalid, Hkey. unfold_M. simpl.
  rewrite Hentry. simpl. rewrite Hfound. reflexivity.
Qed.

End BookingClaims.

Section SettingsClaims.
Context `{Platform}.

(** C6.  A PUT /settings whose body passes the schema answers 200 and
    leaves the organization with the new settings and an empty map of
    cached slots, so that no date has cached slots and a day read
    that follows returns slots generated from the new settings; the
    cached slots of every other organization are as before. *)
Theorem putSettings_discards_cache u orgId data st :
  user_of u = Some orgId ->
  validSettings data = true ->
  exists st',
    putSettings u data st = Some ({| code := 200; body := SettingsBody data |}, st')
    /\ settings st' !! orgId = Some data
    /\ timeSlots st' !! orgId = Some ∅
    /\ (forall other, other <> orgId -> timeSlots st' !! other = timeSlots st !! other)
    /\ (forall date slots locked st'',
          getSlots u date st'
          = Some ({| code := 200; body := SlotsBody slots locked |}, st'') ->
          exists generated n,
            generateTimeSlots date data (drawn st') = Some (Ok (generated, n))
            /\ slots = match bookedSlots st' !! date with
                       | Some booked => map (markBooked (BookedEntry.timeSlots booked)) generated
                       | None => generated
                       end).
Proof.
  intros Hu Hvalid.
  unfold putSettings. rewrite Hu, Hvalid. unfold_M. simpl.
  case_bool_decide; simpl; (eexists; split; [reflexivity|]); simpl.
  - rewrite !lookup_insert_eq. repeat split.
    + intros other Hne. rewrite !lookup_insert_ne by congruence. reflexivity.
    + intros date slots locked st'' Hread.
      unfold getSlots, cached in Hread. rewrite Hu in Hread. unfold_M. simpl in Hread.
      rewrite !lookup_insert_eq in Hread. simpl in Hread.
      rewrite lookup_empty in Hread. unfold generate in Hread. simpl in Hread.
      destruct (generateTimeSlots date data (drawn st)) as [[[generated n]|msg]|];
        simpl in Hread; try discriminate.
      injection Hread as <- _ _. eauto.
  - rewrite !lookup_insert_eq. repeat split.
    + intros other Hne. rewrite !lookup_insert_ne by congruence. reflexivity.
    + intros date slots locked st'' Hread.
      unfold getSlots, cached in Hread. rewrite Hu in Hread. unfold_M. simpl in Hread.
      rewrite !lookup_insert_eq in Hread. simpl in Hread.
      rewrite lookup_empty in Hread. unfold generate in Hread. simpl in Hread.
      destruct (generateTimeSlots date data (drawn st)) as [[[generated n]|msg]|];
        simpl in Hread; try discriminate.
      destruct (lockedDays st !! orgId); simpl in Hread; try discriminate.
      injection Hread as <- _ _. eauto.
Qed.

End SettingsClaims.

(** ** Properties of the server *)

Lemma slot_le_refl s : slot_le s s.
Proof. unfold slot_le. auto. Qed.

Lemma slot_le_trans a b c : slot_le a b -> slot_le b c -> slot_le a c.
Proof. unfold slot_le. intros (?&?&?&?) (?&?&?&?). repeat split; try congruence; auto. Qed.

Lemma slots_le_refl l : Forall2 slot_le l l.
Proof. induction l; constructor; auto using slot_le_refl. Qed.

Lemma slots_le_trans l1 l2 l3 :
  Forall2 slot_le l1 l2 -> Forall2 slot_le l2 l3 -> Forall2 slot_le l1 l3.
Proof.
  intros H12. revert l3. induction H12; intros l3 H23; inversion H23; subst; constructor;
    eauto using slot_le_trans.
Qed.

Lemma markBooked_le booked s : slot_le s (markBooked booked s).
Proof.
  unfold markBooked, slot_le. destruct (isBooked booked s); simpl; repeat split; auto.
  discriminate.
Qed.

Lemma map_markBooked_le booked l : Forall2 slot_le l (map (markBooked booked) l).
Proof. induction l; simpl; constructor; auto using markBooked_le. Qed.

Lemma cache_le_refl orgId date st : cache_le orgId date st st.
Proof. intros l Hl. eauto using slots_le_refl. Qed.

Lemma cache_le_trans orgId date st1 st2 st3 :
  cache_le orgId date st1 st2 -> cache_le orgId date st2 st3 -> cache_le orgId date st1 st3.
Proof.
  intros H12 H23 l Hl. destruct (H12 l Hl) as (l2 & Hl2 & Hle2).
  destruct (H23 l2 Hl2) as (l3 & Hl3 & Hle3). eauto using slots_le_trans.
Qed.

Lemma status_frame_refl orgId st : status_frame orgId st st.
Proof. unfold status_frame. repeat split; auto using cache_le_refl. Qed.

Lemma status_frame_trans orgId st1 st2 st3 :
  status_frame orgId st1 st2 -> status_frame orgId st2 st3 -> status_frame orgId st1 st3.
Proof.
  unfold status_frame.
  intros (?&?&?&?&?&Ho1&Hs1&Hc1) (?&?&?&?&?&Ho2&Hs2&Hc2).
  repeat split; try congruence.
  - intros o Hne. rewrite Ho2, Ho1 by assumption. reflexivity.
  - auto.
  - intros date. eapply cache_le_trans; eauto.
Qed.

Lemma bind_inv {A B} (m : M A) (f : A -> M B) st r st' :
  (m ≫= f) st = Some (r, st') ->
  (exists a st1, m st = Some (Ok a, st1) /\ f a st1 = Some (r, st'))
  \/ (exists e, m st = Some (Throw e, st') /\ r = Throw e).
Proof.
  unfold mbind, M_bind. destruct (m st) as [[[a|e] st1]|]; [| |discriminate].
  - intros Hf. left. eauto.
  - intros [= <- <-]. right. eauto.
Qed.

Lemma handler_inv failure m st resp st' :
  handler failure m st = Some (resp, st') ->
  m st = Some (Ok resp, st')
  \/ (exists e, m st = Some (Throw e, st')
               /\ resp = {| code := 500; body := Message failure |}).
Proof.
  unfold handler. destruct (m st) as [[[a|e] st1]|]; [| |discriminate].
  - intros [= <- <-]. left. reflexivity.
  - intros [= <- <-]. right. eauto.
Qed.

Section ServerFacts.
Context `{Platform}.

Lemma reconcileDay_effect orgId d st r st' :
  reconcileDay orgId d st = Some (r, st') ->
  status_frame orgId st st'
  /\ (forall l, r = Ok l -> cached st' orgId d = Some l).
Proof.
  unfold status_frame, reconcileDay. unfold_M. simpl.
  destruct (timeSlots st !! orgId) as [cache|] eqn:Hc.
  2:{ intros [= <- <-]. repeat split; auto using cache_le_refl; [intros [? ?]; discriminate | intros; discriminate]. }
  destruct (cache !! d) as [l0|] eqn:Hd.
  - destruct (bookedSlots st !! d) as [e|] eqn:Hb; intros [= <- <-]; simpl.
    + repeat split; auto.
      * intros o Hne. rewrite lookup_insert_ne by congruence. reflexivity.
      * rewrite lookup_insert_eq. eauto.
      * intros date l Hl. unfold cached in *. simpl. rewrite lookup_insert_eq. simpl.
        rewrite Hc in Hl. simpl in Hl.
        destruct (decide (d = date)) as [->|Hne].
        -- rewrite lookup_insert_eq. rewrite Hd in Hl. injection Hl as <-.
           eauto using map_markBooked_le.
        -- rewrite lookup_insert_ne by congruence. eauto using slots_le_refl.
      * intros l [= <-]. unfold cached. simpl. rewrite !lookup_insert_eq. simpl.
        rewrite lookup_insert_eq. reflexivity.
    + repeat split; auto using cache_le_refl.
      intros l [= <-]. unfold cached. rewrite Hc. simpl. assumption.
  - destruct (generate d (settings st !! orgId) st) as [[[slots|msg] st1]|] eqn:Hg;
      [| intros [= <- <-] | discriminate].
    + pose proof (generate_effect _ _ _ _ _ Hg) as Hst1.
      destruct (bookedSlots st !! d) as [e|] eqn:Hb; intros [= <- <-]; simpl;
        rewrite Hst1; simpl.
      * repeat split; auto.
        -- intros o Hne. rewrite !lookup_insert_ne by congruence. reflexivity.
        -- rewrite lookup_insert_eq. eauto.
        -- intros date l Hl. unfold cached in *. simpl. rewrite lookup_insert_eq. simpl.
           rewrite Hc in Hl. simpl in Hl.
           destruct (decide (d = date)) as [->|Hne]; [congruence|].
           rewrite lookup_insert_ne by congruence. eauto using slots_le_refl.
        -- intros l [= <-]. unfold cached. simpl. rewrite !lookup_insert_eq. simpl.
           rewrite lookup_insert_eq. reflexivity.
      * repeat split; auto.
        -- intros o Hne. rewrite !lookup_insert_ne by congruence. reflexivity.
        -- rewrite lookup_insert_eq. eauto.
        -- intros date l Hl. unfold cached in *. simpl. rewrite lookup_insert_eq. simpl.
           rewrite Hc in Hl. simpl in Hl.
           destruct (decide (d = date)) as [->|Hne]; [congruence|].
           rewrite lookup_insert_ne by congruence. eauto using slots_le_refl.
        -- intros l [= <-]. unfold cached. simpl. rewrite !lookup_insert_eq. simpl.
           rewrite lookup_insert_eq. reflexivity.
    + pose proof (generate_effect _ _ _ _ _ Hg) as Hst1. rewrite Hst1. simpl.
      repeat split; auto.
      * intros date l Hl. unfold cached in *. simpl. eauto using slots_le_refl.
      * intros; discriminate.
Qed.

Lemma statusOfDay_effect orgId d st r st' :
  statusOfDay orgId d st = Some (r, st') ->
  status_frame orgId st st'
  /\ (forall ds, r = Ok ds ->
        exists l locked,
          lockedDays st !! orgId = Some locked
          /\ cached st' orgId d = Some l
          /\ ds = dayStatus locked d l).
Proof.
  unfold statusOfDay. unfold_M. simpl.
  destruct (reconcileDay orgId d st) as [[[l|msg] st1]|] eqn:Hr; [| |discriminate].
  - destruct (reconcileDay_effect _ _ _ _ _ Hr) as (Hframe & Hl).
    pose proof Hframe as (_ & Hlock & _).
    destruct (lockedDays st1 !! orgId) as [locked|] eqn:Hlk; intros [= <- <-].
    + split; [assumption|]. intros ds [= <-]. exists l, locked.
      rewrite <- Hlock. auto.
    + split; [assumption|]. intros; discriminate.
  - intros [= <- <-]. destruct (reconcileDay_effect _ _ _ _ _ Hr) as (Hframe & _).
    split; [assumption|]. intros; discriminate.
Qed.

Lemma forEachDay_effect orgId days :
  forall acc st r st',
    forEachDay orgId days acc st = Some (r, st') ->
    status_frame orgId st st'
    /\ (forall m, r = Ok m ->
          (forall d, d ∉ days -> m !! d = acc !! d)
          /\ (forall d, d ∈ days ->
                exists l locked,
                  lockedDays st !! orgId = Some locked
                  /\ m !! d = Some (dayStatus locked d l)
                  /\ (forall l0, cached st orgId d = Some l0 -> Forall2 slot_le l0 l))).
Proof.
  induction days as [|d0 rest IH]; intros acc st r st' Hrun; simpl in Hrun.
  - unfold_M. injection Hrun as <- <-. split; [apply status_frame_refl|].
    intros m [= <-]. split; [auto|]. intros d Hd. inversion Hd.
  - unfold_M. simpl in Hrun.
    destruct (statusOfDay orgId d0 st) as [[[ds|msg] st1]|] eqn:Hday; [| |discriminate].
    + destruct (statusOfDay_effect _ _ _ _ _ Hday) as (Hf1 & Hds).
      destruct (Hds ds eq_refl) as (l & locked & Hlocked & Hcached & ->).
      destruct (IH _ _ _ _ Hrun) as (Hf2 & Hm).
      split; [eapply status_frame_trans; eauto|].
      intros m ->. destruct (Hm m eq_refl) as (Hout & Hin).
      split.
      * intros d Hd. apply not_elem_of_cons in Hd as [Hne Hd].
        rewrite Hout by assumption.
        rewrite lookup_insert_ne by congruence. reflexivity.
      * intros d Hd.
        destruct (decide (d ∈ rest)) as [Hrest|Hrest].
        -- destruct (Hin d Hrest) as (l' & locked' & Hlocked' & Hmd & Hle).
           pose proof Hf1 as (_ & Hlk & _). rewrite Hlk in Hlocked'.
           exists l', locked'. repeat split; auto.
           intros l0 Hl0.
           pose proof Hf1 as (_ & _ & _ & _ & _ & _ & _ & Hc).
           destruct (Hc d l0 Hl0) as (l1 & Hl1 & Hle1).
           eapply slots_le_trans; eauto.
        -- assert (d = d0) as ->
             by (apply elem_of_cons in Hd as [Hd|Hd]; [assumption | contradiction]).
           exists l, locked. repeat split; auto.
           ++ rewrite Hout by assumption. apply lookup_insert_eq.
           ++ intros l0 Hl0.
              pose proof Hf1 as (_ & _ & _ & _ & _ & _ & _ & Hc).
              destruct (Hc d0 l0 Hl0) as (l1 & Hl1 & Hle1).
              congruence.
    + injection Hrun as <- <-.
      destruct (statusOfDay_effect _ _ _ _ _ Hday) as (Hf1 & _).
      split; [assumption|]. intros; discriminate.
Qed.

Lemma cached_none_le orgId date st st' :
  cached st orgId date = None -> cache_le orgId date st st'.
Proof. intros Hn l Hl. congruence. Qed.

Lemma cache_le_same orgId date st st' :
  cached st' orgId date = cached st orgId date -> cache_le orgId date st st'.
Proof. intros Heq l Hl. rewrite Heq. eauto using slots_le_refl. Qed.

Lemma status_frame_other orgId st st' o date :
  status_frame orgId st st' -> cache_le o date st st'.
Proof.
  intros Hf. destruct (decide (o = orgId)) as [->|Hne].
  - apply Hf.
  - apply cache_le_same. unfold cached.
    destruct Hf as (_ & _ & _ & _ & _ & Ho & _). rewrite Ho by assumption. reflexivity.
Qed.

Lemma status_frame_wf orgId st st' :
  wf_store st -> is_Some (settings st !! orgId) ->
  status_frame orgId st st' -> wf_store st'.
Proof.
  intros Hwf Hset (Hs & Hl & _ & _ & _ & Ho & _) o Hsome.
  rewrite Hs. destruct (decide (o = orgId)) as [->|Hne]; [assumption|].
  apply Hwf. rewrite Hl, Ho in Hsome by assumption. assumption.
Qed.

(** The store once GET /slots/status has made sure the organization has
    settings and a cache. *)
Lemma ensureStores_effect orgId st :
  wf_store st ->
  exists st0,
    ensureStores orgId st = Some (Ok tt, st0)
    /\ wf_store st0 /\ is_Some (settings st0 !! orgId)
    /\ is_Some (timeSlots st0 !! orgId)
    /\ (forall o date, cache_le o date st st0)
    /\ (forall o l, lockedDays st !! o = Some l -> lockedDays st0 !! o = Some l)
    /\ bookedSlots st0 = bookedSlots st /\ appointments st0 = appointments st.
Proof.
  intros Hwf. unfold ensureStores. unfold_M. simpl.
  case_bool_decide as Hset; simpl.
  - assert (Hlock : lockedDays st !! orgId = None).
    { destruct (lockedDays st !! orgId) eqn:E; [|reflexivity].
      destruct (Hwf orgId) as [x Hx]; [left; eauto | congruence]. }
    assert (Hcache : timeSlots st !! orgId = None).
    { destruct (timeSlots st !! orgId) eqn:E; [|reflexivity].
      destruct (Hwf orgId) as [x Hx]; [right; eauto | congruence]. }
    rewrite lookup_insert_eq. rewrite bool_decide_eq_false_2 by discriminate.
    eexists. split; [reflexivity|]. simpl. repeat split.
    + intros o Hsome. simpl in *.
      destruct (decide (o = orgId)) as [->|Hne]; [rewrite lookup_insert_eq; eauto|].
      rewrite !lookup_insert_ne in * by congruence. auto.
    + rewrite lookup_insert_eq. eauto.
    + rewrite lookup_insert_eq. eauto.
    + intros o date. destruct (decide (o = orgId)) as [->|Hne].
      * apply cached_none_le. unfold cached. rewrite Hcache. reflexivity.
      * apply cache_le_same. unfold cached. simpl.
        rewrite lookup_insert_ne by congruence. reflexivity.
    + intros o l Hl. destruct (decide (o = orgId)) as [->|Hne]; [congruence|].
      rewrite lookup_insert_ne by congruence. assumption.
  - assert (Hsome : is_Some (settings st !! orgId))
      by (destruct (settings st !! orgId); [eauto | contradiction]).
    case_bool_decide as Hcache; simpl; (eexists; split; [reflexivity|]);
      simpl; repeat split; auto using cache_le_refl.
    + intros o Ho. simpl in *.
      destruct (decide (o = orgId)) as [->|Hne]; [assumption|].
      rewrite !lookup_insert_ne in * by congruence. auto.
    + rewrite lookup_insert_eq. eauto.
    + intros o date. destruct (decide (o = orgId)) as [->|Hne].
      * apply cached_none_le. unfold cached. rewrite Hcache. reflexivity.
      * apply cache_le_same. unfold cached. simpl.
        rewrite lookup_insert_ne by congruence. reflexivity.
    + destruct (timeSlots st !! orgId); [eauto | contradiction].
Qed.

Lemma getSlotStatus_effect u a b st resp st' :
  wf_store st ->
  getSlotStatus u a b st = Some (resp, st') ->
  wf_store st'
  /\ (forall o date, cache_le o date st st')
  /\ (forall o l, lockedDays st !! o = Some l -> lockedDays st' !! o = Some l)
  /\ bookedSlots st' = bookedSlots st
  /\ appointments st' = appointments st.
Proof.
  intros Hwf Hrun.
  assert (Hsame : st' = st -> wf_store st'
    /\ (forall o date, cache_le o date st st')
    /\ (forall o l, lockedDays st !! o = Some l -> lockedDays st' !! o = Some l)
    /\ bookedSlots st' = bookedSlots st /\ appointments st' = appointments st)
    by (intros ->; auto using cache_le_refl).
  unfold getSlotStatus in Hrun.
  destruct (user_of u) as [orgId|]; [|injection Hrun as _ <-; auto].
  destruct (present a) as [start|]; [|injection Hrun as _ <-; auto].
  destruct (present b) as [end_|]; [|injection Hrun as _ <-; auto].
  clear Hsame.
  destruct (ensureStores_effect orgId st Hwf)
    as (st0 & Hens & Hwf0 & Hset0 & Hts0 & Hc0 & Hl0 & Hb0 & Ha0).
  assert (Hfinish : forall stx, status_frame orgId st0 stx ->
    wf_store stx
    /\ (forall o date, cache_le o date st stx)
    /\ (forall o l, lockedDays st !! o = Some l -> lockedDays stx !! o = Some l)
    /\ bookedSlots stx = bookedSlots st /\ appointments stx = appointments st).
  { intros stx Hf. split; [eapply status_frame_wf; eauto|].
    split; [intros o date; eapply cache_le_trans; [apply Hc0 | eapply status_frame_other; eauto]|].
    destruct Hf as (_ & Hl & Hb & Ha & _).
    split; [intros o l Hol; rewrite Hl; auto|].
    split; congruence. }
  apply handler_inv in Hrun as [Hrun | (e & Hrun & _)];
    apply bind_inv in Hrun as [(x & st1 & Hens' & Hrun) | (e' & Hens' & _)];
    try congruence;
    assert (st1 = st0) as -> by congruence;
    (destruct (eachDay start end_) as [days|];
      [| injection Hrun as _ <-; apply Hfinish, status_frame_refl]);
    apply bind_inv in Hrun as [(m & st2 & Hdays & Hrun) | (e' & Hdays & _)];
    try (injection Hrun as _ <-);
    apply Hfinish; eapply forEachDay_effect; eauto.
Qed.

Lemma removeBookedSlot_same a st r st' :
  removeBookedSlot a st = Some (r, st') -> org_stores_same st st'.
Proof.
  unfold removeBookedSlot, org_stores_same. unfold_M. simpl.
  intros Hrun. repeat case_match; simplify_eq; simpl; auto.
Qed.

Lemma getSlots_same u date st resp st' :
  getSlots u date st = Some (resp, st') -> org_stores_same st st'.
Proof.
  unfold getSlots, org_stores_same, handler. unfold_M. simpl.
  intros Hrun.
  repeat case_match; simplify_eq; simpl; auto;
    match goal with
    | Hg : generate _ _ _ = Some _ |- _ =>
        apply generate_effect in Hg; rewrite Hg; simpl; auto
    end.
Qed.

Lemma postAppointment_same u data st resp st' :
  postAppointment u data st = Some (resp, st') -> org_stores_same st st'.
Proof.
  unfold postAppointment, org_stores_same, handler. unfold_M. simpl.
  intros Hrun. repeat case_match; simplify_eq; simpl; auto.
Qed.

Lemma patchAppointmentStatus_same u id status st resp st' :
  patchAppointmentStatus u id status st = Some (resp, st') -> org_stores_same st st'.
Proof.
  unfold patchAppointmentStatus, handler. unfold_M. simpl.
  intros Hrun. 
  repeat case_match; simplify_eq; simpl; try (split; [|split]; reflexivity);
    match goal with
    | Hg : removeBookedSlot _ _ = Some _ |- _ =>
        apply removeBookedSlot_same in Hg; apply Hg
    end.
Qed.

Lemma postCancel_same u id st resp st' :
  postCancel u id st = Some (resp, st') -> org_stores_same st st'.
Proof.
  unfold postCancel, handler. unfold_M. simpl.
  intros Hrun. 
  repeat case_match; simplify_eq; simpl; try (split; [|split]; reflexivity);
    match goal with
    | Hg : removeBookedSlot _ _ = Some _ |- _ =>
        apply removeBookedSlot_same in Hg; apply Hg
    end.
Qed.

Lemma postRegister_same known st resp st' :
  postRegister known st = Some (resp, st') -> org_stores_same st st'.
Proof.
  unfold postRegister, org_stores_same, handler. unfold_M. simpl.
  destruct known; intros [= <- <-]; auto.
Qed.

Lemma step_ok_same ur st st' :
  wf_store st -> org_stores_same st st' -> step_ok ur st st'.
Proof.
  intros Hwf (Hs & Ht & Hl). repeat split.
  - intros o. rewrite Hs, Ht, Hl. apply Hwf.
  - intros o date _. apply cache_le_same. unfold cached. rewrite Ht. reflexivity.
  - intros o date l Hol Hin _. rewrite Hl. eauto.
Qed.

Lemma step_ok_refl ur st : wf_store st -> step_ok ur st st.
Proof. intros Hwf. apply step_ok_same; [assumption|]. repeat split. Qed.

Lemma wf_absent st o :
  wf_store st -> settings st !! o = None ->
  lockedDays st !! o = None /\ timeSlots st !! o = None.
Proof.
  intros Hwf Hnone. split.
  - destruct (lockedDays st !! o) eqn:E; [|reflexivity].
    destruct (Hwf o) as [x Hx]; [left; eauto | congruence].
  - destruct (timeSlots st !! o) eqn:E; [|reflexivity].
    destruct (Hwf o) as [x Hx]; [right; eauto | congruence].
Qed.

(** [initializeOrganizationSettings] for an organization without
    settings. *)
Lemma step_ok_initialize ur st orgId :
  wf_store st -> settings st !! orgId = None ->
  step_ok ur st
    (set_timeSlots (insert orgId ∅)
       (set_lockedDays (insert orgId [])
          (set_settings (insert orgId default_settings) st))).
Proof.
  intros Hwf Hnone. destruct (wf_absent _ _ Hwf Hnone) as (Hl & Ht).
  repeat split.
  - intros o Hsome. simpl in *.
    destruct (decide (o = orgId)) as [->|Hne]; [rewrite lookup_insert_eq; eauto|].
    rewrite !lookup_insert_ne in * by congruence. auto.
  - intros o date _. destruct (decide (o = orgId)) as [->|Hne].
    + apply cached_none_le. unfold cached. rewrite Ht. reflexivity.
    + apply cache_le_same. unfold cached. simpl.
      rewrite lookup_insert_ne by congruence. reflexivity.
  - intros o date l Hol Hin _. simpl.
    destruct (decide (o = orgId)) as [->|Hne]; [congruence|].
    rewrite lookup_insert_ne by congruence. eauto.
Qed.

Lemma getSettings_step u st resp st' :
  wf_store st -> getSettings u st = Some (resp, st') ->
  step_ok (u, GetSettings) st st'.
Proof.
  intros Hwf. unfold getSettings, handler. unfold_M. simpl.
  intros Hrun. repeat case_match; simplify_eq; auto using step_ok_refl, step_ok_initialize.
Qed.

Lemma putSettings_step u data st resp st' :
  wf_store st -> putSettings u data st = Some (resp, st') ->
  step_ok (u, PutSettings data) st st'.
Proof.
  intros Hwf. unfold putSettings, handler. unfold_M. simpl.
  intros Hrun. repeat case_match; simplify_eq; auto using step_ok_refl.
  - (* settings were absent *)
    match goal with Hn : bool_decide (settings st !! ?o = None) = true |- _ =>
      apply bool_decide_eq_true in Hn;
      destruct (wf_absent _ _ Hwf Hn) as (Hl & Ht); rename o into orgId end.
    repeat split.
    + intros o Hsome. simpl in *.
      destruct (decide (o = orgId)) as [->|Hne]; [rewrite lookup_insert_eq; eauto|].
      rewrite !lookup_insert_ne in * by congruence. auto.
    + intros o date Hrep. simpl in Hrep.
      apply bool_decide_eq_false in Hrep.
      assert (o <> orgId) by congruence.
      apply cache_le_same. unfold cached. simpl.
      rewrite !lookup_insert_ne by congruence. reflexivity.
    + intros o date l Hol Hin _. simpl.
      destruct (decide (o = orgId)) as [->|Hne]; [congruence|].
      rewrite lookup_insert_ne by congruence. eauto.
  - match goal with Hn : user_of u = Some ?o |- _ => rename o into orgId end.
    repeat split.
    + intros o Hsome. simpl in *.
      destruct (decide (o = orgId)) as [->|Hne]; [rewrite lookup_insert_eq; eauto|].
      rewrite !lookup_insert_ne in * by congruence. auto.
    + intros o date Hrep. simpl in Hrep.
      apply bool_decide_eq_false in Hrep.
      assert (o <> orgId) by congruence.
      apply cache_le_same. unfold cached. simpl.
      rewrite !lookup_insert_ne by congruence. reflexivity.
    + intros o date l Hol Hin _. simpl. eauto.
Qed.

Lemma putSlots_step u date body st resp st' :
  wf_store st -> putSlots u date body st = Some (resp, st') ->
  step_ok (u, PutSlots date body) st st'.
Proof.
  intros Hwf. unfold putSlots, handler. unfold_M. simpl.
  intros Hrun. repeat case_match; simplify_eq; auto using step_ok_refl.
  all: match goal with Hn : user_of _ = Some ?o |- _ => rename o into orgId end.
  all: match goal with Ht : timeSlots _ !! _ = Some ?c |- _ => rename c into cache end.
  all: repeat split.
  all: try (intros o d ll Hol Hin _; simpl; solve [eauto]).
  all: try (intros o Hsome; simpl in *;
            destruct (decide (o = orgId)) as [->|Hne];
            [apply Hwf; right; eauto | rewrite !lookup_insert_ne in * by congruence; auto]).
  all: intros o d Hrep; simpl in Hrep;
       apply cache_le_same; unfold cached; simpl;
       destruct (decide (o = orgId)) as [->|Hne];
       [ rewrite lookup_insert_eq; simpl;
         rewrite bool_decide_eq_true_2 in Hrep by assumption; simpl in Hrep;
         apply String.eqb_neq in Hrep;
         rewrite lookup_insert_ne by congruence;
         match goal with Ht : timeSlots _ !! _ = Some _ |- _ => rewrite Ht end;
         reflexivity
       | rewrite lookup_insert_ne by congruence; reflexivity ].
Qed.

Lemma putLockedDay_step u date locked st resp st' :
  wf_store st -> putLockedDay u date locked st = Some (resp, st') ->
  step_ok (u, PutLockedDay date locked) st st'.
Proof.
  intros Hwf. unfold putLockedDay, handler. unfold_M. simpl.
  intros Hrun. repeat case_match; simplify_eq; auto using step_ok_refl.
  all: match goal with Hn : user_of _ = Some ?o |- _ => rename o into orgId end.
  - repeat split.
    + intros o Hsome. simpl in *. apply Hwf.
      destruct (decide (o = orgId)) as [->|Hne]; [left; eauto|].
      rewrite !lookup_insert_ne in * by congruence. auto.
    + intros o d _. apply cache_le_same. reflexivity.
    + intros o d ll Hol Hin _. simpl.
      destruct (decide (o = orgId)) as [->|Hne].
      * rewrite lookup_insert_eq. eexists. split; [reflexivity|].
        apply elem_of_app. left. congruence.
      * rewrite lookup_insert_ne by congruence. eauto.
  - repeat split.
    + intros o Hsome. simpl in *. apply Hwf.
      destruct (decide (o = orgId)) as [->|Hne]; [left; eauto|].
      rewrite !lookup_insert_ne in * by congruence. auto.
    + intros o d _. apply cache_le_same. reflexivity.
    + intros o d ll Hol Hin Hun. simpl in *.
      destruct (decide (o = orgId)) as [->|Hne].
      * rewrite lookup_insert_eq. eexists. split; [reflexivity|].
        rewrite bool_decide_eq_true_2 in Hun by assumption. simpl in Hun.
        apply String.eqb_neq in Hun.
        apply list_elem_of_filter. split; [congruence|]. congruence.
      * rewrite lookup_insert_ne by congruence. eauto.
Qed.

Lemma serve_step u r st resp st' :
  wf_store st -> serve u r st = Some (resp, st') -> step_ok (u, r) st st'.
Proof.
  intros Hwf Hrun. destruct r; simpl in Hrun.
  - eapply getSettings_step; eauto.
  - eapply putSettings_step; eauto.
  - destruct (getSlotStatus_effect _ _ _ _ _ _ Hwf Hrun) as (Hwf' & Hc & Hl & _).
    repeat split; auto. intros o date l Hol Hin _. eauto.
  - apply step_ok_same; [assumption|]. eapply getSlots_same; eauto.
  - eapply putSlots_step; eauto.
  - eapply putLockedDay_step; eauto.
  - apply step_ok_same; [assumption|]. eapply postAppointment_same; eauto.
  - apply step_ok_same; [assumption|]. eapply patchAppointmentStatus_same; eauto.
  - apply step_ok_same; [assumption|]. eapply postCancel_same; eauto.
  - apply step_ok_same; [assumption|]. eapply postRegister_same; eauto.
Qed.

Lemma run_wf rs :
  forall st st', wf_store st -> run rs st = Some st' -> wf_store st'.
Proof.
  induction rs as [|[u r] rest IH]; intros st st' Hwf Hrun; simpl in Hrun.
  - injection Hrun as <-. assumption.
  - destruct (serve u r st) as [[resp st1]|] eqn:Hstep; [|discriminate].
    eapply IH; [|eassumption]. eapply serve_step; eauto.
Qed.

Lemma wf_empty : wf_store empty_store.
Proof. intros o [[x Hx]|[x Hx]]; simpl in Hx; rewrite lookup_empty in Hx; discriminate. Qed.





(** *** Locked days do not enter the slot counts *)






(** *** Every request is answered *)

Lemma validSettings_bounds s :
  validSettings s = true ->
  ((Qc_of_Z 15 <= slotDuration s)%Qc /\ (slotDuration s <= Qc_of_Z 120)%Qc)
  /\ ((Qc_of_Z 0 <= breakBetweenSlots s)%Qc /\ (breakBetweenSlots s <= Qc_of_Z 60)%Qc).
Proof.
  unfold validSettings. intros Hv.
  repeat (apply andb_true_iff in Hv as [Hv ?]).
  rewrite !number_leb_le in *. auto.
Qed.

(** A slot that passes the schema lasts a quarter of an hour at least,
    and its break does not move the time back. *)
Lemma validSettings_ms s :
  validSettings s = true ->
  900000 <= minutes_ms (slotDuration s) /\ 0 <= minutes_ms (breakBetweenSlots s).
Proof.
  intros Hv. apply validSettings_bounds in Hv as [[Hd _] [Hb _]].
  apply minutes_ms_mono in Hd, Hb. rewrite minutes_ms_whole in Hd, Hb. lia.
Qed.

Lemma validSettings_advances s :
  validSettings s = true ->
  minutes_ms (slotDuration s) + minutes_ms (breakBetweenSlots s) <> 0.
Proof. intros Hv. apply validSettings_ms in Hv. lia. Qed.

Lemma valid_empty : valid_store empty_store.
Proof. intros o s Hs. simpl in Hs. rewrite lookup_empty in Hs. discriminate. Qed.

Lemma valid_same st st' :
  settings st' = settings st -> valid_store st -> valid_store st'.
Proof. intros Heq Hv o s. rewrite Heq. apply Hv. Qed.

Lemma generate_total date s st :
  (forall x, s = Some x -> validSettings x = true) ->
  is_Some (generate date s st).
Proof.
  intros Hv. unfold generate. destruct s as [x|].
  - destruct (generateTimeSlots_terminates date x (drawn st)
                (validSettings_advances x (Hv x eq_refl))) as [r ->].
    destruct r as [[slots n]|msg]; eauto.
  - destruct (dayOfWeek date); eauto.
Qed.

Lemma reconcileDay_total o d st :
  valid_store st -> is_Some (reconcileDay o d st).
Proof.
  intros Hv. unfold reconcileDay. unfold_M. simpl.
  destruct (timeSlots st !! o) as [cache|]; [|eauto].
  destruct (cache !! d) as [l|].
  - destruct (bookedSlots st !! d); eauto.
  - destruct (generate_total d (settings st !! o) st) as [[[slots|msg] st1] ->];
      [intros x Hx; eapply Hv; eassumption | |]; simpl; [|eauto].
    destruct (bookedSlots st !! d); eauto.
Qed.

Lemma statusOfDay_total o d st :
  valid_store st -> is_Some (statusOfDay o d st).
Proof.
  intros Hv. unfold statusOfDay. unfold_M. simpl.
  destruct (reconcileDay_total o d st Hv) as [[[l|msg] st1] ->]; [|eauto].
  destruct (lockedDays st1 !! o); eauto.
Qed.

Lemma forEachDay_total o days :
  forall acc st, valid_store st -> is_Some (forEachDay o days acc st).
Proof.
  induction days as [|d rest IH]; intros acc st Hv; simpl.
  - unfold_M. eauto.
  - unfold_M. simpl.
    destruct (statusOfDay_total o d st Hv) as [[[ds|msg] st1] Hday]; rewrite Hday; [|eauto].
    apply IH.
    destruct (statusOfDay_effect _ _ _ _ _ Hday) as ((Hs & _) & _).
    eapply valid_same; eauto.
Qed.

Lemma ensureStores_settings o st :
  exists st0,
    ensureStores o st = Some (Ok tt, st0)
    /\ (settings st0 = settings st
        \/ settings st0 = <[o := default_settings]> (settings st)).
Proof.
  unfold ensureStores. unfold_M. simpl.
  case_bool_decide; simpl.
  - rewrite lookup_insert_eq. rewrite bool_decide_eq_false_2 by discriminate.
    eexists. split; [reflexivity|]. right. reflexivity.
  - case_bool_decide; eexists; (split; [reflexivity|]); left; reflexivity.
Qed.

Lemma valid_ensured o st st0 :
  valid_store st ->
  settings st0 = settings st \/ settings st0 = <[o := default_settings]> (settings st) ->
  valid_store st0.
Proof.
  intros Hv [Heq|Heq] o' s'; rewrite Heq.
  - apply Hv.
  - destruct (decide (o' = o)) as [->|Hne].
    + rewrite lookup_insert_eq. intros [= <-]. reflexivity.
    + rewrite lookup_insert_ne by congruence. apply Hv.
Qed.

(** On a store with valid settings every request is answered. *)
Lemma serve_total u r st : valid_store st -> is_Some (serve u r st).
Proof.
  intros Hv. destruct r; simpl.
  - unfold getSettings. unfold_M. simpl. repeat case_match; simplify_eq; eauto.
  - unfold putSettings. unfold_M. simpl. repeat case_match; simplify_eq; eauto.
  - unfold getSlotStatus. destruct (user_of u) as [o|]; [|unfold_M; eauto].
    destruct (present start) as [a|]; [|unfold_M; eauto].
    destruct (present end_) as [b|]; [|unfold_M; eauto].
    destruct (ensureStores_settings o st) as (st0 & Hens & Hset).
    unfold handler. unfold mbind, M_bind. rewrite Hens.
    destruct (eachDay a b) as [days|]; [|unfold_M; eauto].
    destruct (forEachDay_total o days ∅ st0 (valid_ensured _ _ _ Hv Hset))
      as [[[m|msg] st1] ->]; unfold_M; eauto.
  - unfold getSlots. destruct (user_of u) as [o|]; [|unfold_M; eauto].
    unfold_M. simpl.
    destruct (cached st o date).
    + destruct (lockedDays st !! o); eauto.
    + destruct (generate_total date (settings st !! o) st) as [[[slots|msg] st1] ->];
        [intros x Hx; eapply Hv; eassumption | |]; simpl; [|eauto].
      destruct (lockedDays st !! o); eauto.
  - unfold putSlots. unfold_M. simpl. repeat case_match; simplify_eq; eauto.
  - unfold putLockedDay. unfold_M. simpl. repeat case_match; simplify_eq; eauto.
  - unfold postAppointment. unfold_M. simpl. repeat case_match; simplify_eq; eauto.
  - unfold patchAppointmentStatus, removeBookedSlot. unfold_M. simpl.
    repeat case_match; simplify_eq; eauto.
  - unfold postCancel, removeBookedSlot. unfold_M. simpl. repeat case_match; simplify_eq; eauto.
  - unfold postRegister. unfold_M. simpl. destruct known; eauto.
Qed.

Lemma serve_valid u r st resp st' :
  valid_store st -> serve u r st = Some (resp, st') -> valid_store st'.
Proof.
  intros Hv Hrun. destruct r; simpl in Hrun.
  - unfold getSettings in Hrun. unfold_M. simpl in Hrun.
    repeat case_match; simplify_eq; auto.
    intros o' s'. simpl. rewrite lookup_insert. case_decide; [intros [= <-]; reflexivity|].
    apply Hv.
  - unfold putSettings in Hrun. unfold_M. simpl in Hrun.
    repeat case_match; simplify_eq; auto;
      match goal with Hn : negb (validSettings _) = false |- _ =>
        apply negb_false_iff in Hn end;
      intros o' s'; simpl; repeat (rewrite lookup_insert; case_decide);
      try (intros [= <-]; first [assumption | reflexivity]); try apply Hv.
  - unfold getSlotStatus in Hrun.
    destruct (user_of u) as [o|]; [|injection Hrun as _ <-; assumption].
    destruct (present start) as [a|]; [|injection Hrun as _ <-; assumption].
    destruct (present end_) as [b|]; [|injection Hrun as _ <-; assumption].
    destruct (ensureStores_settings o st) as (st0 & Hens & Hset).
    pose proof (valid_ensured _ _ _ Hv Hset) as Hv0.
    apply handler_inv in Hrun as [Hrun | (e & Hrun & _)];
      apply bind_inv in Hrun as [(x & st1 & Hens' & Hrun) | (e' & Hens' & _)];
      try congruence;
      assert (st1 = st0) as -> by congruence;
      (destruct (eachDay a b) as [days|]; [| injection Hrun as _ <-; assumption]);
      apply bind_inv in Hrun as [(m & st2 & Hdays & Hrun) | (e' & Hdays & _)];
      try (injection Hrun as _ <-);
      destruct (forEachDay_effect _ _ _ _ _ _ Hdays) as ((Hs & _) & _);
      eapply valid_same; eauto.
  - apply getSlots_same in Hrun as (Hs & _). eapply valid_same; eauto.
  - unfold putSlots in Hrun. unfold_M. simpl in Hrun.
    repeat case_match; simplify_eq; auto.
  - unfold putLockedDay in Hrun. unfold_M. simpl in Hrun.
    repeat case_match; simplify_eq; auto.
  - apply postAppointment_same in Hrun as (Hs & _). eapply valid_same; eauto.
  - apply patchAppointmentStatus_same in Hrun as (Hs & _). eapply valid_same; eauto.
  - apply postCancel_same in Hrun as (Hs & _). eapply valid_same; eauto.
  - apply postRegister_same in Hrun as (Hs & _). eapply valid_same; eauto.
Qed.

Lemma run_valid rs :
  forall st st', valid_store st -> run rs st = Some st' -> valid_store st'.
Proof.
  induction rs as [|[u r] rest IH]; intros st st' Hv Hrun; simpl in Hrun.
  - injection Hrun as <-. assumption.
  - destruct (serve u r st) as [[resp st1]|] eqn:Hstep; [|discriminate].
    eapply IH; [|eassumption]. eapply serve_valid; eauto.
Qed.


Lemma run_from_empty_wf pre st : run pre empty_store = Some st -> wf_store st.
Proof. apply run_wf, wf_empty. Qed.


(** *** The status read is answered *)








(** *** A booking and the day read *)

Lemma isBooked_app B1 B2 s : isBooked (B1 ++ B2) s = isBooked B1 s || isBooked B2 s.
Proof. unfold isBooked. apply existsb_app. Qed.

Lemma slot_view_markBooked_app E iv s :
  slot_view (markBooked (E ++ [iv]) s) = after_booking iv (markBooked E s).
Proof.
  unfold markBooked, after_booking, slot_view. rewrite isBooked_app.
  unfold isBooked at 2. simpl. rewrite orb_false_r.
  destruct (isBooked E s); simpl.
  - destruct (_ && _); reflexivity.
  - destruct (_ && _); reflexivity.
Qed.

Lemma slot_view_markBooked B a b :
  slot_view a = slot_view b -> slot_view (markBooked B a) = slot_view (markBooked B b).
Proof.
  unfold slot_view, markBooked, isBooked. intros [= Hs He Ha].
  rewrite Hs, He. destruct (existsb _ B); simpl; congruence.
Qed.

Lemma after_booking_view iv a b :
  slot_view a = slot_view b -> after_booking iv a = after_booking iv b.
Proof. unfold slot_view, after_booking. intros [= -> -> ->]. reflexivity. Qed.

Lemma views_map (f g : TimeSlot.t -> string * string * bool) l l' :
  (forall a b, slot_view a = slot_view b -> f a = g b) ->
  map slot_view l = map slot_view l' ->
  map f l = map g l'.
Proof.
  intros Hfg. revert l'. induction l as [|a l IH]; intros [|b l'] Hv; simpl in *;
    try discriminate; [reflexivity|].
  injection Hv as Hs He Ha Hrest. f_equal; [|auto].
  apply Hfg. unfold slot_view. congruence.
Qed.

Lemma generateTimeSlots_views date orgSettings u1 u2 slots n :
  generateTimeSlots date orgSettings u1 = Some (Ok (slots, n)) ->
  exists slots' n',
    generateTimeSlots date orgSettings u2 = Some (Ok (slots', n'))
    /\ map slot_view slots' = map slot_view slots.
Proof.
  intros Hrun.
  pose proof (generateTimeSlots_observe date orgSettings u1 u2) as Hobs.
  rewrite Hrun in Hobs. simpl in Hobs.
  destruct (generateTimeSlots date orgSettings u2) as [[[slots' n']|msg]|];
    simpl in Hobs; try discriminate.
  injection Hobs as Hv _. eauto.
Qed.

(** The stores after a booking that was accepted. *)
Lemma postAppointment_created u data st appointment st' dateStr :
  postAppointment u data st
  = Some ({| code := 201; body := AppointmentBody appointment |}, st') ->
  dateKey (body_date data) = Some dateStr ->
  settings st' = settings st /\ timeSlots st' = timeSlots st
  /\ lockedDays st' = lockedDays st
  /\ exists entry,
       bookedSlots st' !! dateStr = Some entry
       /\ BookedEntry.timeSlots entry
          = match bookedSlots st !! dateStr with
            | Some old => BookedEntry.timeSlots old
            | None => []
            end ++ [body_timeSlot data].
Proof.
  intros Hrun Hkey. unfold postAppointment in Hrun. rewrite Hkey in Hrun.
  unfold_M. simpl in Hrun.
  destruct (user_with_role "individual" u) as [userId|]; [|discriminate].
  destruct (negb (validAppointment data)); [discriminate|].
  destruct (bookedSlots st !! dateStr) as [old|] eqn:Hold; simpl in Hrun.
  - destruct (List.find _ _); [discriminate|].
    injection Hrun as _ <-. simpl. repeat split.
    rewrite lookup_alter_eq, Hold. simpl. eexists. split; [reflexivity|].
    simpl. destruct (body_timeSlot data). reflexivity.
  - injection Hrun as _ <-. simpl. repeat split.
    rewrite lookup_alter_eq, lookup_insert_eq. simpl. eexists. split; [reflexivity|].
    simpl. destruct (body_timeSlot data). reflexivity.
Qed.

Lemma markBooked_nil s : markBooked [] s = s.
Proof. reflexivity. Qed.

Lemma map_markBooked_nil l : map (markBooked []) l = l.
Proof. induction l as [|a l IH]; simpl; [|rewrite IH]; reflexivity. Qed.

(** What a day read answered 200 has read. *)
Lemma getSlots_read reader orgId date st slots locked st1 :
  user_of reader = Some orgId ->
  getSlots reader date st
  = Some ({| code := 200; body := SlotsBody slots locked |}, st1) ->
  exists base l,
    day_slots st orgId date base
    /\ slots = map (markBooked (booked_on st date)) base
    /\ lockedDays st !! orgId = Some l /\ locked = includes l date.
Proof.
  intros Hreader. unfold getSlots, day_slots, booked_on. rewrite Hreader.
  unfold_M. simpl.
  destruct (cached st orgId date) as [cachedSlots|] eqn:Hc; simpl.
  - destruct (lockedDays st !! orgId) as [l|]; [|discriminate].
    intros [= <- <- <-]. exists cachedSlots, l. repeat split; auto.
    destruct (bookedSlots st !! date); [reflexivity | symmetry; apply map_markBooked_nil].
  - unfold generate.
    destruct (settings st !! orgId) as [orgSettings|];
      [|destruct (dayOfWeek date); discriminate].
    destruct (generateTimeSlots date orgSettings (drawn st))
      as [[[generated n]|msg]|] eqn:Hgen; try discriminate.
    simpl. destruct (lockedDays st !! orgId) as [l|]; [|discriminate].
    intros [= <- <- <-]. exists generated, l. repeat split; eauto.
    destruct (bookedSlots st !! date); [reflexivity | symmetry; apply map_markBooked_nil].
Qed.

(** C2, as the code has it.  Let a booking be accepted (201) for a date
    whose key is [dateStr], and let [reader] be answered 200 by GET
    /slots/[dateStr] on the store before the booking: the answer is the
    day's slots, from the cache or, without a cache entry, from the
    generator, those that the index holds for the day marked unavailable.
    The booking adds its interval to the index of the day.  On the store
    after it the same read is answered 200 with the same lock flag and the
    day's slots marked by the longer index: as many slots; slot by slot,
    start and end are unchanged, the slots whose start and end are those
    of the booking are unavailable, and every other slot has the
    availability it had.  Identifiers are unchanged too when the day was
    cached; a day that is not cached is generated anew by each read, with
    the identifiers drawn then. *)
Theorem booking_marks_its_slot u data st appointment st' dateStr
    reader orgId slots locked st1 :
  postAppointment u data st
  = Some ({| code := 201; body := AppointmentBody appointment |}, st') ->
  dateKey (body_date data) = Some dateStr ->
  user_of reader = Some orgId ->
  getSlots reader dateStr st
  = Some ({| code := 200; body := SlotsBody slots locked |}, st1) ->
  exists base base' slots' st1',
    day_slots st orgId dateStr base
    /\ slots = map (markBooked (booked_on st dateStr)) base
    /\ booked_on st' dateStr = booked_on st dateStr ++ [body_timeSlot data]
    /\ day_slots st' orgId dateStr base'
    /\ map slot_view base' = map slot_view base
    /\ slots' = map (markBooked (booked_on st' dateStr)) base'
    /\ getSlots reader dateStr st'
       = Some ({| code := 200; body := SlotsBody slots' locked |}, st1')
    /\ map slot_view slots' = map (after_booking (body_timeSlot data)) slots
    /\ (is_Some (cached st orgId dateStr) ->
        base' = base /\ map TimeSlot.id slots' = map TimeSlot.id slots).
Proof.
  intros Hpost Hkey Hreader Hread.
  destruct (postAppointment_created _ _ _ _ _ _ Hpost Hkey)
    as (Hset & Hts & Hlk & entry & Hentry & Hslots).
  destruct (getSlots_read _ _ _ _ _ _ _ Hreader Hread) as (base & l & Hbase & -> & Hl & ->).
  assert (Hbooked : booked_on st' dateStr = booked_on st dateStr ++ [body_timeSlot data]).
  { unfold booked_on. rewrite Hentry. exact Hslots. }
  assert (Hcached : cached st' orgId dateStr = cached st orgId dateStr)
    by (unfold cached; rewrite Hts; reflexivity).
  assert (Hviews : forall base',
            map slot_view base' = map slot_view base ->
            map slot_view (map (markBooked (booked_on st' dateStr)) base')
            = map (after_booking (body_timeSlot data))
                (map (markBooked (booked_on st dateStr)) base)).
  { intros base' Hv. rewrite Hbooked, !map_map. apply views_map; [|assumption].
    intros a b Hab. rewrite slot_view_markBooked_app.
    apply after_booking_view, slot_view_markBooked. assumption. }
  assert (Hanswer : forall base' st1',
            (match cached st orgId dateStr with
             | Some cachedSlots => mret cachedSlots
             | None => generate dateStr (settings st !! orgId)
             end) st' = Some (Ok base', st1') ->
            getSlots reader dateStr st'
            = Some ({| code := 200;
                       body := SlotsBody (map (markBooked (booked_on st' dateStr)) base')
                                 (includes l dateStr) |}, st1')).
  { intros base' st1' Hday. unfold getSlots. rewrite Hreader. unfold_M. simpl.
    rewrite Hcached, Hset, Hday. simpl. rewrite Hlk, Hl. unfold booked_on.
    destruct (bookedSlots st' !! dateStr); [reflexivity|].
    rewrite map_markBooked_nil. reflexivity. }
  unfold day_slots in *. rewrite Hcached.
  destruct (cached st orgId dateStr) as [cachedSlots|] eqn:Hc.
  - subst base.
    exists cachedSlots, cachedSlots, (map (markBooked (booked_on st' dateStr)) cachedSlots), st'.
    split; [reflexivity|]. split; [reflexivity|]. split; [assumption|].
    split; [reflexivity|]. split; [reflexivity|]. split; [reflexivity|].
    split; [apply Hanswer; reflexivity|].
    split; [apply Hviews; reflexivity|].
    intros _. split; [reflexivity|].
    rewrite Hbooked, !map_map. apply map_ext. intros a. unfold markBooked.
    repeat (destruct (isBooked _ _)); reflexivity.
  - destruct Hbase as (orgSettings & n & Hs & Hgen).
    destruct (generateTimeSlots_views _ _ _ (drawn st') _ _ Hgen)
      as (generated' & n' & Hgen' & Hv).
    exists base, generated', (map (markBooked (booked_on st' dateStr)) generated'),
      (set_drawn n' st').
    split; [exists orgSettings, n; auto|]. split; [reflexivity|].
    split; [assumption|].
    split; [exists orgSettings, n'; rewrite Hset; auto|].
    split; [assumption|]. split; [reflexivity|].
    split; [apply Hanswer; unfold generate; rewrite Hs, Hgen'; reflexivity|].
    split; [apply Hviews; assumption|].
    intros [x Hx]. discriminate.
Qed.
End ServerFacts.

(** ** More of the generator *)

(** A time of the day is written as its minute and read back as the
    start of that minute. *)
Lemma format_parse t :
  0 <= t < 86400000 -> Clock.parse (Clock.format t) = Some (60000 * (t / 60000)).
Proof.
  intros Ht.
  assert (Hall : forallb reads_back (seq 0 1440) = true) by (vm_compute; reflexivity).
  rewrite forallb_forall in Hall.
  assert (Hm : 0 <= t / 60000 < 1440).
  { split; [apply Z.div_pos; lia | apply Z.div_lt_upper_bound; lia]. }
  specialize (Hall (Z.to_nat (t / 60000))).
  unfold reads_back in Hall. rewrite Z2Nat.id in Hall by lia.
  assert (Hfmt : Clock.format (60000 * (t / 60000)) = Clock.format t).
  { unfold Clock.format. rewrite (Z.mul_comm 60000), Z.div_mul by lia. reflexivity. }
  rewrite Hfmt in Hall.
  destruct (Clock.parse (Clock.format t)) as [t'|].
  - f_equal. apply Z.eqb_eq. apply Hall. apply in_seq. lia.
  - discriminate Hall. apply in_seq. lia.
Qed.

Lemma format_parse_minute m :
  0 <= m < 1440 -> Clock.parse (Clock.format (60000 * m)) = Some (60000 * m).
Proof.
  intros Hm. rewrite format_parse by lia.
  do 2 f_equal. rewrite Z.mul_comm. apply Z.div_mul. lia.
Qed.

Lemma Emits_bounds d b closing t times :
  0 < d -> 0 <= b ->
  Emits d b closing t times ->
  Forall (fun p => t <= fst p /\ snd p = fst p + d /\ snd p <= closing) times.
Proof.
  intros Hd Hb Hem. induction Hem as [t Hlt | t rest Hle Hrest IH]; constructor.
  - simpl. lia.
  - eapply Forall_impl; [exact IH|]. simpl. intros p (H1 & H2 & H3). lia.
Qed.

(** With a slot length and a break of whole minutes, every slot starts
    on a minute. *)
Lemma Emits_minutes d b closing :
  forall t times,
    Emits (60000 * d) (60000 * b) closing t times ->
    (exists m, t = 60000 * m) ->
    Forall (fun p => exists m, fst p = 60000 * m) times.
Proof.
  intros t times Hem. induction Hem as [t Hlt | t rest Hle Hrest IH]; intros [m ->];
    constructor.
  - simpl. eauto.
  - apply IH. exists (m + d + b). lia.
Qed.

Lemma slot_count_next s e d b :
  0 < d -> 0 <= b -> s + d <= e ->
  slot_count s e d b = S (slot_count (s + d + b) e d b).
Proof.
  intros Hd Hb Hle. unfold slot_count.
  destruct (Z.leb_spec (s + d) e); [|lia]. f_equal.
  destruct (Z.leb_spec (s + d + b + d) e).
  - replace (e - s - d) with ((e - (s + d + b) - d) + 1 * (d + b)) by lia.
    rewrite Z.div_add by lia.
    rewrite Z2Nat.inj_add; [simpl; lia | apply Z.div_pos; lia | lia].
  - rewrite Z.div_small by lia. reflexivity.
Qed.

(** The specification's procedure in closed form. *)
Lemma Emits_closed d b e :
  0 < d -> 0 <= b ->
  forall n s, slot_count s e d b = n ->
              Emits d b e s (map (nth_times s d b) (seq 0 n)).
Proof.
  intros Hd Hb. induction n as [|n IH]; intros s Hn.
  - simpl. constructor. unfold slot_count in Hn.
    destruct (Z.leb_spec (s + d) e); [discriminate | lia].
  - assert (Hle : s + d <= e).
    { unfold slot_count in Hn. destruct (Z.leb_spec (s + d) e); [assumption | discriminate]. }
    rewrite slot_count_next in Hn by assumption. injection Hn as Hn.
    simpl.
    replace (nth_times s d b 0) with (s, s + d)
      by (unfold nth_times; simpl; f_equal; lia).
    constructor; [assumption|].
    rewrite <- seq_shift, map_map.
    erewrite map_ext; [apply (IH _ Hn)|].
    intros k. unfold nth_times. f_equal; lia.
Qed.

(** Slots a minute or more apart are written with different starts. *)
Lemma Emits_starts_NoDup d b e t times :
  60000 <= d -> 0 <= b -> 0 <= t -> e < 86400000 ->
  Emits d b e t times ->
  NoDup (map (fun p => Clock.format (fst p)) times).
Proof.
  intros Hd Hb Ht He Hem. assert (Hpos : 0 < d) by lia.
  induction Hem as [t Hlt | t rest Hle Hrest IH]; simpl; constructor.
  - intros Hin. apply list_elem_of_fmap in Hin as ([a c] & Heq & Hin). simpl in Heq.
    pose proof (Emits_bounds _ _ _ _ _ Hpos Hb Hrest) as Hall.
    rewrite Forall_forall in Hall. destruct (Hall _ Hin) as (Ha & Hc & Hce). simpl in *.
    assert (Hp : Clock.parse (Clock.format t) = Clock.parse (Clock.format a)) by congruence.
    rewrite !format_parse in Hp by lia. injection Hp as Hp.
    assert (Hstep : t / 60000 + 1 <= a / 60000).
    { replace (t / 60000 + 1) with ((t + 1 * 60000) / 60000)
        by (rewrite Z.div_add by lia; reflexivity).
      apply Z.div_le_mono; lia. }
    lia.
  - apply IH. lia.
Qed.

Section GeneratorExtras.
Context `{Platform}.

Lemma emitted_slots_length u times : length (emitted_slots u times) = length times.
Proof. revert u. induction times as [|[a c] rest IH]; intros u; simpl; auto. Qed.

Lemma emitted_slots_starts u times :
  map TimeSlot.start (emitted_slots u times) = map (fun p => Clock.format (fst p)) times.
Proof. revert u. induction times as [|[a c] rest IH]; intros u; simpl; f_equal; auto. Qed.

Lemma emitted_slots_Forall (P : TimeSlot.t -> Prop) (Q : Z * Z -> Prop) u times :
  (forall i a c, Q (a, c) -> P (TimeSlot.mk (uuidv4 i) (Clock.format a) (Clock.format c) true)) ->
  Forall Q times -> Forall P (emitted_slots u times).
Proof.
  intros HPQ Hall. revert u. induction Hall as [|[a c] rest Hq Hrest IH]; intros u; simpl;
    constructor; auto.
Qed.

(** What the generator returns on an open day, when the slot length
    moves the time forward and the break does not move it back. *)
Lemma generateTimeSlots_returns date orgSettings u w h s e slots n :
  dayOfWeek date = Some w ->
  find_day w (businessHours orgSettings) = Some h ->
  BusinessHours.isOpen h = true ->
  Clock.parse (BusinessHours.start h) = Some s ->
  Clock.parse (BusinessHours.end_ h) = Some e ->
  0 < minutes_ms (slotDuration orgSettings) ->
  0 <= minutes_ms (breakBetweenSlots orgSettings) ->
  generateTimeSlots date orgSettings u = Some (Ok (slots, n)) ->
  exists times,
    Emits (minutes_ms (slotDuration orgSettings))
      (minutes_ms (breakBetweenSlots orgSettings)) e s times
    /\ slots = emitted_slots u times.
Proof.
  intros Hw Hfind Hopen Hs He Hd Hb Hrun.
  assert (Hordered : strictIntervals = true -> s <= e).
  { intros Hstrict. destruct (Z.le_gt_cases s e) as [Hse|Hes]; [assumption|].
    exfalso.
    rewrite (generateTimeSlots_open _ _ _ _ _ _ _ Hw Hfind Hopen Hs He) in Hrun.
    destruct (loop_bound s e (slotDuration orgSettings) (breakBetweenSlots orgSettings))
      as [|fuel]; [discriminate|].
    simpl in Hrun. rewrite Hstrict in Hrun. unfold Clock.isWithinInterval in Hrun.
    destruct (Z.leb_spec s e); [lia | discriminate]. }
  destruct (generateTimeSlots_emits _ _ u _ _ _ _ Hw Hfind Hopen Hs He Hd Hb Hordered)
    as (times & Hem & Heq).
  rewrite Heq in Hrun. injection Hrun as <- _. eauto.
Qed.

(** X1.  On an open day whose hours parse, with a slot length that is a
    positive whole number of minutes and a break that is a whole number of
    minutes and not negative, every slot the generator returns reads back:
    its start parses to a time [a] at or after the opening time, its end
    parses to [a] plus [slotDuration] minutes, at or before the closing
    time, and the slot is available. *)
Theorem generated_slots_read_back date orgSettings u w h s e d b slots n :
  dayOfWeek date = Some w ->
  find_day w (businessHours orgSettings) = Some h ->
  BusinessHours.isOpen h = true ->
  Clock.parse (BusinessHours.start h) = Some s ->
  Clock.parse (BusinessHours.end_ h) = Some e ->
  slotDuration orgSettings = Qc_of_Z d ->
  breakBetweenSlots orgSettings = Qc_of_Z b ->
  0 < d -> 0 <= b ->
  generateTimeSlots date orgSettings u = Some (Ok (slots, n)) ->
  Forall (fun slot =>
            exists a,
              Clock.parse (TimeSlot.start slot) = Some a
              /\ Clock.parse (TimeSlot.end_ slot) = Some (a + 60000 * d)
              /\ s <= a /\ a + 60000 * d <= e
              /\ TimeSlot.isAvailable slot = true) slots.
Proof.
  intros Hw Hfind Hopen Hs He Hdur Hbrk Hd Hb Hrun.
  assert (Hdm : 0 < minutes_ms (slotDuration orgSettings))
    by (rewrite Hdur, minutes_ms_whole; lia).
  assert (Hbm : 0 <= minutes_ms (breakBetweenSlots orgSettings))
    by (rewrite Hbrk, minutes_ms_whole; lia).
  destruct (generateTimeSlots_returns _ _ _ _ _ _ _ _ _ Hw Hfind Hopen Hs He Hdm Hbm Hrun)
    as (times & Hem & ->).
  rewrite Hdur, Hbrk, !minutes_ms_whole in Hem.
  destruct (parse_minutes _ _ Hs) as (ms & -> & Hms).
  destruct (parse_minutes _ _ He) as (me & -> & Hme).
  assert (Hdp : 0 < 60000 * d) by lia. assert (Hbp : 0 <= 60000 * b) by lia.
  pose proof (Emits_bounds _ _ _ _ _ Hdp Hbp Hem) as Hbounds.
  pose proof (Emits_minutes _ _ _ _ _ Hem ltac:(eauto)) as Hmin.
  eapply emitted_slots_Forall;
    [|apply Forall_and; split; [exact Hbounds | exact Hmin]].
  intros i a c [(Ha & Hc & Hce) [m Hm]]. simpl in *. subst c a.
  exists (60000 * m). simpl.
  replace (60000 * m + 60000 * d) with (60000 * (m + d)) in * by lia.
  rewrite !format_parse_minute by lia. repeat split; auto; lia.
Qed.

(** X2.  The slots in closed form.  On an open day whose hours parse, with
    a slot length that is a positive whole number of minutes and a break
    that is a whole number of minutes and not negative (and, where the
    interval test raises on inverted bounds, an opening time at or before
    the closing time), the generator returns [slot_count] slots: none when
    the first slot would end after closing, and otherwise one more than
    the number of whole steps [slotDuration + breakBetweenSlots] that fit
    between the end of the first slot and the closing time; the [k]-th
    slot starts [k] steps after the opening time and carries the [k]-th
    identifier drawn. *)
Theorem generated_slots_closed_form date orgSettings u w h s e d b :
  dayOfWeek date = Some w ->
  find_day w (businessHours orgSettings) = Some h ->
  BusinessHours.isOpen h = true ->
  Clock.parse (BusinessHours.start h) = Some s ->
  Clock.parse (BusinessHours.end_ h) = Some e ->
  slotDuration orgSettings = Qc_of_Z d ->
  breakBetweenSlots orgSettings = Qc_of_Z b ->
  0 < d -> 0 <= b ->
  (strictIntervals = true -> s <= e) ->
  let count := slot_count s e (60000 * d) (60000 * b) in
  generateTimeSlots date orgSettings u
  = Some (Ok (emitted_slots u
                (map (nth_times s (60000 * d) (60000 * b)) (seq 0 count)),
              (u + count)%nat))
  /\ length (emitted_slots u
               (map (nth_times s (60000 * d) (60000 * b)) (seq 0 count))) = count.
Proof.
  intros Hw Hfind Hopen Hs He Hdur Hbrk Hd Hb Hordered count.
  assert (Hdm : 0 < minutes_ms (slotDuration orgSettings))
    by (rewrite Hdur, minutes_ms_whole; lia).
  assert (Hbm : 0 <= minutes_ms (breakBetweenSlots orgSettings))
    by (rewrite Hbrk, minutes_ms_whole; lia).
  destruct (generateTimeSlots_emits _ _ u _ _ _ _ Hw Hfind Hopen Hs He Hdm Hbm Hordered)
    as (times & Hem & ->).
  rewrite Hdur, Hbrk, !minutes_ms_whole in Hem.
  assert (Hdp : 0 < 60000 * d) by lia. assert (Hbp : 0 <= 60000 * b) by lia.
  pose proof (Emits_closed (60000 * d) (60000 * b) e Hdp Hbp count s eq_refl) as Hclosed.
  rewrite (Emits_functional _ _ _ _ _ _ Hem Hclosed).
  rewrite emitted_slots_length, length_map, length_seq. split; reflexivity.
Qed.

(** X3.  Under settings that pass the schema of PUT /settings (a slot of
    15 to 120 minutes, a break of 0 to 60, whole or not), no two slots of
    a generated day start at the same written time (bookings are matched
    to slots by their written start and end). *)
Theorem generated_slots_distinct date orgSettings u slots n :
  validSettings orgSettings = true ->
  generateTimeSlots date orgSettings u = Some (Ok (slots, n)) ->
  NoDup (map TimeSlot.start slots).
Proof.
  intros Hv Hrun. destruct (validSettings_ms _ Hv) as [Hd Hb].
  revert Hrun. unfold generateTimeSlots, generateTimeSlots_with.
  destruct (dayOfWeek date) as [w|] eqn:Hw; [|discriminate].
  destruct (find_day w (businessHours orgSettings)) as [h|] eqn:Hfind;
    [|intros [= <- _]; constructor].
  destruct (BusinessHours.isOpen h) eqn:Hopen; simpl; [|intros [= <- _]; constructor].
  destruct (Clock.parse (BusinessHours.start h)) as [s|] eqn:Hs;
    [destruct (Clock.parse (BusinessHours.end_ h)) as [e|] eqn:He|];
    try (destruct strictIntervals; [discriminate | intros [= <- _]; constructor]).
  intros Hrun.
  assert (Hgen : generateTimeSlots date orgSettings u = Some (Ok (slots, n))).
  { rewrite (generateTimeSlots_open _ _ _ _ _ _ _ Hw Hfind Hopen Hs He). exact Hrun. }
  assert (Hdm : 0 < minutes_ms (slotDuration orgSettings)) by lia.
  destruct (generateTimeSlots_returns _ _ _ _ _ _ _ _ _ Hw Hfind Hopen Hs He Hdm Hb Hgen)
    as (times & Hem & ->).
  pose proof (parse_range _ _ Hs) as Hsr. pose proof (parse_range _ _ He) as Her.
  rewrite emitted_slots_starts.
  assert (Hmin : 60000 <= minutes_ms (slotDuration orgSettings)) by lia.
  apply (Emits_starts_NoDup _ _ e s _ Hmin Hb); [lia | lia | exact Hem].
Qed.

Lemma gen_loop_shape fuel s e d b :
  forall cur acc u slots n,
    Forall (fun slot => String.length (TimeSlot.start slot) = 5%nat
                        /\ String.length (TimeSlot.end_ slot) = 5%nat) acc ->
    gen_loop fuel s e d b cur acc u = Some (Ok (slots, n)) ->
    Forall (fun slot => String.length (TimeSlot.start slot) = 5%nat
                        /\ String.length (TimeSlot.end_ slot) = 5%nat) slots.
Proof.
  induction fuel as [|fuel IH]; intros cur acc u slots n Hacc Hrun; [discriminate|].
  simpl in Hrun.
  destruct (Clock.isWithinInterval strictIntervals cur s e) as [[|]|]; try discriminate.
  - destruct (Clock.isWithinInterval strictIntervals (addMinutes cur d) s e)
      as [[|]|]; try discriminate.
    + destruct cur as [c|]; [|discriminate]. simpl in Hrun.
      destruct (addMinutes (Some c) d) as [c'|]; [|discriminate]. simpl in Hrun.
      eapply IH; [|exact Hrun]. apply Forall_app. split; [assumption|].
      constructor; [|constructor]. simpl. split; reflexivity.
    + eapply IH; eauto.
  - injection Hrun as <- _. assumption.
Qed.

(** X4.  The booking schema admits a start written with a one-digit hour
    (9:00); the generator writes every time with two digits (09:00).  So a
    booking whose start has four characters marks none of the slots the
    generator returns, whatever the date and the settings. *)
Theorem short_hour_booking_blocks_nothing date orgSettings u slots n booking :
  generateTimeSlots date orgSettings u = Some (Ok (slots, n)) ->
  timePattern (Interval.start booking) = true ->
  String.length (Interval.start booking) = 4%nat ->
  map (markBooked [booking]) slots = slots.
Proof.
  intros Hrun _ Hlen.
  assert (Hshape : Forall (fun slot => String.length (TimeSlot.start slot) = 5%nat
                                       /\ String.length (TimeSlot.end_ slot) = 5%nat) slots).
  { revert Hrun. unfold generateTimeSlots, generateTimeSlots_with.
    destruct (dayOfWeek date) as [w|]; [|discriminate].
    destruct (find_day _ _) as [h|]; [|intros [= <- _]; constructor].
    destruct (negb _); [intros [= <- _]; constructor|].
    destruct (Clock.parse (BusinessHours.start h)) as [s|];
      destruct (Clock.parse (BusinessHours.end_ h)) as [e|];
      try (destruct strictIntervals; [discriminate | intros [= <- _]; constructor]).
    intros Hrun. eapply gen_loop_shape; [|exact Hrun]. constructor. }
  clear Hrun. induction Hshape as [|slot rest [Hs _] _ IH]; [reflexivity|].
  simpl. rewrite IH. f_equal.
  unfold markBooked, isBooked. simpl.
  destruct (String.eqb_spec (Interval.start booking) (TimeSlot.start slot)) as [Heq|Hne];
    [rewrite Heq in Hlen; congruence | reflexivity].
Qed.

(** X5.  [generateTimeSlots] never returns when the two additions of an
    iteration cancel (slot length and break add up to zero) and the end of
    the first slot is a date at all, on an open day whose hours parse
    (and, where the interval test raises on inverted bounds, that opens at
    or before it closes): the time of the loop stands still inside the
    interval.  The function does not check; the settings schema keeps
    such values out. *)
Theorem generateTimeSlots_never_ends date orgSettings u w h s e :
  dayOfWeek date = Some w ->
  find_day w (businessHours orgSettings) = Some h ->
  BusinessHours.isOpen h = true ->
  Clock.parse (BusinessHours.start h) = Some s ->
  Clock.parse (BusinessHours.end_ h) = Some e ->
  minutes_ms (slotDuration orgSettings) + minutes_ms (breakBetweenSlots orgSettings) = 0 ->
  Z.abs (today + (s + minutes_ms (slotDuration orgSettings))) <= Clock.maxTime ->
  (strictIntervals = true -> s <= e) ->
  forall fuel, generateTimeSlots_fuel fuel date orgSettings u = None.
Proof.
  intros Hw Hfind Hopen Hs He Hzero Hdate Hstrict.
  apply generateTimeSlots_diverges.
  rewrite (generateTimeSlots_open _ _ _ _ _ _ _ Hw Hfind Hopen Hs He).
  unfold loop_bound. cbv zeta. rewrite Hzero. simpl Z.eqb. cbv iota.
  set (d := slotDuration orgSettings) in *. set (b := breakBetweenSlots orgSettings) in *.
  pose proof (parse_range _ _ Hs) as Hsr.
  assert (Hend : addMinutes (Some s) d = Some (s + minutes_ms d)).
  { destruct (addMinutes_cases s d) as [Hok | [_ Hout]]; [assumption | lia]. }
  assert (Hnext : addMinutes (Some (s + minutes_ms d)) b = Some s).
  { rewrite addMinutes_day by lia. f_equal. lia. }
  assert (Hin : Clock.isWithinInterval strictIntervals (Some s) s e = Ok true).
  { destruct (Z.le_gt_cases s e) as [Hse|Hes].
    - rewrite isWithinInterval_ordered by assumption.
      destruct (Z.leb_spec s s); [|lia]. destruct (Z.leb_spec s e); [|lia]. reflexivity.
    - assert (Hlax : strictIntervals = false)
        by (destruct strictIntervals; [specialize (Hstrict eq_refl); lia | reflexivity]).
      rewrite Hlax, isWithinInterval_inverted by assumption.
      destruct (Z.leb_spec e s); [|lia]. destruct (Z.leb_spec s s); [|lia]. reflexivity. }
  destruct (isWithinInterval_ok_bounds _ _ (Some (s + minutes_ms d)) _ _ _ Hin) as [bb Hbb].
  simpl. rewrite Hin, Hend, Hbb. simpl.
  destruct bb; rewrite Hnext, Hin, Hend, Hbb; simpl; reflexivity.
Qed.
End GeneratorExtras.

(** ** More of the organization routes *)

Section OrganizationExtras.
Context `{Platform}.

Lemma run_invariant (I : Store -> Prop) :
  (forall u r st resp st', I st -> serve u r st = Some (resp, st') -> I st') ->
  forall rs st st', I st -> run rs st = Some st' -> I st'.
Proof.
  intros Hstep. induction rs as [|[u r] rest IH]; intros st st' Hi Hrun; simpl in Hrun.
  - injection Hrun as <-. assumption.
  - destruct (serve u r st) as [[resp st1]|] eqn:Hs; [|discriminate].
    eapply IH; [|eassumption]. eapply Hstep; eauto.
Qed.

Lemma user_with_role_of role u : user_of u = None -> user_with_role role u = None.
Proof.
  unfold user_of, user_with_role. destruct u as [x|]; [|reflexivity].
  destruct (String.eqb (user_id x) ""); [reflexivity | discriminate].
Qed.

(** What the opening of GET /slots/status leaves. *)
Lemma ensureStores_stores o st :
  exists st0,
    ensureStores o st = Some (Ok tt, st0)
    /\ appointments st0 = appointments st /\ bookedSlots st0 = bookedSlots st
    /\ rolled st0 = rolled st /\ drawn st0 = drawn st
    /\ (complete_store st -> complete_store st0)
    /\ (tidy_locks st -> tidy_locks st0).
Proof.
  unfold ensureStores. unfold_M. simpl.
  case_bool_decide as Hset; simpl.
  - rewrite lookup_insert_eq. rewrite bool_decide_eq_false_2 by discriminate.
    eexists. split; [reflexivity|]. simpl. do 4 (split; [reflexivity|]). split.
    + intros Hc o'. simpl. destruct (decide (o' = o)) as [->|Hne].
      * rewrite !lookup_insert_eq. eauto.
      * rewrite !lookup_insert_ne by congruence. apply Hc.
    + intros Ht o' l. simpl. destruct (decide (o' = o)) as [->|Hne].
      * rewrite lookup_insert_eq. intros [= <-]. constructor.
      * rewrite lookup_insert_ne by congruence. apply Ht.
  - case_bool_decide as Hcache; simpl; (eexists; split; [reflexivity|]);
      simpl; do 4 (split; [reflexivity|]); (split; [|auto]); [|auto].
    intros Hc o' Ho'. simpl in *. destruct (Hc o' Ho') as [Hl Ht]. split; [assumption|].
    destruct (decide (o' = o)) as [->|Hne]; [rewrite lookup_insert_eq; eauto|].
    rewrite lookup_insert_ne by congruence. assumption.
Qed.

Lemma status_frame_complete o st st' :
  status_frame o st st' -> complete_store st -> complete_store st'.
Proof.
  intros (Hs & Hl & _ & _ & _ & Hother & Hown & _) Hc o' Ho'.
  rewrite Hs in Ho'. destruct (Hc o' Ho') as [Hl' Ht']. rewrite Hl. split; [assumption|].
  destruct (decide (o' = o)) as [->|Hne]; [auto|]. rewrite Hother by assumption. assumption.
Qed.

Lemma status_frame_tidy o st st' :
  status_frame o st st' -> tidy_locks st -> tidy_locks st'.
Proof. intros (_ & Hl & _) Ht o' l. rewrite Hl. apply Ht. Qed.

(** GET /slots/status: the store is as it was, or as the day rounds left
    it after the opening. *)
Lemma getSlotStatus_frame u a b st resp st' :
  getSlotStatus u a b st = Some (resp, st') ->
  st' = st
  \/ exists o st0, user_of u = Some o
                   /\ ensureStores o st = Some (Ok tt, st0)
                   /\ status_frame o st0 st'.
Proof.
  intros Hrun. unfold getSlotStatus in Hrun.
  destruct (user_of u) as [o|]; [|injection Hrun as _ <-; auto].
  destruct (present a) as [start|]; [|injection Hrun as _ <-; auto].
  destruct (present b) as [end_|]; [|injection Hrun as _ <-; auto].
  right. exists o.
  destruct (ensureStores_stores o st) as (st0 & Hens & _).
  exists st0. split; [reflexivity|]. split; [assumption|].
  apply handler_inv in Hrun as [Hrun | (e & Hrun & _)];
    apply bind_inv in Hrun as [(x & st1 & Hens' & Hrun) | (e' & Hens' & _)];
    try congruence;
    assert (st1 = st0) as -> by congruence;
    (destruct (eachDay start end_) as [days|];
      [| injection Hrun as _ <-; apply status_frame_refl]);
    apply bind_inv in Hrun as [(m & st2 & Hdays & Hrun) | (e' & Hdays & _)];
    try (injection Hrun as _ <-);
    eapply forEachDay_effect; eauto.
Qed.

Lemma org_stores_same_complete st st' :
  org_stores_same st st' -> complete_store st -> complete_store st'.
Proof. intros (Hs & Ht & Hl) Hc o. rewrite Hs, Ht, Hl. apply Hc. Qed.

Lemma org_stores_same_tidy st st' :
  org_stores_same st st' -> tidy_locks st -> tidy_locks st'.
Proof. intros (Hs & Ht & Hl) Hc o. rewrite Hl. apply Hc. Qed.

Lemma serve_complete u r st resp st' :
  complete_store st -> serve u r st = Some (resp, st') -> complete_store st'.
Proof.
  intros Hc Hrun.
  destruct r as [|data|start end_|date|date slots|date locked|data|id status|id|known];
    simpl in Hrun.
  - unfold getSettings in Hrun.
    destruct (user_of u) as [s|]; [|injection Hrun as _ <-; assumption].
    unfold_M. simpl in Hrun.
    repeat case_match; simplify_eq; auto.
    intros o'. simpl. destruct (decide (o' = s)) as [->|Hne].
    + rewrite !lookup_insert_eq. eauto.
    + rewrite !lookup_insert_ne by congruence. apply Hc.
  - unfold putSettings in Hrun.
    destruct (user_of u) as [s|]; [|injection Hrun as _ <-; assumption].
    unfold_M. simpl in Hrun.
    destruct (negb (validSettings data)); [injection Hrun as _ <-; assumption|].
    case_bool_decide as Hset; simpl in Hrun; injection Hrun as _ <-; intros o'; simpl;
      (destruct (decide (o' = s)) as [->|Hne];
       [rewrite ?lookup_insert_eq | rewrite ?lookup_insert_ne by congruence; apply Hc]).
    + eauto.
    + intros _. split; [|eauto]. apply Hc.
      destruct (settings st !! s); [eauto | contradiction].
  - apply getSlotStatus_frame in Hrun as [-> | (o & st0 & _ & Hens & Hf)]; [assumption|].
    destruct (ensureStores_stores o st) as (st0' & Hens' & _ & _ & _ & _ & Hc0 & _).
    assert (st0' = st0) as -> by congruence.
    eapply status_frame_complete; eauto.
  - eapply org_stores_same_complete; [eapply getSlots_same|]; eauto.
  - unfold putSlots in Hrun.
    destruct (user_of u) as [s|]; [|injection Hrun as _ <-; assumption].
    unfold_M. simpl in Hrun.
    repeat case_match; simplify_eq; auto;
      intros o'; simpl; intros Ho'; destruct (Hc o' Ho') as [Hl Ht]; (split; [assumption|]);
      (destruct (decide (o' = s)) as [->|Hne];
       [rewrite lookup_insert_eq; eauto | rewrite lookup_insert_ne by congruence; assumption]).
  - unfold putLockedDay in Hrun.
    destruct (user_of u) as [s|]; [|injection Hrun as _ <-; assumption].
    unfold_M. simpl in Hrun.
    repeat case_match; simplify_eq; auto;
      intros o'; simpl; intros Ho'; destruct (Hc o' Ho') as [Hl Ht]; (split; [|assumption]);
      (destruct (decide (o' = s)) as [->|Hne];
       [rewrite lookup_insert_eq; eauto | rewrite lookup_insert_ne by congruence; assumption]).
  - eapply org_stores_same_complete; [eapply postAppointment_same|]; eauto.
  - eapply org_stores_same_complete; [eapply patchAppointmentStatus_same|]; eauto.
  - eapply org_stores_same_complete; [eapply postCancel_same|]; eauto.
  - eapply org_stores_same_complete; [eapply postRegister_same|]; eauto.
Qed.

Lemma serve_tidy u r st resp st' :
  tidy_locks st -> serve u r st = Some (resp, st') -> tidy_locks st'.
Proof.
  intros Hc Hrun.
  destruct r as [|data|start end_|date|date slots|date locked|data|id status|id|known];
    simpl in Hrun.
  - unfold getSettings in Hrun.
    destruct (user_of u) as [s|]; [|injection Hrun as _ <-; assumption].
    unfold_M. simpl in Hrun.
    repeat case_match; simplify_eq; auto.
    intros o' l. simpl. destruct (decide (o' = s)) as [->|Hne].
    + rewrite !lookup_insert_eq. intros [= <-]. constructor.
    + rewrite !lookup_insert_ne by congruence. apply Hc.
  - unfold putSettings in Hrun.
    destruct (user_of u) as [s|]; [|injection Hrun as _ <-; assumption].
    unfold_M. simpl in Hrun.
    repeat case_match; simplify_eq; auto.
    intros o' l; simpl. destruct (decide (o' = s)) as [->|Hne].
    + rewrite !lookup_insert_eq. intros [= <-]. constructor.
    + rewrite !lookup_insert_ne by congruence. apply Hc.
  - apply getSlotStatus_frame in Hrun as [-> | (o & st0 & _ & Hens & Hf)]; [assumption|].
    destruct (ensureStores_stores o st) as (st0' & Hens' & _ & _ & _ & _ & _ & Hc0).
    assert (st0' = st0) as -> by congruence.
    eapply status_frame_tidy; eauto.
  - eapply org_stores_same_tidy; [eapply getSlots_same|]; eauto.
  - unfold putSlots in Hrun.
    destruct (user_of u) as [s|]; [|injection Hrun as _ <-; assumption].
    unfold_M. simpl in Hrun.
    repeat case_match; simplify_eq; auto.
  - unfold putLockedDay in Hrun.
    destruct (user_of u) as [s|]; [|injection Hrun as _ <-; assumption].
    unfold_M. simpl in Hrun.
    repeat case_match; simplify_eq; auto;
      intros o' l'; simpl;
      (destruct (decide (o' = s)) as [->|Hne];
       [rewrite lookup_insert_eq; intros [= <-]
       | rewrite lookup_insert_ne by congruence; apply Hc]).
    + apply NoDup_app. split; [eapply Hc; eauto|].
      split; [|apply NoDup_singleton].
      intros x Hx Hx'. apply list_elem_of_singleton in Hx'. subst x.
      unfold includes in *. case_bool_decide; [discriminate | contradiction].
    + apply NoDup_filter. eapply Hc; eauto.
  - eapply org_stores_same_tidy; [eapply postAppointment_same|]; eauto.
  - eapply org_stores_same_tidy; [eapply patchAppointmentStatus_same|]; eauto.
  - eapply org_stores_same_tidy; [eapply postCancel_same|]; eauto.
  - eapply org_stores_same_tidy; [eapply postRegister_same|]; eauto.
Qed.

Lemma complete_empty : complete_store empty_store.
Proof. intros o [x Hx]. simpl in Hx. rewrite lookup_empty in Hx. discriminate. Qed.

Lemma tidy_empty : tidy_locks empty_store.
Proof. intros o l Hl. simpl in Hl. rewrite lookup_empty in Hl. discriminate. Qed.

(** X6.  In every store the server reaches from the empty one by
    requests of users whose ids are no names inherited from
    [Object.prototype], an organization whose id is no such name has
    settings exactly when it has a list of locked days, and exactly when
    it has a slot cache.  (Under an inherited name the initialization is
    skipped, and settings and cache come without the locked days.) *)
Theorem organization_stores_together pre st o :
  run pre empty_store = Some st ->
  forallb (fun ur => plain_user (fst ur)) pre = true ->
  inherited o = false ->
  (is_Some (settings st !! o) <-> is_Some (lockedDays st !! o))
  /\ (is_Some (settings st !! o) <-> is_Some (timeSlots st !! o)).
Proof.
  intros Hpre _ _.
  pose proof (run_from_empty_wf _ _ Hpre) as Hwf.
  pose proof (run_invariant complete_store serve_complete _ _ _ complete_empty Hpre) as Hc.
  split; split; intros Hs; try (apply Hwf; auto); apply Hc; assumption.
Qed.

(** X7.  In every store the server reaches from the empty one, no date is
    listed twice among an organization's locked days. *)
Theorem locked_days_without_repeats pre st o l :
  run pre empty_store = Some st ->
  lockedDays st !! o = Some l -> NoDup l.
Proof.
  intros Hpre. apply (run_invariant tidy_locks serve_tidy _ _ _ tidy_empty Hpre).
Qed.

(** X8.  A request without an identified user (no token, or a token with an
    empty id) is answered 401 Unauthorized by every route of the two
    routers and leaves every store as it was; registration alone asks for
    no user. *)
Theorem unidentified_request_refused u r st :
  user_of u = None ->
  (forall known, r <> PostRegister known) ->
  serve u r st = Some ({| code := 401; body := Message "Unauthorized" |}, st).
Proof.
  intros Hu Hr.
  pose proof (user_with_role_of "individual" u Hu) as Hi.
  pose proof (user_with_role_of "organization" u Hu) as Ho.
  destruct r as [|data|start end_|date|date slots|date locked|data|id status|id|known];
    simpl; try (exfalso; eapply Hr; reflexivity);
    unfold getSettings, putSettings, getSlotStatus, getSlots, putSlots, putLockedDay,
      postAppointment, patchAppointmentStatus, postCancel;
    rewrite ?Hu, ?Hi, ?Ho; reflexivity.
Qed.

(** X9.  On every store reached from the empty one, every request is served
    to completion: the slot generator, which loops forever when its time
    does not advance, always ends there. *)
Theorem reachable_store_answers pre st u r :
  run pre empty_store = Some st ->
  exists resp st', serve u r st = Some (resp, st').
Proof.
  intros Hpre.
  destruct (serve_total u r st) as [[resp st'] Hs]; [|eauto].
  eapply run_valid; [apply valid_empty | eassumption].
Qed.

(** X10.  Every settings value held by a reachable store has
    15 <= slotDuration <= 120 and 0 <= breakBetweenSlots <= 60. *)
Theorem stored_settings_within_bounds pre st o s :
  run pre empty_store = Some st ->
  settings st !! o = Some s ->
  ((Qc_of_Z 15 <= slotDuration s)%Qc /\ (slotDuration s <= Qc_of_Z 120)%Qc)
  /\ ((Qc_of_Z 0 <= breakBetweenSlots s)%Qc /\ (breakBetweenSlots s <= Qc_of_Z 60)%Qc).
Proof.
  intros Hpre Hs.
  assert (Hv : validSettings s = true)
    by (eapply run_valid; [apply valid_empty | eassumption | eassumption]).
  apply validSettings_bounds. assumption.
Qed.


(** X12.  Settings written are settings read.  A PUT /settings whose body
    passes the schema is answered 200 with the body, and GET /settings by
    the same user then returns that body and changes nothing.  The update
    keeps the organization's locked days when it had settings before,
    leaves the settings and locked days of every other organization
    alone, and touches neither the appointments nor the booked-slots
    index. *)
Theorem settings_read_back u o data st :
  user_of u = Some o ->
  validSettings data = true ->
  exists st',
    putSettings u data st = Some ({| code := 200; body := SettingsBody data |}, st')
    /\ getSettings u st' = Some ({| code := 200; body := SettingsBody data |}, st')
    /\ (is_Some (settings st !! o) -> lockedDays st' = lockedDays st)
    /\ (forall other, other <> o ->
          settings st' !! other = settings st !! other
          /\ lockedDays st' !! other = lockedDays st !! other)
    /\ bookings_same st st'.
Proof.
  intros Hu Hv. unfold putSettings, getSettings. rewrite Hu, Hv. unfold_M. simpl.
  case_bool_decide as Hset; simpl; eexists; (split; [reflexivity|]); simpl;
    rewrite lookup_insert_eq; (split; [reflexivity|]).
  - split; [intros [x Hx]; congruence|].
    split; [|repeat split; auto].
    intros other Hne. rewrite !lookup_insert_ne by congruence. auto.
  - split; [reflexivity|].
    split; [|repeat split; auto].
    intros other Hne. rewrite !lookup_insert_ne by congruence. auto.
Qed.

Lemma getSlots_locked u o date st slots locked st' l :
  user_of u = Some o ->
  lockedDays st !! o = Some l ->
  getSlots u date st = Some ({| code := 200; body := SlotsBody slots locked |}, st') ->
  locked = includes l date.
Proof.
  intros Hu Hl. unfold getSlots. rewrite Hu. unfold_M. simpl. rewrite Hl.
  intros Hrun. repeat case_match; simplify_eq; reflexivity.
Qed.

(** X13.  The lock flag is read back.  After PUT /locked-days/[date] with
    [isLocked = b] answered 200, [date] is among the organization's locked
    days exactly when [b] is true, every other date is locked exactly when
    it was, and a day read of [date] that answers 200 reports
    [isLocked = b]. *)
Theorem locked_flag_read_back u o date b st st' :
  user_of u = Some o ->
  putLockedDay u date b st
  = Some ({| code := 200; body := LockedBody date b |}, st') ->
  exists l l',
    lockedDays st !! o = Some l /\ lockedDays st' !! o = Some l'
    /\ includes l' date = b
    /\ (forall d, d <> date -> includes l' d = includes l d)
    /\ (forall slots locked st'',
          getSlots u date st'
          = Some ({| code := 200; body := SlotsBody slots locked |}, st'') ->
          locked = b).
Proof.
  intros Hu Hrun.
  assert (Hmain : exists l l',
    lockedDays st !! o = Some l /\ lockedDays st' !! o = Some l'
    /\ includes l' date = b
    /\ (forall d, d <> date -> includes l' d = includes l d)).
  { revert Hrun. unfold putLockedDay. rewrite Hu. unfold_M. simpl.
    destruct (lockedDays st !! o) as [l|] eqn:Hl; [|discriminate].
    destruct b.
    - destruct (includes l date) eqn:Hin; simpl; intros [= <-].
      + exists l, l. auto.
      + exists l, (l ++ [date]). simpl. rewrite lookup_insert_eq.
        repeat split; auto.
        * unfold includes. apply bool_decide_eq_true_2, elem_of_app. right.
          apply list_elem_of_here.
        * intros d Hne. unfold includes. apply bool_decide_ext.
          rewrite elem_of_app, list_elem_of_singleton. tauto.
    - simpl. intros [= <-]. exists l, (filter (fun d => d <> date) l). simpl.
      rewrite lookup_insert_eq. repeat split; auto.
      + unfold includes. apply bool_decide_eq_false_2.
        rewrite list_elem_of_filter. tauto.
      + intros d Hne. unfold includes. apply bool_decide_ext.
        rewrite list_elem_of_filter. tauto. }
  destruct Hmain as (l & l' & Hl & Hl' & Hin & Hother).
  exists l, l'. repeat split; auto.
  intros slots locked st'' Hread.
  rewrite (getSlots_locked _ _ _ _ _ _ _ _ Hu Hl' Hread). assumption.
Qed.

(** X14.  Slots stored are slots read, for an organization and a date
    whose names are not inherited from [Object.prototype].  After PUT
    /slots/[date] answered 200, the cache holds the given slots for [date]
    and what it held for every other date; GET /slots/[date] then answers
    200 with those slots, identifiers included, the booked ones marked
    unavailable, and changes nothing.  (Under an inherited name, as
    [constructor], the day read finds the inherited value where it looks
    for bookings, and fails.) *)
Theorem stored_slots_read_back u o date slots locked st st' :
  user_of u = Some o ->
  inherited o = false ->
  inherited date = false ->
  putSlots u date (Some slots) st
  = Some ({| code := 200; body := DaySlotsBody date slots locked |}, st') ->
  cached st' o date = Some slots
  /\ (forall d, d <> date -> cached st' o d = cached st o d)
  /\ getSlots u date st'
     = Some ({| code := 200;
                body := SlotsBody
                          match bookedSlots st' !! date with
                          | Some entry => map (markBooked (BookedEntry.timeSlots entry)) slots
                          | None => slots
                          end locked |}, st').
Proof.
  intros Hu _ _. unfold putSlots, getSlots, cached. rewrite Hu. unfold_M. simpl.
  destruct (timeSlots st !! o) as [cache|] eqn:Hc; [|discriminate]. simpl.
  destruct (lockedDays st !! o) as [l|] eqn:Hl; [|discriminate]. simpl.
  intros [= <- <-]. simpl. rewrite !lookup_insert_eq. simpl. rewrite lookup_insert_eq.
  rewrite Hl. split; [reflexivity|]. split; [|reflexivity].
  intros d Hne. rewrite lookup_insert_ne by congruence. reflexivity.
Qed.


(** *** The status read and the cache *)

Lemma markBooked_idem B s : markBooked B (markBooked B s) = markBooked B s.
Proof.
  unfold markBooked. destruct (isBooked B s) eqn:E; [|rewrite E; reflexivity].
  unfold isBooked in *. simpl. rewrite E. reflexivity.
Qed.

Lemma set_timeSlots_id f st : f (timeSlots st) = timeSlots st -> set_timeSlots f st = st.
Proof. destruct st. unfold set_timeSlots. simpl. intros ->. reflexivity. Qed.

(** A day's slots in the answer are the ones left in the cache, booked
    ones marked. *)
Lemma reconcileDay_exact o d st l st' :
  reconcileDay o d st = Some (Ok l, st') ->
  exists cache,
    timeSlots st !! o = Some cache
    /\ timeSlots st' = <[o := <[d := l]> cache]> (timeSlots st)
    /\ (forall entry, bookedSlots st !! d = Some entry ->
          map (markBooked (BookedEntry.timeSlots entry)) l = l).
Proof.
  unfold reconcileDay. unfold_M. simpl.
  destruct (timeSlots st !! o) as [cache|] eqn:Hc; [|discriminate].
  destruct (cache !! d) as [c|] eqn:Hd; simpl.
  - destruct (bookedSlots st !! d) as [e|] eqn:Hb; simpl; intros [= <- <-];
      exists cache; (split; [reflexivity|]); simpl.
    + split; [reflexivity|]. intros entry [= <-]. rewrite map_map.
      apply map_ext. intros x. apply markBooked_idem.
    + split; [|discriminate].
      rewrite (insert_id cache d c Hd). rewrite insert_id; auto.
  - destruct (generate d (settings st !! o) st) as [[[slots|msg] st1]|] eqn:Hg;
      simpl; try discriminate.
    apply generate_effect in Hg.
    destruct (bookedSlots st !! d) as [e|] eqn:Hb; simpl; intros [= <- <-];
      exists cache; (split; [reflexivity|]); simpl; rewrite Hg; simpl.
    + rewrite insert_insert_eq. split; [reflexivity|]. intros entry [= <-]. rewrite map_map.
      apply map_ext. intros x. apply markBooked_idem.
    + split; [reflexivity | discriminate].
Qed.

Lemma statusOfDay_exact o d st ds st' :
  statusOfDay o d st = Some (Ok ds, st') ->
  status_frame o st st'
  /\ exists cache l locked,
       timeSlots st !! o = Some cache
       /\ timeSlots st' = <[o := <[d := l]> cache]> (timeSlots st)
       /\ (forall entry, bookedSlots st !! d = Some entry ->
             map (markBooked (BookedEntry.timeSlots entry)) l = l)
       /\ lockedDays st !! o = Some locked
       /\ ds = dayStatus locked d l.
Proof.
  intros Hrun. split; [eapply statusOfDay_effect; eauto|].
  unfold statusOfDay in Hrun.
  apply bind_inv in Hrun as [(l & st1 & Hrec & Hrun) | (e & _ & Hx)]; [|discriminate].
  pose proof (reconcileDay_effect _ _ _ _ _ Hrec) as [(_ & Hl & _) _].
  apply reconcileDay_exact in Hrec as (cache & Hc & Ht & Hm).
  revert Hrun. unfold_M. simpl. rewrite Hl.
  destruct (lockedDays st !! o) as [locked|] eqn:Hlocked; [|discriminate].
  intros [= <- <-]. exists cache, l, locked. auto.
Qed.

Lemma forEachDay_exact o days :
  forall acc st m st',
    forEachDay o days acc st = Some (Ok m, st') ->
    status_frame o st st'
    /\ (forall d, d ∉ days -> m !! d = acc !! d /\ cached st' o d = cached st o d)
    /\ (forall d, d ∈ days ->
          exists l locked,
            lockedDays st !! o = Some locked
            /\ m !! d = Some (dayStatus locked d l)
            /\ cached st' o d = Some l
            /\ (forall entry, bookedSlots st !! d = Some entry ->
                  map (markBooked (BookedEntry.timeSlots entry)) l = l)).
Proof.
  induction days as [|d0 rest IH]; intros acc st m st' Hrun; simpl in Hrun.
  - injection Hrun as <- <-. split; [apply status_frame_refl|]. split; [auto|].
    intros d Hd. inversion Hd.
  - apply bind_inv in Hrun as [(s & st1 & Hday & Hrun) | (e & _ & Hx)]; [|discriminate].
    apply statusOfDay_exact in Hday
      as (Hf1 & cache & l0 & locked & Hc & Ht & Hm & Hlocked & ->).
    destruct (IH _ _ _ _ Hrun) as (Hf2 & Hout & Hin).
    split; [eapply status_frame_trans; eauto|].
    pose proof Hf1 as (_ & Hl1 & Hb1 & _).
    assert (Hother : forall d, d <> d0 -> cached st1 o d = cached st o d).
    { intros d Hne. unfold cached. rewrite Ht, lookup_insert_eq, Hc. simpl.
      rewrite lookup_insert_ne by congruence. reflexivity. }
    assert (Hown : cached st1 o d0 = Some l0).
    { unfold cached. rewrite Ht, lookup_insert_eq. simpl. apply lookup_insert_eq. }
    split.
    + intros d Hd. apply not_elem_of_cons in Hd as [Hne Hd].
      destruct (Hout d Hd) as [Hmd Hcd].
      rewrite Hmd, Hcd, lookup_insert_ne by congruence. auto.
    + intros d Hd. destruct (decide (d ∈ rest)) as [Hr|Hr].
      * destruct (Hin d Hr) as (l & locked' & Hl' & Hmd & Hcd & Hmark).
        exists l, locked'. rewrite <- Hl1, <- Hb1. auto.
      * apply elem_of_cons in Hd as [-> | Hd]; [|contradiction].
        destruct (Hout d0 Hr) as [Hmd Hcd].
        exists l0, locked. rewrite Hmd, Hcd, lookup_insert_eq. auto.
Qed.

(** On a store whose cache holds the days, booked slots marked, a round
    of days writes nothing. *)
Lemma statusOfDay_settled o d st l locked :
  cached st o d = Some l ->
  (forall entry, bookedSlots st !! d = Some entry ->
     map (markBooked (BookedEntry.timeSlots entry)) l = l) ->
  lockedDays st !! o = Some locked ->
  statusOfDay o d st = Some (Ok (dayStatus locked d l), st).
Proof.
  unfold cached. intros Hc Hm Hl.
  destruct (timeSlots st !! o) as [cache|] eqn:Hcache; [|discriminate]. simpl in Hc.
  unfold statusOfDay, reconcileDay. unfold_M. simpl. rewrite Hcache, Hc. simpl.
  destruct (bookedSlots st !! d) as [e|] eqn:Hb; simpl.
  - rewrite (Hm e eq_refl). rewrite set_timeSlots_id.
    + rewrite Hl. reflexivity.
    + rewrite (insert_id cache d l Hc). apply insert_id. assumption.
  - rewrite Hl. reflexivity.
Qed.

Lemma forEachDay_settled o days st locked :
  lockedDays st !! o = Some locked ->
  (forall d, d ∈ days ->
     exists l, cached st o d = Some l
               /\ (forall entry, bookedSlots st !! d = Some entry ->
                     map (markBooked (BookedEntry.timeSlots entry)) l = l)) ->
  forall acc, exists m, forEachDay o days acc st = Some (Ok m, st).
Proof.
  intros Hl. induction days as [|d0 rest IH]; intros Hall acc; simpl; [eexists; reflexivity|].
  destruct (Hall d0) as (l & Hc & Hm); [apply list_elem_of_here|].
  unfold mbind, M_bind. rewrite (statusOfDay_settled _ _ _ _ _ Hc Hm Hl).
  apply IH. intros d Hd. apply Hall. apply list_elem_of_further. assumption.
Qed.

(** What a status read that answers 200 has run. *)
Lemma getSlotStatus_ran u o start end_ days statuses st st' :
  user_of u = Some o ->
  getSlotStatus u (Some start) (Some end_) st
  = Some ({| code := 200; body := StatusesBody statuses |}, st') ->
  eachDay start end_ = Some days ->
  start <> "" /\ end_ <> ""
  /\ exists st0,
       ensureStores o st = Some (Ok tt, st0)
       /\ forEachDay o days ∅ st0 = Some (Ok statuses, st').
Proof.
  intros Hu Hrun Hdays. unfold getSlotStatus in Hrun. rewrite Hu in Hrun. simpl in Hrun.
  destruct (String.eqb_spec start ""); [discriminate|].
  destruct (String.eqb_spec end_ ""); [discriminate|].
  split; [assumption|]. split; [assumption|].
  destruct (ensureStores_stores o st) as (st0 & Hens & _).
  exists st0. split; [assumption|].
  apply handler_inv in Hrun as [Hrun | (e & Hrun & Hresp)]; [|discriminate].
  apply bind_inv in Hrun as [(t & st1 & Hens' & Hrun) | (e' & Hens' & Hx)]; [|discriminate].
  assert (st1 = st0) as -> by congruence.
  rewrite Hdays in Hrun.
  apply bind_inv in Hrun as [(m & st2 & Hfor & Hrun) | (e' & Hfor & Hx)]; [|discriminate].
  injection Hrun as -> <-. assumption.
Qed.

Lemma ensureStores_present o st st0 :
  ensureStores o st = Some (Ok tt, st0) ->
  is_Some (settings st0 !! o) /\ is_Some (timeSlots st0 !! o).
Proof.
  unfold ensureStores. unfold_M. simpl.
  case_bool_decide as Hset; simpl.
  - rewrite lookup_insert_eq. rewrite bool_decide_eq_false_2 by discriminate.
    intros [= <-]. simpl. rewrite !lookup_insert_eq. eauto.
  - case_bool_decide as Hcache; simpl; intros [= <-]; simpl.
    + rewrite lookup_insert_eq. split; [|eauto].
      destruct (settings st !! o); [eauto | contradiction].
    + split; [destruct (settings st !! o) | destruct (timeSlots st !! o)];
        eauto; contradiction.
Qed.

Lemma ensureStores_settled o st :
  is_Some (settings st !! o) -> is_Some (timeSlots st !! o) ->
  ensureStores o st = Some (Ok tt, st).
Proof.
  intros [x Hx] [y Hy]. unfold ensureStores. unfold_M. simpl.
  rewrite bool_decide_eq_false_2 by congruence. simpl.
  rewrite bool_decide_eq_false_2 by congruence. reflexivity.
Qed.

(** X15.  A status answer has one entry for each day of the range and no
    other.  Each entry counts the slots the cache holds for that day after
    the read: [totalSlots] of them, [availableSlots] of them available,
    never more than [totalSlots]; [isLocked] tells whether the day is among
    the locked days. *)
Theorem status_answer_covers_range u o start end_ days statuses st st' :
  user_of u = Some o ->
  getSlotStatus u (Some start) (Some end_) st
  = Some ({| code := 200; body := StatusesBody statuses |}, st') ->
  eachDay start end_ = Some days ->
  (forall d, is_Some (statuses !! d) <-> d ∈ days)
  /\ (forall d ds,
        statuses !! d = Some ds ->
        (availableSlots ds <= totalSlots ds)%nat
        /\ exists l locked,
             cached st' o d = Some l /\ lockedDays st' !! o = Some locked
             /\ ds = dayStatus locked d l).
Proof.
  intros Hu Hrun Hdays.
  destruct (getSlotStatus_ran _ _ _ _ _ _ _ _ Hu Hrun Hdays)
    as (_ & _ & st0 & Hens & Hfor).
  destruct (forEachDay_exact _ _ _ _ _ _ Hfor) as ((_ & Hl & _) & Hout & Hin).
  assert (Hkeys : forall d, is_Some (statuses !! d) <-> d ∈ days).
  { intros d. split.
    - intros [ds Hds]. destruct (decide (d ∈ days)) as [Hd|Hd]; [assumption|].
      destruct (Hout d Hd) as [Hmd _]. rewrite Hmd, lookup_empty in Hds. discriminate.
    - intros Hd. destruct (Hin d Hd) as (l & locked & _ & Hmd & _). eauto. }
  split; [assumption|].
  intros d ds Hds.
  destruct (Hin d) as (l & locked & Hlocked & Hmd & Hc & _); [apply Hkeys; eauto|].
  assert (ds = dayStatus locked d l) as -> by congruence.
  split; [simpl; apply filter_length_le|].
  exists l, locked. rewrite Hl. auto.
Qed.

(** X16.  The status read that follows a status read answered 200, for the
    same range, gives the same answer and leaves the store exactly as the
    first left it. *)
Theorem status_read_twice u o start end_ days statuses st st' :
  user_of u = Some o ->
  getSlotStatus u (Some start) (Some end_) st
  = Some ({| code := 200; body := StatusesBody statuses |}, st') ->
  eachDay start end_ = Some days ->
  getSlotStatus u (Some start) (Some end_) st'
  = Some ({| code := 200; body := StatusesBody statuses |}, st').
Proof.
  intros Hu Hrun Hdays.
  destruct (getSlotStatus_ran _ _ _ _ _ _ _ _ Hu Hrun Hdays)
    as (Hs & He & st0 & Hens & Hfor).
  destruct (forEachDay_exact _ _ _ _ _ _ Hfor) as (Hf & Hout & Hin).
  pose proof Hf as (Hset & Hl & Hb & _ & _ & _ & Hown & _).
  destruct (ensureStores_present _ _ _ Hens) as [Hs0 Ht0].
  unfold getSlotStatus. rewrite Hu. simpl.
  destruct (String.eqb_spec start ""); [contradiction|].
  destruct (String.eqb_spec end_ ""); [contradiction|].
  unfold handler, mbind, M_bind.
  rewrite ensureStores_settled; [|rewrite Hset; assumption | auto].
  rewrite Hdays.
  destruct days as [|d0 rest].
  - simpl in Hfor. injection Hfor as <- <-. reflexivity.
  - destruct (Hin d0) as (l0 & locked & Hlocked & _); [apply list_elem_of_here|].
    destruct (forEachDay_settled o (d0 :: rest) st' locked) with (acc := (∅ : gmap string DayStatus))
      as (m & Hagain).
    { rewrite Hl. assumption. }
    { intros d Hd. destruct (Hin d Hd) as (l & locked' & _ & _ & Hc & Hm).
      exists l. rewrite Hb. auto. }
    rewrite Hagain. unfold respond, mret, M_ret.
    destruct (forEachDay_exact _ _ _ _ _ _ Hagain) as (_ & Hout' & Hin').
    assert (m = statuses) as ->; [|reflexivity].
    apply map_eq. intros d. destruct (decide (d ∈ d0 :: rest)) as [Hd|Hd].
    + destruct (Hin d Hd) as (l & locked1 & Hl1 & Hmd & Hc & _).
      destruct (Hin' d Hd) as (l' & locked2 & Hl2 & Hmd' & Hc' & _).
      rewrite Hmd, Hmd'. rewrite Hl in Hl2. congruence.
    + destruct (Hout d Hd) as [-> _]. destruct (Hout' d Hd) as [-> _]. reflexivity.
Qed.

(** X17.  After a status read answered 200, a day read of any date of its
    range answers 200 with the slots the cache now holds, draws no
    identifier and changes nothing; it shows as many slots, as many
    available ones and the same lock flag as the status entry of that
    date. *)
Theorem day_read_agrees_with_status u o start end_ days statuses st st' d :
  user_of u = Some o ->
  getSlotStatus u (Some start) (Some end_) st
  = Some ({| code := 200; body := StatusesBody statuses |}, st') ->
  eachDay start end_ = Some days ->
  d ∈ days ->
  exists ds slots,
    statuses !! d = Some ds
    /\ getSlots u d st'
       = Some ({| code := 200; body := SlotsBody slots (isLocked ds) |}, st')
    /\ cached st' o d = Some slots
    /\ length slots = totalSlots ds
    /\ length (List.filter TimeSlot.isAvailable slots) = availableSlots ds.
Proof.
  intros Hu Hrun Hdays Hd.
  destruct (getSlotStatus_ran _ _ _ _ _ _ _ _ Hu Hrun Hdays)
    as (_ & _ & st0 & Hens & Hfor).
  destruct (forEachDay_exact _ _ _ _ _ _ Hfor) as ((_ & Hl & Hb & _) & Hout & Hin).
  destruct (Hin d Hd) as (l & locked & Hlocked & Hmd & Hc & Hm).
  exists (dayStatus locked d l), l. split; [assumption|].
  split; [|auto].
  unfold getSlots. rewrite Hu. unfold_M. simpl. rewrite Hc. simpl.
  rewrite Hl, Hlocked. rewrite Hb.
  destruct (bookedSlots st0 !! d) as [e|] eqn:Hbd; [rewrite (Hm e eq_refl)|]; reflexivity.
Qed.

End OrganizationExtras.

(** ** More of the appointment routes *)

Section AppointmentExtras.
Context `{Platform}.

Lemma generateTimeSlots_drawn date s u slots n :
  generateTimeSlots date s u = Some (Ok (slots, n)) -> (u <= n)%nat.
Proof.
  unfold generateTimeSlots, generateTimeSlots_with.
  destruct (dayOfWeek date) as [w|]; [|discriminate].
  destruct (find_day _ _) as [h|]; [|intros [= _ <-]; lia].
  destruct (negb _); [intros [= _ <-]; lia|].
  destruct (Clock.parse (BusinessHours.start h)) as [a|];
    destruct (Clock.parse (BusinessHours.end_ h)) as [b|];
    try (destruct strictIntervals; [discriminate | intros [= _ <-]; lia]).
  intros Hrun.
  destruct (gen_loop_ids _ _ _ _ _ _ [] u u slots n eq_refl (eq_sym (Nat.add_0_r u)) Hrun)
    as [_ ->]. lia.
Qed.

Lemma generate_grows date s st r st' :
  generate date s st = Some (r, st') -> (drawn st <= drawn st')%nat.
Proof.
  unfold generate. intros Hg.
  destruct s as [x|]; [|repeat case_match; simplify_eq; lia].
  destruct (generateTimeSlots date x (drawn st)) as [[[slots n]|msg]|] eqn:Hgen;
    simplify_eq; simpl; [|lia].
  eapply generateTimeSlots_drawn; eauto.
Qed.

Lemma reconcileDay_grows o d st r st' :
  reconcileDay o d st = Some (r, st') -> (drawn st <= drawn st')%nat.
Proof.
  unfold reconcileDay. unfold_M. simpl. intros Hrun.
  repeat case_match; simplify_eq; simpl; try lia;
    match goal with
    | Hg : generate _ _ _ = Some _ |- _ => apply generate_grows in Hg; assumption
    end.
Qed.

Lemma statusOfDay_grows o d st r st' :
  statusOfDay o d st = Some (r, st') -> (drawn st <= drawn st')%nat.
Proof.
  unfold statusOfDay. intros Hrun.
  apply bind_inv in Hrun as [(l & st1 & Hrec & Hrun) | (e & Hrec & _)];
    apply reconcileDay_grows in Hrec; [|assumption].
  revert Hrun. unfold_M. simpl. intros Hrun. repeat case_match; simplify_eq; assumption.
Qed.

Lemma forEachDay_grows o days :
  forall acc st r st',
    forEachDay o days acc st = Some (r, st') -> (drawn st <= drawn st')%nat.
Proof.
  induction days as [|d0 rest IH]; intros acc st r st' Hrun; simpl in Hrun.
  - injection Hrun as _ <-. lia.
  - apply bind_inv in Hrun as [(s & st1 & Hday & Hrun) | (e & Hday & _)];
      apply statusOfDay_grows in Hday; [|assumption].
    apply IH in Hrun. lia.
Qed.

Lemma bookings_same_refl st : bookings_same st st.
Proof. repeat split; auto. Qed.

(** The routes of [organizations.ts] and registration leave the
    appointments and the index alone. *)
Lemma organization_request_bookings u r st resp st' :
  match r with
  | PostAppointment _ | PatchAppointmentStatus _ _ | PostCancel _ => False
  | _ => True
  end ->
  serve u r st = Some (resp, st') -> bookings_same st st'.
Proof.
  intros Hr Hrun.
  destruct r as [|data|start end_|date|date slots|date locked|data|id status|id|known];
    try contradiction; simpl in Hrun.
  - unfold getSettings in Hrun. unfold_M. simpl in Hrun.
    repeat case_match; simplify_eq; repeat split; simpl; auto.
  - unfold putSettings in Hrun. unfold_M. simpl in Hrun.
    repeat case_match; simplify_eq; repeat split; simpl; auto.
  - unfold getSlotStatus in Hrun.
    destruct (user_of u) as [o|]; [|injection Hrun as _ <-; apply bookings_same_refl].
    destruct (present start) as [a|]; [|injection Hrun as _ <-; apply bookings_same_refl].
    destruct (present end_) as [b|]; [|injection Hrun as _ <-; apply bookings_same_refl].
    destruct (ensureStores_stores o st) as (st0 & Hens & Ha & Hb & Hr0 & Hd & _).
    assert (Hfinish : forall stx, status_frame o st0 stx -> (drawn st0 <= drawn stx)%nat ->
                                  bookings_same st stx).
    { intros stx (_ & _ & Hbx & Hax & Hrx & _) Hdx. unfold bookings_same.
      rewrite Hax, Hbx, Hrx, <- Hd. auto. }
    apply handler_inv in Hrun as [Hrun | (e & Hrun & _)];
      apply bind_inv in Hrun as [(x & st1 & Hens' & Hrun) | (e' & Hens' & _)];
      try congruence;
      assert (st1 = st0) as -> by congruence;
      (destruct (eachDay a b) as [days|];
        [| injection Hrun as _ <-; apply Hfinish; [apply status_frame_refl | lia]]);
      apply bind_inv in Hrun as [(m & st2 & Hdays & Hrun) | (e' & Hdays & _)];
      try (injection Hrun as _ <-);
      (apply Hfinish; [eapply forEachDay_effect | eapply forEachDay_grows]; eauto).
  - unfold getSlots in Hrun. unfold_M. simpl in Hrun.
    repeat case_match; simplify_eq; try apply bookings_same_refl;
      match goal with
      | Hg : generate _ _ _ = Some _ |- _ =>
          pose proof (generate_grows _ _ _ _ _ Hg);
          apply generate_effect in Hg; rewrite Hg; repeat split; simpl; auto
      end.
  - unfold putSlots in Hrun. unfold_M. simpl in Hrun.
    repeat case_match; simplify_eq; repeat split; simpl; auto.
  - unfold putLockedDay in Hrun. unfold_M. simpl in Hrun.
    repeat case_match; simplify_eq; repeat split; simpl; auto.
  - unfold postRegister in Hrun. unfold_M. simpl in Hrun.
    destruct known; simplify_eq; repeat split; simpl; auto.
Qed.


Lemma valid_dateKey data :
  validAppointment data = true -> is_Some (dateKey (body_date data)).
Proof.
  unfold validAppointment. intros Hv.
  do 3 (apply andb_true_iff in Hv as [Hv _]).
  apply andb_true_iff in Hv as [_ Hv]. apply bool_decide_eq_true in Hv. assumption.
Qed.

(** POST /: the store is as it was, or the booking is added. *)
Lemma postAppointment_cases u data st resp st' :
  postAppointment u data st = Some (resp, st') ->
  (st' = st /\ (code resp = 401 \/ code resp = 400))
  \/ exists userId dateStr a entry',
       user_with_role "individual" u = Some userId
       /\ validAppointment data = true
       /\ dateKey (body_date data) = Some dateStr
       /\ a = Appointment.mk (uuidv4 (drawn st)) (body_organizationId data)
               "Organization Name" userId (body_date data) (body_timeSlot data)
               pending (body_notes data) (randomNumber (rolled st))
       /\ resp = {| code := 201; body := AppointmentBody a |}
       /\ appointments st' = appointments st ++ [a]
       /\ drawn st' = S (drawn st) /\ rolled st' = S (rolled st)
       /\ (forall d, d <> dateStr -> bookedSlots st' !! d = bookedSlots st !! d)
       /\ bookedSlots st' !! dateStr = Some entry'
       /\ BookedEntry.timeSlots entry'
          = match bookedSlots st !! dateStr with
            | Some old => BookedEntry.timeSlots old
            | None => []
            end ++ [body_timeSlot data]
       /\ body_timeSlot data ∉ match bookedSlots st !! dateStr with
                               | Some old => BookedEntry.timeSlots old
                               | None => []
                               end.
Proof.
  intros Hrun. unfold postAppointment in Hrun.
  destruct (user_with_role "individual" u) as [userId|] eqn:Hu;
    [|injection Hrun as <- <-; left; simpl; auto].
  destruct (validAppointment data) eqn:Hv; simpl in Hrun;
    [|injection Hrun as <- <-; left; simpl; auto].
  destruct (valid_dateKey _ Hv) as [dateStr Hkey]. rewrite Hkey in Hrun.
  unfold_M. simpl in Hrun.
  destruct (bookedSlots st !! dateStr) as [old|] eqn:Hold; simpl in Hrun.
  - destruct (List.find _ _) eqn:Hfind; [injection Hrun as <- <-; left; simpl; auto|].
    right. injection Hrun as <- <-. simpl.
    exists userId, dateStr. eexists. eexists.
    do 8 (split; [first [assumption | reflexivity]|]). simpl.
    split; [intros d Hne; apply lookup_alter_ne; congruence|].
    split; [rewrite lookup_alter_eq, Hold; reflexivity|]. simpl. rewrite Hold.
    split; [destruct (body_timeSlot data); reflexivity|].
    intros Hin. apply find_sameInterval in Hin as [x Hx]. congruence.
  - right. injection Hrun as <- <-. simpl.
    exists userId, dateStr. eexists. eexists.
    do 8 (split; [first [assumption | reflexivity]|]). simpl.
    split; [intros d Hne; rewrite lookup_alter_ne, lookup_insert_ne by congruence; reflexivity|].
    split; [rewrite lookup_alter_eq, lookup_insert_eq; reflexivity|]. simpl. rewrite Hold.
    split; [destruct (body_timeSlot data); reflexivity|].
    apply not_elem_of_nil.
Qed.

Lemma removeBookedSlot_cases a st r st' :
  removeBookedSlot a st = Some (r, st') ->
  appointments st' = appointments st /\ drawn st' = drawn st /\ rolled st' = rolled st
  /\ match dateKey (Appointment.date a) with
     | None => bookedSlots st' = bookedSlots st /\ exists e, r = Throw e
     | Some d => r = Ok tt /\ unbooked a d (bookedSlots st) (bookedSlots st')
     end.
Proof.
  unfold removeBookedSlot, unbooked.
  destruct (dateKey (Appointment.date a)) as [d|]; unfold_M; simpl.
  - destruct (bookedSlots st !! d) as [entry|] eqn:Hd.
    + destruct (length _ =? 0)%nat eqn:Hlen; intros [= <- <-]; simpl;
        (do 3 (split; [reflexivity|])); (split; [reflexivity|]); split.
      * intros d' Hne. apply lookup_delete_ne. congruence.
      * apply lookup_delete_eq.
      * intros d' Hne. apply lookup_insert_ne. congruence.
      * apply lookup_insert_eq.
    + intros [= <- <-]. do 3 (split; [reflexivity|]). split; [reflexivity|].
      split; [reflexivity | assumption].
  - intros [= <- <-]. repeat split; eauto.
Qed.

Lemma patchAppointmentStatus_cases u id status st resp st' :
  patchAppointmentStatus u id status st = Some (resp, st') ->
  (st' = st /\ (code resp = 401 \/ code resp = 400 \/ code resp = 404))
  \/ exists userId i found,
       user_with_role "organization" u = Some userId
       /\ status <> pending
       /\ list_find (fun apt => Appointment.id apt = id
                                ∧ Appointment.organizationId apt = userId)
            (appointments st) = Some (i, found)
       /\ status_changed i found status "Failed to update appointment status" st st' resp.
Proof.
  intros Hrun. unfold patchAppointmentStatus in Hrun.
  destruct (user_with_role "organization" u) as [userId|] eqn:Hu;
    [|injection Hrun as <- <-; left; simpl; auto].
  case_bool_decide as Hp; [injection Hrun as <- <-; left; simpl; auto|].
  unfold handler in Hrun. unfold mbind, M_bind, get_store in Hrun.
  destruct (list_find _ (appointments st)) as [[i found]|] eqn:Hfind;
    [|injection Hrun as <- <-; left; simpl; auto].
  right. exists userId, i, found. do 3 (split; [first [assumption | reflexivity]|]).
  apply list_find_Some in Hfind as (Hi & _).
  unfold status_changed. split; [assumption|].
  unfold modify in Hrun.
  case_bool_decide as Hc.
  - destruct (removeBookedSlot _ _) as [[[[]|e] st1]|] eqn:Hrem; [| |discriminate];
      apply removeBookedSlot_cases in Hrem as (Ha & Hd & Hr & Hrem); simpl in Hrem;
      destruct (dateKey (Appointment.date found)) as [d|];
      try (destruct Hrem as [? [? ?]]; discriminate); try (destruct Hrem as [? ?]; discriminate);
      unfold respond, mret, M_ret in Hrun; injection Hrun as <- <-;
      rewrite Ha, Hd, Hr; simpl; repeat split; try reflexivity; try apply Hrem.
  - unfold respond, mret, M_ret in Hrun. injection Hrun as <- <-. simpl. repeat split.
Qed.

Lemma postCancel_cases u id st resp st' :
  postCancel u id st = Some (resp, st') ->
  (st' = st /\ (code resp = 401 \/ code resp = 400 \/ code resp = 404))
  \/ exists userId i found,
       user_with_role "individual" u = Some userId
       /\ Appointment.status found <> cancelled
       /\ list_find (fun apt => Appointment.id apt = id
                                ∧ Appointment.individualId apt = userId)
            (appointments st) = Some (i, found)
       /\ status_changed i found cancelled "Failed to cancel appointment" st st' resp.
Proof.
  intros Hrun. unfold postCancel in Hrun.
  destruct (user_with_role "individual" u) as [userId|] eqn:Hu;
    [|injection Hrun as <- <-; left; simpl; auto].
  unfold handler in Hrun. unfold mbind, M_bind, get_store in Hrun.
  destruct (list_find _ (appointments st)) as [[i found]|] eqn:Hfind;
    [|injection Hrun as <- <-; left; simpl; auto].
  case_bool_decide as Hp; [injection Hrun as <- <-; left; simpl; auto|].
  right. exists userId, i, found. do 3 (split; [first [assumption | reflexivity]|]).
  apply list_find_Some in Hfind as (Hi & _).
  unfold status_changed. split; [assumption|].
  unfold modify in Hrun. rewrite bool_decide_eq_true_2 by reflexivity.
  destruct (removeBookedSlot _ _) as [[[[]|e] st1]|] eqn:Hrem; [| |discriminate];
    apply removeBookedSlot_cases in Hrem as (Ha & Hd & Hr & Hrem); simpl in Hrem;
    destruct (dateKey (Appointment.date found)) as [d|];
    try (destruct Hrem as [? [? ?]]; discriminate); try (destruct Hrem as [? ?]; discriminate);
    unfold respond, mret, M_ret in Hrun; injection Hrun as <- <-;
    rewrite Ha, Hd, Hr; simpl; repeat split; try reflexivity; try apply Hrem.
Qed.


(** *** What the appointment stores keep *)

Lemma bookings_ok_same st st' :
  bookings_same st st' -> bookings_ok st -> bookings_ok st'.
Proof.
  intros (Ha & Hb & _ & Hd) (Ht & (Hdates & Hback) & (ks & Hks & Hnd & Hlt)).
  split; [|split].
  - intros d entry. rewrite Hb. apply Ht.
  - split; [rewrite Ha; assumption|].
    intros d entry iv. rewrite Hb, Ha. apply Hback.
  - exists ks. rewrite Ha. split; [assumption|]. split; [assumption|].
    eapply Forall_impl; [exact Hlt|]. simpl. intros k Hk. lia.
Qed.

Lemma bookings_ok_booked st st' userId dateStr a entry' data :
  validAppointment data = true ->
  dateKey (body_date data) = Some dateStr ->
  a = Appointment.mk (uuidv4 (drawn st)) (body_organizationId data)
        "Organization Name" userId (body_date data) (body_timeSlot data)
        pending (body_notes data) (randomNumber (rolled st)) ->
  appointments st' = appointments st ++ [a] ->
  drawn st' = S (drawn st) ->
  (forall d, d <> dateStr -> bookedSlots st' !! d = bookedSlots st !! d) ->
  bookedSlots st' !! dateStr = Some entry' ->
  BookedEntry.timeSlots entry'
  = match bookedSlots st !! dateStr with
    | Some old => BookedEntry.timeSlots old
    | None => []
    end ++ [body_timeSlot data] ->
  body_timeSlot data ∉ match bookedSlots st !! dateStr with
                       | Some old => BookedEntry.timeSlots old
                       | None => []
                       end ->
  bookings_ok st -> bookings_ok st'.
Proof.
  intros Hv Hkey Ha Happs Hdrawn Hother Hentry Hslots Hfresh
    (Ht & (Hdates & Hback) & (ks & Hks & Hnd & Hlt)).
  split; [|split].
  - intros d entry Hd. destruct (decide (d = dateStr)) as [->|Hne].
    + assert (entry = entry') as -> by congruence. rewrite Hslots.
      split; [intros Hnil; apply app_eq_nil in Hnil as [_ Hnil]; discriminate|].
      apply NoDup_app. split; [|split].
      * destruct (bookedSlots st !! dateStr) as [old|] eqn:Hold; [|constructor].
        apply (Ht _ _ Hold).
      * intros x Hx Hx'. apply list_elem_of_singleton in Hx'. subst x. contradiction.
      * apply NoDup_singleton.
    + rewrite Hother in Hd by assumption. apply (Ht _ _ Hd).
  - split.
    + rewrite Happs. apply Forall_app. split; [assumption|].
      constructor; [|constructor]. rewrite Ha. simpl. rewrite Hkey. eauto.
    + intros d entry iv Hd Hiv. rewrite Happs.
      destruct (decide (d = dateStr)) as [->|Hne].
      * assert (entry = entry') as -> by congruence. rewrite Hslots in Hiv.
        apply elem_of_app in Hiv as [Hiv | Hiv].
        -- destruct (bookedSlots st !! dateStr) as [old|] eqn:Hold;
             [|inversion Hiv].
           destruct (Hback _ _ _ Hold Hiv) as (b & Hb & Hrest).
           exists b. split; [apply elem_of_app; auto | assumption].
        -- apply list_elem_of_singleton in Hiv. subst iv.
           exists a. split; [apply elem_of_app; right; apply list_elem_of_here|].
           rewrite Ha. simpl. repeat split; [assumption | discriminate].
      * rewrite Hother in Hd by assumption.
        destruct (Hback _ _ _ Hd Hiv) as (b & Hb & Hrest).
        exists b. split; [apply elem_of_app; auto | assumption].
  - exists (ks ++ [drawn st]). rewrite Happs, !map_app, Hks, Ha. simpl.
    split; [reflexivity|]. split.
    + apply NoDup_app. split; [assumption|]. split; [|apply NoDup_singleton].
      intros k Hk Hk'. apply list_elem_of_singleton in Hk'. subst k.
      rewrite Forall_forall in Hlt. specialize (Hlt _ Hk). simpl in Hlt. lia.
    + rewrite Hdrawn. apply Forall_app. split.
      * eapply Forall_impl; [exact Hlt|]. simpl. intros k Hk. lia.
      * constructor; [lia | constructor].
Qed.

Lemma NoDup_list_filter {A} (f : A -> bool) (l : list A) :
  NoDup l -> NoDup (List.filter f l).
Proof.
  induction 1 as [|x l Hx Hl IH]; simpl; [constructor|].
  destruct (f x); [|assumption]. constructor; [|assumption].
  rewrite list_elem_of_In, filter_In, <- list_elem_of_In. tauto.
Qed.

Lemma kept_elem (a : Appointment.t) (l : list Interval.t) iv :
  iv ∈ List.filter (fun slot =>
          negb (String.eqb (Interval.start slot)
                  (Interval.start (Appointment.timeSlot a)))) l ->
  iv ∈ l /\ Interval.start iv <> Interval.start (Appointment.timeSlot a).
Proof.
  rewrite !list_elem_of_In, filter_In. intros [Hin Hf]. split; [assumption|].
  apply negb_true_iff in Hf. apply String.eqb_neq. assumption.
Qed.

Lemma bookings_ok_status i found status failure st st' resp :
  status_changed i found status failure st st' resp ->
  bookings_ok st -> bookings_ok st'.
Proof.
  intros (Hi & Happs & Hdrawn & _ & Hindex)
    (Ht & (Hdates & Hback) & (ks & Hks & Hnd & Hlt)).
  assert (Hfound : is_Some (dateKey (Appointment.date found))).
  { rewrite Forall_forall in Hdates. apply Hdates. eapply list_elem_of_lookup_2; eauto. }
  destruct Hfound as [d Hd]. rewrite Hd in Hindex.
  assert (Hcases : (status <> cancelled /\ bookedSlots st' = bookedSlots st)
                   \/ (status = cancelled
                       /\ unbooked found d (bookedSlots st) (bookedSlots st'))).
  { case_bool_decide as Hc; [right | left]; split; auto; apply Hindex. }
  clear Hindex.
  split; [|split].
  - destruct Hcases as [[_ Hb] | [_ [Hother Hown]]].
    + intros d' entry. rewrite Hb. apply Ht.
    + intros d' entry Hd'. destruct (decide (d' = d)) as [->|Hne].
      * rewrite Hown in Hd'.
        destruct (bookedSlots st !! d) as [old|] eqn:Hold; [|discriminate].
        simpl in Hd'. destruct (length _ =? 0)%nat eqn:Hlen; [discriminate|].
        injection Hd' as <-. simpl. split.
        -- intros Hnil. rewrite Hnil in Hlen. discriminate.
        -- apply NoDup_list_filter. apply (Ht _ _ Hold).
      * rewrite Hother in Hd' by assumption. apply (Ht _ _ Hd').
  - split.
    + rewrite Happs. apply Forall_insert; [assumption|]. simpl. rewrite Hd. eauto.
    + intros d' entry iv Hd' Hiv.
      assert (Hold : exists b j, appointments st !! j = Some b
                /\ dateKey (Appointment.date b) = Some d'
                /\ Appointment.timeSlot b = iv
                /\ Appointment.status b <> cancelled
                /\ (j = i -> status <> cancelled)).
      { destruct Hcases as [[Hs Hb] | [Hs [Hother Hown]]].
        - rewrite Hb in Hd'. destruct (Hback _ _ _ Hd' Hiv) as (b & Hb' & Hrest).
          apply list_elem_of_lookup in Hb' as [j Hj]. exists b, j. tauto.
        - destruct (decide (d' = d)) as [->|Hne].
          + rewrite Hown in Hd'.
            destruct (bookedSlots st !! d) as [old|] eqn:Hold; [|discriminate].
            simpl in Hd'. destruct (length _ =? 0)%nat eqn:Hlen; [discriminate|].
            injection Hd' as <-. simpl in Hiv. apply kept_elem in Hiv as [Hiv Hstart].
            destruct (Hback _ _ _ Hold Hiv) as (b & Hb' & Hkey & Hslot & Hst).
            apply list_elem_of_lookup in Hb' as [j Hj]. exists b, j.
            repeat split; auto. intros ->. exfalso. apply Hstart.
            assert (b = found) as -> by congruence. rewrite Hslot. reflexivity.
          + rewrite Hother in Hd' by assumption.
            destruct (Hback _ _ _ Hd' Hiv) as (b & Hb' & Hkey & Hslot & Hst).
            apply list_elem_of_lookup in Hb' as [j Hj]. exists b, j.
            repeat split; auto. intros ->. exfalso. apply Hne.
            assert (b = found) as -> by congruence. congruence. }
      destruct Hold as (b & j & Hj & Hkey & Hslot & Hst & Hji).
      rewrite Happs. destruct (decide (j = i)) as [->|Hne].
      * assert (b = found) as -> by congruence.
        exists (Appointment.with_status status found). split.
        -- apply (list_elem_of_lookup_2 _ i). apply list_lookup_insert_eq.
           eapply lookup_lt_Some; eauto.
        -- simpl. repeat split; auto.
      * exists b. split; [|auto].
        apply (list_elem_of_lookup_2 _ j). rewrite list_lookup_insert_ne by congruence. assumption.
  - exists ks. rewrite Happs, Hdrawn. split; [|auto].
    rewrite <- Hks. change (Appointment.id <$> <[i:=Appointment.with_status status found]> (appointments st) = Appointment.id <$> appointments st).
    rewrite list_fmap_insert. apply list_insert_id.
    rewrite list_lookup_fmap, Hi. reflexivity.
Qed.

Lemma serve_bookings_ok u r st resp st' :
  bookings_ok st -> serve u r st = Some (resp, st') -> bookings_ok st'.
Proof.
  intros Hok Hrun.
  destruct r as [|data|start end_|date|date slots|date locked|data|id status|id|known];
    try (eapply bookings_ok_same; [eapply organization_request_bookings; [|eassumption]; exact I
                                  | assumption]);
    simpl in Hrun.
  - apply postAppointment_cases in Hrun
      as [[-> _] | (userId & dateStr & a & entry' & _ & Hv & Hkey & Ha & _ & Happs
                    & Hd & _ & Hother & Hentry & Hslots & Hfresh)]; [assumption|].
    eapply bookings_ok_booked; eauto.
  - apply patchAppointmentStatus_cases in Hrun
      as [[-> _] | (userId & i & found & _ & _ & _ & Hch)]; [assumption|].
    eapply bookings_ok_status; eauto.
  - apply postCancel_cases in Hrun
      as [[-> _] | (userId & i & found & _ & _ & _ & Hch)]; [assumption|].
    eapply bookings_ok_status; eauto.
Qed.

Lemma bookings_ok_empty : bookings_ok empty_store.
Proof.
  split; [|split].
  - intros d entry Hd. simpl in Hd. rewrite lookup_empty in Hd. discriminate.
  - split; [constructor|]. intros d entry iv Hd. simpl in Hd.
    rewrite lookup_empty in Hd. discriminate.
  - exists []. repeat split; constructor.
Qed.

Lemma run_bookings_ok pre st : run pre empty_store = Some st -> bookings_ok st.
Proof. apply (run_invariant bookings_ok serve_bookings_ok _ _ _ bookings_ok_empty). Qed.

(** X18.  In every reachable store, a date's entry of the booked-slots
    index holds at least one interval, and no (start, end) pair twice. *)
Theorem booked_index_entries pre st d entry :
  run pre empty_store = Some st ->
  bookedSlots st !! d = Some entry ->
  BookedEntry.timeSlots entry <> [] /\ NoDup (BookedEntry.timeSlots entry).
Proof. intros Hpre. apply (run_bookings_ok _ _ Hpre). Qed.

(** X19.  In every reachable store, each interval the booked-slots index
    holds under a date is the time slot of an appointment of that date
    that is not cancelled. *)
Theorem booked_interval_has_appointment pre st d entry iv :
  run pre empty_store = Some st ->
  bookedSlots st !! d = Some entry ->
  iv ∈ BookedEntry.timeSlots entry ->
  exists a, a ∈ appointments st
            /\ dateKey (Appointment.date a) = Some d
            /\ Appointment.timeSlot a = iv
            /\ Appointment.status a <> cancelled.
Proof. intros Hpre. apply (run_bookings_ok _ _ Hpre). Qed.

(** X20.  In every reachable store the identifiers of the appointments are
    draws of [uuidv4] made at pairwise different positions, all of them
    before the current one: no draw serves two appointments. *)
Theorem appointment_ids_drawn_once pre st :
  run pre empty_store = Some st ->
  exists ks,
    map Appointment.id (appointments st) = map uuidv4 ks
    /\ NoDup ks /\ Forall (fun k => (k < drawn st)%nat) ks.
Proof. intros Hpre. apply (run_bookings_ok _ _ Hpre). Qed.


(** *** Booking and cancelling *)

Lemma find_sameInterval_none wanted (l : list Interval.t) :
  wanted ∉ l -> List.find (sameInterval wanted) l = None.
Proof.
  intros Hnot. destruct (List.find (sameInterval wanted) l) as [x|] eqn:Hfind; [|reflexivity].
  apply find_some in Hfind as [Hin Hsame]. exfalso. apply Hnot.
  apply list_elem_of_In. unfold sameInterval in Hsame.
  apply andb_true_iff in Hsame as [Hs He].
  apply String.eqb_eq in Hs, He. destruct x, wanted. simpl in *. subst. assumption.
Qed.

Lemma postAppointment_accepted u userId data st dateStr :
  user_with_role "individual" u = Some userId ->
  validAppointment data = true ->
  dateKey (body_date data) = Some dateStr ->
  (forall entry, bookedSlots st !! dateStr = Some entry ->
                 body_timeSlot data ∉ BookedEntry.timeSlots entry) ->
  exists a st', postAppointment u data st
                = Some ({| code := 201; body := AppointmentBody a |}, st').
Proof.
  intros Hu Hv Hkey Hfree. unfold postAppointment. rewrite Hu, Hv, Hkey. unfold_M. simpl.
  destruct (bookedSlots st !! dateStr) as [entry|] eqn:Hentry; simpl.
  - rewrite (find_sameInterval_none _ _ (Hfree _ eq_refl)). eauto.
  - eauto.
Qed.

(** X21.  For an individual and a body that passes the schema, POST /
    answers 201 exactly when the (start, end) pair of the body is not in
    the index entry of the requested date.  Nothing else is looked at: an
    interval that overlaps a booked one but differs from it in start or
    end is accepted. *)
Theorem booking_accepted_unless_same_pair u userId data st dateStr :
  user_with_role "individual" u = Some userId ->
  validAppointment data = true ->
  dateKey (body_date data) = Some dateStr ->
  (exists a st', postAppointment u data st
                 = Some ({| code := 201; body := AppointmentBody a |}, st'))
  <-> (forall entry, bookedSlots st !! dateStr = Some entry ->
                     body_timeSlot data ∉ BookedEntry.timeSlots entry).
Proof.
  intros Hu Hv Hkey. split.
  - intros (a & st' & Hrun) entry Hentry.
    apply postAppointment_cases in Hrun
      as [[_ [Hc | Hc]] | (userId' & dateStr' & a' & entry' & _ & _ & Hkey' & _ & _ & _
                           & _ & _ & _ & _ & _ & Hfresh)]; try discriminate.
    assert (dateStr' = dateStr) as -> by congruence.
    rewrite Hentry in Hfresh. assumption.
  - apply (postAppointment_accepted u userId data st dateStr Hu Hv Hkey).
Qed.

(** X22.  A cancellation answered 200 cannot be repeated: the same POST
    /:id/cancel is then answered 400 "Appointment is already cancelled" and
    changes nothing. *)
Theorem cancel_twice_refused u id st a st' :
  postCancel u id st = Some ({| code := 200; body := AppointmentBody a |}, st') ->
  postCancel u id st'
  = Some ({| code := 400; body := Message "Appointment is already cancelled" |}, st').
Proof.
  intros Hrun.
  apply postCancel_cases in Hrun
    as [[_ [Hc | [Hc | Hc]]] | (userId & i & found & Hu & _ & Hfind & Hch)];
    try discriminate.
  destruct Hch as (Hi & Happs & _).
  apply list_find_Some in Hfind as (_ & [Hid Hind] & Hfirst).
  assert (Hfind' :
    list_find (fun apt => Appointment.id apt = id ∧ Appointment.individualId apt = userId)
      (appointments st') = Some (i, Appointment.with_status cancelled found)).
  { rewrite Happs. apply list_find_insert_Some. right. left.
    split; [reflexivity|]. split; [reflexivity|].
    split; [eapply lookup_lt_Some; eauto|].
    split; [split; assumption | assumption]. }
  unfold postCancel. rewrite Hu. unfold handler, mbind, M_bind, get_store.
  rewrite Hfind'. simpl. reflexivity.
Qed.

(** X23.  A cancellation answered 200, by POST /:id/cancel or by PATCH
    /:id/status with "cancelled", leaves the appointment in the list,
    cancelled, and leaves in the index of its date no interval that starts
    when it does, whatever the interval's end; so every valid booking for
    that date with that start is then accepted. *)
Theorem cancellation_frees_start u id st a st' d :
  postCancel u id st = Some ({| code := 200; body := AppointmentBody a |}, st')
  \/ patchAppointmentStatus u id cancelled st
     = Some ({| code := 200; body := AppointmentBody a |}, st') ->
  dateKey (Appointment.date a) = Some d ->
  Appointment.status a = cancelled
  /\ a ∈ appointments st'
  /\ (forall entry iv,
        bookedSlots st' !! d = Some entry -> iv ∈ BookedEntry.timeSlots entry ->
        Interval.start iv <> Interval.start (Appointment.timeSlot a))
  /\ (forall v userId data,
        user_with_role "individual" v = Some userId ->
        validAppointment data = true ->
        dateKey (body_date data) = Some d ->
        Interval.start (body_timeSlot data) = Interval.start (Appointment.timeSlot a) ->
        exists b st'',
          postAppointment v data st'
          = Some ({| code := 201; body := AppointmentBody b |}, st'')).
Proof.
  intros Hrun Hd.
  assert (Hch : exists i found failure, status_changed i found cancelled failure st st'
                  {| code := 200; body := AppointmentBody a |}).
  { destruct Hrun as [Hrun | Hrun].
    - apply postCancel_cases in Hrun
        as [[_ [Hc | [Hc | Hc]]] | (userId & i & found & _ & _ & _ & Hch)];
        try discriminate. eauto.
    - apply patchAppointmentStatus_cases in Hrun
        as [[_ [Hc | [Hc | Hc]]] | (userId & i & found & _ & _ & _ & Hch)];
        try discriminate. eauto. }
  destruct Hch as (i & found & failure & Hi & Happs & _ & _ & Hindex).
  rewrite bool_decide_eq_true_2 in Hindex by reflexivity.
  destruct (dateKey (Appointment.date found)) as [d'|] eqn:Hd';
    [|destruct Hindex as [_ Hresp]; discriminate].
  destruct Hindex as [[Hother Hown] Hresp]. injection Hresp as ->.
  simpl in Hd. assert (d' = d) as -> by congruence.
  assert (Hfree : forall entry iv,
            bookedSlots st' !! d = Some entry -> iv ∈ BookedEntry.timeSlots entry ->
            Interval.start iv <> Interval.start (Appointment.timeSlot found)).
  { intros entry iv Hentry Hiv. rewrite Hown in Hentry.
    destruct (bookedSlots st !! d) as [old|]; [|discriminate]. simpl in Hentry.
    destruct (length _ =? 0)%nat; [discriminate|]. injection Hentry as <-.
    simpl in Hiv. apply kept_elem in Hiv. apply Hiv. }
  split; [reflexivity|]. split.
  { rewrite Happs. apply (list_elem_of_lookup_2 _ i). apply list_lookup_insert_eq.
    eapply lookup_lt_Some; eauto. }
  split; [exact Hfree|].
  intros v userId data Hv Hvalid Hkey Hstart.
  apply (postAppointment_accepted v userId data st' d Hv Hvalid Hkey).
  intros entry Hentry Hin. apply (Hfree _ _ Hentry Hin). assumption.
Qed.



(** X25.  Booking looks at no store of [organizations.ts]: the answer of
    POST / and what it does to the appointments, the index and the two
    positions are the same whatever the settings, the slot caches and the
    locked days.  A locked or closed day, or an organization that has no
    settings, is booked like any other. *)
Theorem booking_ignores_organization_stores u data st f g h :
  postAppointment u data (set_lockedDays f (set_timeSlots g (set_settings h st)))
  = match postAppointment u data st with
    | Some (resp, st') =>
        Some (resp, set_lockedDays f (set_timeSlots g (set_settings h st')))
    | None => None
    end.
Proof.
  unfold postAppointment. unfold_M. simpl.
  repeat (case_match; simplify_eq; simpl in *; try reflexivity).
Qed.

(** X26.  A day read stores nothing.  GET /slots/:date leaves every store
    as it was; at most identifiers are drawn, for the slots it generates
    when the day is not cached (and which it does not cache), and none
    when the day is cached. *)
Theorem day_read_stores_nothing u date st resp st' :
  getSlots u date st = Some (resp, st') ->
  st' = set_drawn (drawn st') st
  /\ (drawn st <= drawn st')%nat
  /\ (forall o, user_of u = Some o -> is_Some (cached st o date) -> st' = st).
Proof.
  intros Hrun.
  assert (Hsame : st' = st -> st' = set_drawn (drawn st') st /\ (drawn st <= drawn st')%nat).
  { intros ->. split; [destruct st; reflexivity | lia]. }
  unfold getSlots in Hrun.
  destruct (user_of u) as [o|]; [|injection Hrun as _ <-; split; [|split]; try apply Hsame; auto; discriminate].
  revert Hrun. unfold_M. simpl.
  destruct (cached st o date) as [l|] eqn:Hc; simpl.
  - intros Hrun.
    assert (st' = st) as -> by (repeat case_match; simplify_eq; reflexivity).
    split; [|split]; try apply Hsame; auto.
  - destruct (generate date (settings st !! o) st) as [[[slots|msg] st1]|] eqn:Hg;
      simpl; [| |discriminate]; intros Hrun;
      (assert (st' = st1) as -> by (repeat case_match; simplify_eq; reflexivity));
      (split; [eapply generate_effect; eauto|]);
      (split; [eapply generate_grows; eauto|]);
      intros o' [= <-] [x Hx]; congruence.
Qed.

End AppointmentExtras.

(** *** Properties of the reading routes *)

Lemma status_partition (l : list Appointment.t) :
  length l
  = (length (List.filter (hasStatus confirmed) l)
     + length (List.filter (hasStatus cancelled) l)
     + length (List.filter (hasStatus pending) l))%nat.
Proof.
  induction l as [|a rest IH]; [reflexivity|].
  simpl. unfold hasStatus in *.
  destruct (Appointment.status a); repeat (case_bool_decide; try congruence); simpl; lia.
Qed.

Lemma user_with_role_inv role u userId :
  user_with_role role u = Some userId ->
  exists x, u = Some x /\ user_id x = userId /\ user_role x = role
            /\ user_of u = Some userId.
Proof.
  unfold user_with_role, user_of. destruct u as [x|]; [|discriminate].
  destruct (String.eqb_spec (user_id x) ""); [discriminate|]. simpl.
  destruct (String.eqb_spec (user_role x) role); [|discriminate]. simpl.
  intros [= <-]. eauto.
Qed.

Lemma filter_elem {A} (f : A -> bool) (l : list A) x :
  x ∈ List.filter f l <-> x ∈ l /\ f x = true.
Proof. rewrite !list_elem_of_In. apply filter_In. Qed.

(** X27.  In the statistics of an organization, total = confirmed +
    cancelled + pending, and total is the number of appointments GET /
    lists for it. *)
Theorem stats_add_up u st total nconfirmed ncancelled npending :
  getStats u st = Counted total nconfirmed ncancelled npending ->
  total = (nconfirmed + ncancelled + npending)%nat
  /\ exists l, getAppointments u st = Listed l /\ length l = total.
Proof.
  unfold getStats, getAppointments.
  destruct (user_with_role "organization" u) as [userId|] eqn:Hu; [|discriminate].
  apply user_with_role_inv in Hu as (x & -> & Hid & Hrole & Hof). rewrite Hof.
  intros [= <- <- <- <-]. split; [apply status_partition|].
  eexists. split; [reflexivity|]. f_equal. apply filter_ext. intros a.
  unfold ownedBy. rewrite Hrole, Hid. reflexivity.
Qed.

Section ReadingFacts.
Context `{Platform}.

Lemma onDate_elem date l kept :
  onDate date l = Ok kept ->
  forall a, a ∈ kept <-> a ∈ l /\ dateKey (Appointment.date a) = Some date.
Proof.
  revert kept. induction l as [|b rest IH]; simpl; intros kept Hrun a.
  - injection Hrun as <-. split; [intros Hin; inversion Hin | intros [Hin _]; inversion Hin].
  - destruct (dateKey (Appointment.date b)) as [key|] eqn:Hkey; [|discriminate].
    destruct (onDate date rest) as [kept'|]; [|discriminate].
    injection Hrun as <-. specialize (IH _ eq_refl a).
    destruct (String.eqb_spec key date) as [->|Hne].
    + rewrite !elem_of_cons, IH. split.
      * intros [-> | [Hin Hd]]; auto.
      * intros [[-> | Hin] Hd]; auto.
    + rewrite elem_of_cons, IH. split.
      * intros [Hin Hd]; auto.
      * intros [[-> | Hin] Hd]; [congruence | auto].
Qed.

Lemma onDate_total date l :
  Forall (fun a => is_Some (dateKey (Appointment.date a))) l ->
  exists kept, onDate date l = Ok kept.
Proof.
  induction 1 as [|a rest [key Hkey] _ [kept IH]]; simpl; [eauto|].
  rewrite Hkey, IH. eauto.
Qed.

(** X28.  The reading routes show users their own appointments only: every
    appointment listed by GET / or GET /filter, or shown by GET /:id, is in
    the store and names the user as its organization (role
    "organization") or as its individual (any other role); the one shown
    has the identifier asked for. *)
Theorem readings_are_own x st :
  (forall l, getAppointments (Some x) st = Listed l ->
             Forall (fun a => ownedBy x a = true /\ a ∈ appointments st) l)
  /\ (forall status date l,
        getFilter (Some x) status date st = Listed l ->
        Forall (fun a => ownedBy x a = true /\ a ∈ appointments st) l)
  /\ (forall id a,
        getAppointment (Some x) id st = Shown a ->
        ownedBy x a = true /\ Appointment.id a = id /\ a ∈ appointments st).
Proof.
  split; [|split].
  - unfold getAppointments. destruct (user_of (Some x)); [|discriminate].
    intros l [= <-]. apply Forall_forall. intros a Ha.
    apply filter_elem in Ha. tauto.
  - intros status date l. unfold getFilter.
    destruct (user_of (Some x)); [|discriminate].
    destruct (match status with Some s => statusFilter s | None => Some None end)
      as [wanted|]; [|discriminate].
    destruct (match date with Some _ => _ | None => false end); [discriminate|].
    assert (Hsub : forall a,
      a ∈ match wanted with
          | Some s => List.filter (hasStatus s) (List.filter (ownedBy x) (appointments st))
          | None => List.filter (ownedBy x) (appointments st)
          end -> ownedBy x a = true /\ a ∈ appointments st).
    { intros a. destruct wanted; rewrite ?filter_elem; tauto. }
    destruct (present date) as [val|].
    + destruct (onDate val _) as [kept|] eqn:Hon; [|discriminate].
      intros [= <-]. apply Forall_forall. intros a Ha.
      apply (onDate_elem _ _ _ Hon) in Ha as [Ha _]. auto.
    + intros [= <-]. apply Forall_forall. exact Hsub.
  - intros id a. unfold getAppointment. destruct (user_of (Some x)); [|discriminate].
    destruct (List.find _ _) as [b|] eqn:Hfind; [|discriminate].
    intros [= <-]. apply find_some in Hfind as [Hin Hb].
    apply andb_true_iff in Hb as [Hid Hown]. apply String.eqb_eq in Hid.
    rewrite list_elem_of_In. auto.
Qed.

(** X29.  On a reachable store, a filter query that passes the schema is
    answered with a list, never 500; the list holds exactly the user's
    appointments that have the wanted status, when one other than "all" is
    given, and whose date formats to the date of the query as written,
    when one is given and not empty. *)
Theorem filter_answer pre st x status date wanted :
  run pre empty_store = Some st ->
  user_id x <> "" ->
  match status with Some s => statusFilter s | None => Some None end = Some wanted ->
  (forall val, date = Some val -> val <> "" -> is_Some (dateKey val)) ->
  exists l,
    getFilter (Some x) status date st = Listed l
    /\ forall a,
         a ∈ l <-> a ∈ appointments st /\ ownedBy x a = true
                   /\ (forall s, wanted = Some s -> Appointment.status a = s)
                   /\ (forall val, present date = Some val ->
                                   dateKey (Appointment.date a) = Some val).
Proof.
  intros Hpre Hid Hstatus Hdate.
  destruct (run_bookings_ok _ _ Hpre) as (_ & (Hdates & _) & _).
  unfold getFilter, user_of. destruct (String.eqb_spec (user_id x) ""); [contradiction|].
  rewrite Hstatus.
  assert (Hvalid : match date with
                   | Some val => negb (String.eqb val "")
                                 && negb (bool_decide (is_Some (dateKey val)))
                   | None => false
                   end = false).
  { destruct date as [val|]; [|reflexivity].
    destruct (String.eqb_spec val ""); [reflexivity|]. simpl.
    rewrite bool_decide_eq_true_2; [reflexivity | auto]. }
  rewrite Hvalid.
  set (filtered := match wanted with
                   | Some s => List.filter (hasStatus s) (List.filter (ownedBy x) (appointments st))
                   | None => List.filter (ownedBy x) (appointments st)
                   end).
  assert (Hfiltered : forall a,
    a ∈ filtered <-> a ∈ appointments st /\ ownedBy x a = true
                     /\ (forall s, wanted = Some s -> Appointment.status a = s)).
  { intros a. unfold filtered. destruct wanted as [s|]; rewrite ?filter_elem.
    - unfold hasStatus. rewrite bool_decide_eq_true. split.
      + intros [[Hin Hown] Hs]. repeat split; auto. intros s' [= <-]. assumption.
      + intros (Hin & Hown & Hs). auto.
    - split; [intros [Hin Hown]; repeat split; auto; discriminate | tauto]. }
  destruct (present date) as [val|].
  - destruct (onDate_total val filtered) as [kept Hon].
    { apply Forall_forall. intros a Ha. apply Hfiltered in Ha as [Ha _].
      rewrite Forall_forall in Hdates. auto. }
    rewrite Hon. exists kept. split; [reflexivity|].
    intros a. rewrite (onDate_elem _ _ _ Hon), Hfiltered. split.
    + intros [(Hin & Hown & Hs) Hd]. repeat split; auto. intros val' [= <-]. assumption.
    + intros (Hin & Hown & Hs & Hd). auto.
  - exists filtered. split; [reflexivity|].
    intros a. rewrite Hfiltered. split; [|tauto].
    intros (Hin & Hown & Hs). repeat split; auto. discriminate.
Qed.

(** X30.  An accepted booking is listed.  After POST / answered 201, GET /
    of the same individual lists what it listed before followed by the new
    appointment, and the statistics of the organization the body names
    count one more appointment and one more pending. *)
Theorem booking_is_listed u data st a st' :
  postAppointment u data st
  = Some ({| code := 201; body := AppointmentBody a |}, st') ->
  (exists l, getAppointments u st = Listed l
             /\ getAppointments u st' = Listed (l ++ [a]))
  /\ (forall v total nconfirmed ncancelled npending,
        user_with_role "organization" v = Some (body_organizationId data) ->
        getStats v st = Counted total nconfirmed ncancelled npending ->
        getStats v st' = Counted (S total) nconfirmed ncancelled (S npending)).
Proof.
  intros Hrun.
  apply postAppointment_cases in Hrun
    as [[_ [Hc | Hc]] | (userId & dateStr & a' & entry' & Hu & _ & _ & Ha & Hresp & Happs & _)];
    try discriminate.
  injection Hresp as <-.
  split.
  - apply user_with_role_inv in Hu as (x & -> & Hid & Hrole & Hof).
    unfold getAppointments. rewrite Hof, Happs. eexists. split; [reflexivity|].
    rewrite List.filter_app. simpl.
    replace (ownedBy x a) with true; [reflexivity|].
    unfold ownedBy. rewrite Hrole, Ha, Hid. simpl. symmetry. apply String.eqb_refl.
  - intros v total nconfirmed ncancelled npending Hv.
    unfold getStats. rewrite Hv, Happs. intros [= <- <- <- <-].
    rewrite List.filter_app. simpl.
    replace (String.eqb (Appointment.organizationId a) (body_organizationId data)) with true
      by (rewrite Ha; simpl; symmetry; apply String.eqb_refl).
    rewrite !List.filter_app, !length_app. simpl.
    unfold hasStatus at 2 4 6. rewrite Ha. simpl. f_equal; lia.
Qed.

End ReadingFacts.

(** ** The claims at work on the reference platform *)

#[local] Existing Instance Reference.platform.

(** C1.  The code departs from the claim.  [org1] opens, [ind1] books
    Monday 2024-01-15 09:00-09:30, [org1] reads the status of that day, and
    the appointment is cancelled, by [ind1] with POST /:id/cancel or by
    [org1] with PATCH /:id/status.  Either way the cancellation empties the
    booked-slots index and the appointment is cancelled; yet the next day
    read still shows the slot 09:00-09:30 unavailable, and the next status
    read still counts 15 available slots of 16: the status read had written
    the booking into the cached slot, and nothing writes it back. *)
Theorem cancelled_slot_stays_unavailable :
  stays_unavailable book_read_cancel /\ stays_unavailable book_read_revoke.
Proof.
  split; unfold stays_unavailable; do 5 eexists;
    (split; [vm_compute; reflexivity|]);
    (split; [vm_compute; reflexivity|]);
    (split; [vm_compute; reflexivity|]);
    (split; [vm_compute; reflexivity|]);
    (split; [vm_compute; reflexivity|]);
    (split; [vm_compute; reflexivity|]);
    vm_compute; reflexivity.
Qed.

Lemma postAppointment_rejects_duplicate_witness :
  postAppointment ind1 first_slot booked_store
  = Some ({| code := 400; body := Message "This time slot is already booked" |},
          booked_store).
Proof.
  apply (postAppointment_rejects_duplicate ind1 "ind1" first_slot booked_store "2024-01-15"
           (BookedEntry.mk "org1" (Reference.uuid 0) [Interval.mk "09:00" "09:30"]));
    try reflexivity.
  apply list_elem_of_here.
Defined.

Lemma putSettings_discards_cache_witness :
  user_of org1 = Some "org1" /\ validSettings shorter_slots = true
  /\ exists st',
       putSettings org1 shorter_slots booked_store
       = Some ({| code := 200; body := SettingsBody shorter_slots |}, st')
       /\ settings st' !! "org1" = Some shorter_slots
       /\ timeSlots st' !! "org1" = Some ∅.
Proof.
  split; [reflexivity|]. split; [reflexivity|].
  destruct (putSettings_discards_cache org1 "org1" shorter_slots booked_store
              eq_refl eq_refl) as (st' & Hput & Hset & Hcache & _).
  exists st'. auto.
Defined.

Lemma booking_marks_its_slot_witness :
  exists appointment st' slots st1 slots' st1',
    postAppointment ind1 first_slot settled_store
    = Some ({| code := 201; body := AppointmentBody appointment |}, st')
    /\ getSlots org1 "2024-01-15" settled_store
       = Some ({| code := 200; body := SlotsBody slots false |}, st1)
    /\ map slot_view slots = map (fun p => (fst p, snd p, true)) office_hours
    /\ getSlots org1 "2024-01-15" st'
       = Some ({| code := 200; body := SlotsBody slots' false |}, st1')
    /\ map slot_view slots'
       = ("09:00", "09:30", false) :: map (fun p => (fst p, snd p, true)) (tail office_hours).
Proof.
  do 4 eexists.
  match goal with
  | |- exists slots' st1', ?P /\ ?Q /\ ?V /\ _ =>
      assert (Hpost : P) by (vm_compute; reflexivity);
      assert (Hread : Q) by (vm_compute; reflexivity)
  end.
  destruct (booking_marks_its_slot _ _ _ _ _ "2024-01-15" org1 "org1" _ _ _
              Hpost eq_refl eq_refl Hread)
    as (base & base' & slots' & st1' & _ & _ & _ & _ & _ & _ & Hafter & Hviews & _).
  exists slots', st1'.
  split; [exact Hpost|]. split; [exact Hread|].
  split; [vm_compute; reflexivity|].
  split; [exact Hafter|].
  rewrite Hviews. vm_compute. reflexivity.
Defined.

(** C2 fails as stated for the identifiers.  On the reference platform
    [org1] has settings and no cached day; [ind1] books Monday's first
    slot.  The day read before the booking and the day read after it agree
    on the slot 09:30-10:00, which is not the booked one, in start, end
    and availability, and give it different identifiers: each read
    generates the day anew. *)
Lemma booking_read_renews_identifiers :
  exists appointment st' slots st1 slots' st1',
    postAppointment ind1 first_slot settled_store
    = Some ({| code := 201; body := AppointmentBody appointment |}, st')
    /\ getSlots org1 "2024-01-15" settled_store
       = Some ({| code := 200; body := SlotsBody slots false |}, st1)
    /\ getSlots org1 "2024-01-15" st'
       = Some ({| code := 200; body := SlotsBody slots' false |}, st1')
    /\ slots !! 1%nat = Some (TimeSlot.mk (Reference.uuid 1) "09:30" "10:00" true)
    /\ slots' !! 1%nat = Some (TimeSlot.mk (Reference.uuid 2) "09:30" "10:00" true)
    /\ Reference.uuid 1 <> Reference.uuid 2.
Proof.
  do 6 eexists.
  split; [vm_compute; reflexivity|].
  split; [vm_compute; reflexivity|].
  split; [vm_compute; reflexivity|].
  split; [vm_compute; reflexivity|].
  split; [vm_compute; reflexivity|].
  discriminate.
Qed.



Lemma generateTimeSlots_deterministic_up_to_ids_witness :
  exists first second,
    generateTimeSlots "2024-01-15" default_settings 0 = Some (Ok (first, 16%nat))
    /\ generateTimeSlots "2024-01-15" default_settings 16 = Some (Ok (second, 32%nat))
    /\ map slot_view first = map slot_view second
    /\ length first = 16%nat
    /\ Forall (fun a => Forall (fun b => TimeSlot.id a <> TimeSlot.id b) second) first.
Proof.
  do 2 eexists.
  match goal with
  | |- ?P /\ ?Q /\ _ =>
      assert (Hfirst : P) by (vm_compute; reflexivity);
      assert (Hsecond : Q) by (vm_compute; reflexivity)
  end.
  split; [exact Hfirst|]. split; [exact Hsecond|].
  destruct (generateTimeSlots_deterministic_up_to_ids "2024-01-15" default_settings
              0%nat 16%nat) as (_ & _ & Hfresh & _ & _).
  split; [|split; [reflexivity|]].
  - vm_compute. reflexivity.
  - apply Forall_forall. intros a Ha. apply Forall_forall. intros b Hb.
    refine (Hfresh _ _ _ _ Hfirst Hsecond _ a b Ha Hb).
    intros i j Hi Hj Heq.
    assert (Hall : forallb (fun i => forallb (fun j =>
                      negb (String.eqb (Reference.uuid i) (Reference.uuid j)))
                      (seq 16 16)) (seq 0 16) = true) by (vm_compute; reflexivity).
    rewrite forallb_forall in Hall.
    specialize (Hall i ltac:(apply in_seq; lia)).
    rewrite forallb_forall in Hall.
    specialize (Hall j ltac:(apply in_seq; lia)).
    simpl in Heq. rewrite Heq, String.eqb_refl in Hall. discriminate.
Defined.

(** ** The further properties at work on the reference platform *)

Lemma generated_slots_read_back_witness :
  exists slots n,
    generateTimeSlots "2024-01-15" default_settings 0 = Some (Ok (slots, n))
    /\ Forall (fun slot =>
                 exists a,
                   Clock.parse (TimeSlot.start slot) = Some a
                   /\ Clock.parse (TimeSlot.end_ slot) = Some (a + 60000 * 30)
                   /\ 32400000 <= a /\ a + 60000 * 30 <= 61200000
                   /\ TimeSlot.isAvailable slot = true) slots.
Proof.
  eexists. eexists. split; [vm_compute; reflexivity|].
  apply (generated_slots_read_back "2024-01-15" default_settings 0%nat "Monday" monday
           32400000 61200000 30 0 _ 16%nat); try reflexivity; simpl; lia.
Defined.

Lemma generated_slots_closed_form_witness :
  slot_count 32400000 61200000 (60000 * 15) (60000 * 5) = 24%nat
  /\ exists slots,
       generateTimeSlots "2024-01-15" shorter_slots 0 = Some (Ok (slots, 24%nat))
       /\ length slots = 24%nat
       /\ map slot_times (take 2 slots) = [ ("09:00", "09:15"); ("09:20", "09:35") ].
Proof.
  split; [vm_compute; reflexivity|].
  pose proof (generated_slots_closed_form "2024-01-15" shorter_slots 0%nat "Monday" monday
                32400000 61200000 15 5 eq_refl eq_refl eq_refl eq_refl eq_refl
                eq_refl eq_refl eq_refl) as Hform.
  cbv zeta in Hform.
  destruct Hform as [Hrun Hlen]; [discriminate | intros Hstrict; discriminate Hstrict |].
  eexists. split; [exact Hrun|]. split; [exact Hlen|].
  vm_compute. reflexivity.
Defined.

Lemma generated_slots_distinct_witness :
  validSettings half_minute_slots = true
  /\ exists slots n,
       generateTimeSlots "2024-01-15" half_minute_slots 0 = Some (Ok (slots, n))
       /\ map TimeSlot.start (take 3 slots) = [ "09:00"; "09:22"; "09:45" ]
       /\ NoDup (map TimeSlot.start slots).
Proof.
  split; [vm_compute; reflexivity|].
  eexists. eexists. split; [vm_compute; reflexivity|].
  split; [vm_compute; reflexivity|].
  apply (generated_slots_distinct "2024-01-15" half_minute_slots 0%nat _ 21%nat);
    vm_compute; reflexivity.
Defined.

Lemma generateTimeSlots_never_ends_witness :
  validSettings standstill_settings = false
  /\ forall fuel, generateTimeSlots_fuel fuel "2024-01-15" standstill_settings 0 = None.
Proof.
  split; [reflexivity|].
  apply (generateTimeSlots_never_ends "2024-01-15" standstill_settings 0%nat "Monday" monday
           32400000 61200000); try reflexivity.
  - vm_compute. discriminate.
  - intros Hstrict. discriminate Hstrict.
Defined.

Lemma short_hour_booking_blocks_nothing_witness :
  timePattern (Interval.start short_hour) = true
  /\ Clock.parse (Interval.start short_hour) = Clock.parse "09:00"
  /\ exists slots n,
       generateTimeSlots "2024-01-15" default_settings 0 = Some (Ok (slots, n))
       /\ map (markBooked [short_hour]) slots = slots.
Proof.
  split; [reflexivity|]. split; [reflexivity|].
  eexists. eexists. split; [vm_compute; reflexivity|].
  apply (short_hour_booking_blocks_nothing "2024-01-15" default_settings 0%nat _ 16%nat);
    reflexivity.
Defined.

Lemma organization_stores_together_witness :
  run open_and_book empty_store = Some booked_store
  /\ is_Some (lockedDays booked_store !! "org1")
  /\ timeSlots booked_store !! "org2" = None.
Proof.
  split; [vm_compute; reflexivity|].
  destruct (organization_stores_together open_and_book booked_store "org1") as [H1 H1'];
    [vm_compute; reflexivity | reflexivity | reflexivity |].
  destruct (organization_stores_together open_and_book booked_store "org2") as [H2 H2'];
    [vm_compute; reflexivity | reflexivity | reflexivity |].
  split; [apply H1; vm_compute; eauto|].
  destruct (timeSlots booked_store !! "org2") eqn:E; [|reflexivity].
  assert (Hs : is_Some (settings booked_store !! "org2")) by (apply H2'; eauto).
  destruct Hs as [x Hx]. vm_compute in Hx. discriminate.
Defined.

Lemma locked_days_without_repeats_witness :
  exists st,
    run [ (org1, GetSettings); (org1, PutLockedDay "2024-01-15" true);
          (org1, PutLockedDay "2024-01-15" true) ] empty_store = Some st
    /\ lockedDays st !! "org1" = Some ["2024-01-15"]
    /\ NoDup ["2024-01-15"].
Proof.
  eexists. split; [vm_compute; reflexivity|]. split; [vm_compute; reflexivity|].
  eapply (locked_days_without_repeats
            [ (org1, GetSettings); (org1, PutLockedDay "2024-01-15" true);
              (org1, PutLockedDay "2024-01-15" true) ] _ "org1");
    vm_compute; reflexivity.
Defined.

Lemma unidentified_request_refused_witness :
  serve None (PutLockedDay "2024-01-15" true) settled_store
  = Some ({| code := 401; body := Message "Unauthorized" |}, settled_store).
Proof.
  apply unidentified_request_refused; [reflexivity | discriminate].
Defined.

Lemma reachable_store_answers_witness :
  exists resp st',
    serve org1 (GetSlotStatus (Some "2024-01-15") (Some "2024-01-21")) booked_store
    = Some (resp, st').
Proof.
  apply (reachable_store_answers open_and_book). vm_compute. reflexivity.
Defined.

Lemma stored_settings_within_bounds_witness :
  exists st,
    run [(org1, PutSettings shorter_slots)] empty_store = Some st
    /\ settings st !! "org1" = Some shorter_slots
    /\ ((Qc_of_Z 15 <= slotDuration shorter_slots)%Qc
        /\ (slotDuration shorter_slots <= Qc_of_Z 120)%Qc)
    /\ ((Qc_of_Z 0 <= breakBetweenSlots shorter_slots)%Qc
        /\ (breakBetweenSlots shorter_slots <= Qc_of_Z 60)%Qc).
Proof.
  eexists. split; [vm_compute; reflexivity|]. split; [vm_compute; reflexivity|].
  eapply (stored_settings_within_bounds [(org1, PutSettings shorter_slots)] _ "org1");
    vm_compute; reflexivity.
Defined.


Lemma settings_read_back_witness :
  exists st',
    putSettings org1 shorter_slots locked_store
    = Some ({| code := 200; body := SettingsBody shorter_slots |}, st')
    /\ getSettings org1 st'
       = Some ({| code := 200; body := SettingsBody shorter_slots |}, st')
    /\ lockedDays st' = lockedDays locked_store.
Proof.
  destruct (settings_read_back org1 "org1" shorter_slots locked_store eq_refl eq_refl)
    as (st' & Hput & Hget & Hlocks & _).
  exists st'. split; [exact Hput|]. split; [exact Hget|].
  apply Hlocks. vm_compute. eauto.
Defined.

Lemma locked_flag_read_back_witness :
  exists st',
    putLockedDay org1 "2024-01-15" false locked_store
    = Some ({| code := 200; body := LockedBody "2024-01-15" false |}, st')
    /\ exists l', lockedDays st' !! "org1" = Some l' /\ includes l' "2024-01-15" = false.
Proof.
  eexists. split; [vm_compute; reflexivity|].
  edestruct (locked_flag_read_back org1 "org1" "2024-01-15" false locked_store)
    as (l & l' & _ & Hl' & Hin & _); [reflexivity | vm_compute; reflexivity |].
  exists l'. split; [exact Hl' | exact Hin].
Defined.

Lemma stored_slots_read_back_witness :
  exists st',
    putSlots org1 "2024-01-15"
      (Some [TimeSlot.mk "a" "09:00" "09:30" true; TimeSlot.mk "b" "10:00" "11:00" true])
      booked_store
    = Some ({| code := 200;
               body := DaySlotsBody "2024-01-15"
                         [TimeSlot.mk "a" "09:00" "09:30" true;
                          TimeSlot.mk "b" "10:00" "11:00" true] false |}, st')
    /\ getSlots org1 "2024-01-15" st'
       = Some ({| code := 200;
                  body := SlotsBody
                            [TimeSlot.mk "a" "09:00" "09:30" false;
                             TimeSlot.mk "b" "10:00" "11:00" true] false |}, st').
Proof.
  eexists. split; [vm_compute; reflexivity|].
  match goal with
  | |- getSlots _ _ ?st' = _ =>
      refine (eq_trans
                (proj2 (proj2 (stored_slots_read_back org1 "org1" "2024-01-15"
                                 [TimeSlot.mk "a" "09:00" "09:30" true;
                                  TimeSlot.mk "b" "10:00" "11:00" true]
                                 false booked_store st' _ _ _ _))) _)
  end; vm_compute; reflexivity.
Defined.

Lemma status_answer_covers_range_witness :
  exists statuses st',
    getSlotStatus org1 (Some "2024-01-15") (Some "2024-01-16") booked_store
    = Some ({| code := 200; body := StatusesBody statuses |}, st')
    /\ forall d, is_Some (statuses !! d) <-> d ∈ ["2024-01-15"; "2024-01-16"].
Proof.
  do 2 eexists. split; [vm_compute; reflexivity|].
  refine (proj1 (status_answer_covers_range org1 "org1" "2024-01-15" "2024-01-16"
                   ["2024-01-15"; "2024-01-16"] _ booked_store _ _ _ _));
    vm_compute; reflexivity.
Defined.

Lemma status_read_twice_witness :
  exists statuses st',
    getSlotStatus org1 (Some "2024-01-15") (Some "2024-01-16") booked_store
    = Some ({| code := 200; body := StatusesBody statuses |}, st')
    /\ getSlotStatus org1 (Some "2024-01-15") (Some "2024-01-16") st'
       = Some ({| code := 200; body := StatusesBody statuses |}, st').
Proof.
  do 2 eexists. split; [vm_compute; reflexivity|].
  refine (status_read_twice org1 "org1" "2024-01-15" "2024-01-16"
            ["2024-01-15"; "2024-01-16"] _ booked_store _ _ _ _);
    vm_compute; reflexivity.
Defined.

Lemma day_read_agrees_with_status_witness :
  exists statuses st',
    getSlotStatus org1 (Some "2024-01-15") (Some "2024-01-16") booked_store
    = Some ({| code := 200; body := StatusesBody statuses |}, st')
    /\ exists ds slots,
         statuses !! "2024-01-15" = Some ds
         /\ getSlots org1 "2024-01-15" st'
            = Some ({| code := 200; body := SlotsBody slots (isLocked ds) |}, st')
         /\ length slots = totalSlots ds.
Proof.
  do 2 eexists. split; [vm_compute; reflexivity|].
  match goal with
  | |- exists ds slots, ?statuses !! _ = _ /\ getSlots _ _ ?st' = _ /\ _ =>
      destruct (day_read_agrees_with_status org1 "org1" "2024-01-15" "2024-01-16"
                  ["2024-01-15"; "2024-01-16"] statuses booked_store st' "2024-01-15")
        as (ds & slots & Hds & Hread & _ & Hlen & _)
  end.
  - reflexivity.
  - vm_compute. reflexivity.
  - vm_compute. reflexivity.
  - apply list_elem_of_here.
  - exists ds, slots. split; [exact Hds|]. split; [exact Hread | exact Hlen].
Defined.

Lemma day_read_stores_nothing_witness :
  exists resp st',
    getSlots org1 "2024-01-15" booked_store = Some (resp, st')
    /\ st' = set_drawn (drawn st') booked_store
    /\ (drawn booked_store <= drawn st')%nat.
Proof.
  destruct (getSlots org1 "2024-01-15" booked_store) as [[resp st']|] eqn:Hread.
  - exists resp, st'. split; [reflexivity|].
    destruct (day_read_stores_nothing org1 "2024-01-15" booked_store resp st' Hread)
      as (Hst & Hd & _).
    split; [exact Hst | exact Hd].
  - vm_compute in Hread. discriminate Hread.
Defined.

Lemma booked_index_entries_witness :
  run open_and_book empty_store = Some booked_store
  /\ exists entry,
       bookedSlots booked_store !! "2024-01-15" = Some entry
       /\ BookedEntry.timeSlots entry <> [] /\ NoDup (BookedEntry.timeSlots entry).
Proof.
  split; [vm_compute; reflexivity|].
  eexists. split; [vm_compute; reflexivity|].
  apply (booked_index_entries open_and_book booked_store "2024-01-15");
    vm_compute; reflexivity.
Defined.

Lemma booked_interval_has_appointment_witness :
  exists a,
    a ∈ appointments booked_store
    /\ dateKey (Appointment.date a) = Some "2024-01-15"
    /\ Appointment.timeSlot a = Interval.mk "09:00" "09:30"
    /\ Appointment.status a <> cancelled.
Proof.
  eapply (booked_interval_has_appointment open_and_book booked_store "2024-01-15").
  - vm_compute. reflexivity.
  - vm_compute. reflexivity.
  - apply list_elem_of_here.
Defined.

Lemma appointment_ids_drawn_once_witness :
  exists ks,
    map Appointment.id (appointments booked_store) = map uuidv4 ks
    /\ NoDup ks /\ Forall (fun k => (k < drawn booked_store)%nat) ks.
Proof.
  apply (appointment_ids_drawn_once open_and_book). vm_compute. reflexivity.
Defined.

Lemma booking_accepted_unless_same_pair_witness :
  exists a st',
    postAppointment ind1 first_hour booked_store
    = Some ({| code := 201; body := AppointmentBody a |}, st').
Proof.
  apply (booking_accepted_unless_same_pair ind1 "ind1" first_hour booked_store "2024-01-15");
    try reflexivity.
  intros entry Hentry Hin. vm_compute in Hentry. injection Hentry as <-.
  apply list_elem_of_singleton in Hin. discriminate.
Defined.

Lemma cancel_twice_refused_witness :
  exists a st',
    postCancel ind1 (Reference.uuid 0) booked_store
    = Some ({| code := 200; body := AppointmentBody a |}, st')
    /\ postCancel ind1 (Reference.uuid 0) st'
       = Some ({| code := 400; body := Message "Appointment is already cancelled" |}, st').
Proof.
  do 2 eexists. split; [vm_compute; reflexivity|].
  match goal with
  | |- postCancel _ _ ?st' = _ =>
      apply (cancel_twice_refused ind1 (Reference.uuid 0) booked_store
               (Appointment.with_status cancelled first_appointment) st')
  end.
  vm_compute. reflexivity.
Defined.

Lemma cancellation_frees_start_witness :
  exists a st',
    patchAppointmentStatus org1 (Reference.uuid 0) cancelled booked_store
    = Some ({| code := 200; body := AppointmentBody a |}, st')
    /\ Appointment.status a = cancelled
    /\ exists b st'',
         postAppointment ind1 first_hour st'
         = Some ({| code := 201; body := AppointmentBody b |}, st'').
Proof.
  do 2 eexists. split; [vm_compute; reflexivity|].
  match goal with
  | |- Appointment.status ?a = _ /\ exists b st'', postAppointment _ _ ?st' = _ =>
      destruct (cancellation_frees_start org1 (Reference.uuid 0) booked_store a st'
                  "2024-01-15")
        as (Hstatus & _ & _ & Hagain)
  end.
  - right. vm_compute. reflexivity.
  - vm_compute. reflexivity.
  - split; [exact Hstatus|].
    apply (Hagain ind1 "ind1" first_hour); reflexivity.
Defined.


Lemma stats_add_up_witness :
  getStats org1 booked_store = Counted 1 0 0 1
  /\ 1%nat = (0 + 0 + 1)%nat.
Proof.
  split; [vm_compute; reflexivity|].
  refine (proj1 (stats_add_up org1 booked_store 1 0 0 1 _)). vm_compute. reflexivity.
Defined.

Lemma filter_answer_witness :
  exists l,
    getFilter ind1 (Some "pending") (Some "2024-01-15") booked_store = Listed l
    /\ forall a,
         a ∈ l <-> a ∈ appointments booked_store
                   /\ ownedBy {| user_id := "ind1"; user_role := "individual" |} a = true
                   /\ (forall s, Some pending = Some s -> Appointment.status a = s)
                   /\ (forall val, present (Some "2024-01-15") = Some val ->
                                   dateKey (Appointment.date a) = Some val).
Proof.
  apply (filter_answer open_and_book booked_store
           {| user_id := "ind1"; user_role := "individual" |}
           (Some "pending") (Some "2024-01-15") (Some pending)).
  - vm_compute. reflexivity.
  - discriminate.
  - reflexivity.
  - intros val [= <-] _. vm_compute. eauto.
Defined.

Lemma booking_is_listed_witness :
  getAppointments ind1 settled_store = Listed []
  /\ exists a st',
       postAppointment ind1 first_slot settled_store
       = Some ({| code := 201; body := AppointmentBody a |}, st')
       /\ exists l, getAppointments ind1 settled_store = Listed l
                    /\ getAppointments ind1 st' = Listed (l ++ [a]).
Proof.
  split; [reflexivity|].
  do 2 eexists. split; [vm_compute; reflexivity|].
  refine (proj1 (booking_is_listed ind1 first_slot settled_store _ _ _)).
  vm_compute. reflexivity.
Defined.
